(** * lab: grid environments and result fetcher

    A shallow embedding of [src/lab/environments.py] and
    [src/lab/fetcher.py], and the properties of the job-chain builder and
    of the result aggregator proved over it.

    Conventions.  Python 2 byte strings are [string] (lists of [ascii]);
    Python integers that count things are [nat]; a function that may raise
    returns a [result]; a method with side effects is a state transformer
    over [World], the part of the process environment the two modules touch
    (files, queue submissions, terminal, log records, random generator).

    What the two modules take from the rest of the repository is not part
    of the sources at hand: [lab/tools.py] ([Properties], [makedirs],
    [run_command], [fast_updatetree], [confirm_or_abort], the logging
    set-up), [lab/experiment.py] and the job templates.  Calls to helpers
    that act on the directory tree or on the queue are recorded in the
    world ([calls]); the choices that decide the control flow of the two
    modules are parameters ([Externals]).  [assert] statements are
    checked, as without [-O]. *)

From Stdlib Require Import ZArith Lia List Ascii String.
From Stdlib Require Import DecimalString DecimalNat DecimalFacts.
From Stdlib Require Import QArith Qround Permutation SpecFloat.
From stdpp Require Import gmap strings list fin_maps sorting.

Local Open Scope string_scope.
Local Open Scope nat_scope.
Local Open Scope list_scope.

(* ===================================================================== *)
(** * Python primitives *)
(* ===================================================================== *)

(** Exceptions that the two modules can raise.  [SystemExit] is what
    [sys.exit] raises; nothing in the sources catches an exception. *)
Inductive exn :=
| AssertionError
| ValueError
| TypeError
| ZeroDivisionError
| EOFError
| SystemExit (msg : string).

Inductive result (A : Type) :=
| Ok (a : A)
| Raise (e : exn).
Arguments Ok {A} a.
Arguments Raise {A} e.

Definition rbind {A B} (r : result A) (k : A -> result B) : result B :=
  match r with
  | Ok a => k a
  | Raise e => Raise e
  end.

Declare Scope result_scope.
Delimit Scope result_scope with result.
Notation "'try' x <- c1 ; c2" := (rbind c1 (fun x => c2))
  (at level 10, x name, c1 at level 100, c2 at level 200,
   format "'[v' 'try'  x  <-  c1 ; '/' c2 ']'") : result_scope.

(** ** Strings *)

(** [c.isdigit()] on a one-character byte string: the ASCII digits. *)
Definition isdigit (c : ascii) : bool :=
  (48 <=? nat_of_ascii c) && (nat_of_ascii c <=? 57).

(** [sep.join(parts)]. *)
Fixpoint str_join (sep : string) (parts : list string) : string :=
  match parts with
  | [] => ""
  | [p] => p
  | p :: rest => p +:+ sep +:+ str_join sep rest
  end.

(** [s.startswith('/')] and [s.endswith('/')]. *)
Definition startswith_slash (s : string) : bool :=
  match s with
  | String "/" _ => true
  | _ => false
  end.

Fixpoint endswith_slash (s : string) : bool :=
  match s with
  | "" => false
  | String c "" => Ascii.eqb c "/"
  | String _ rest => endswith_slash rest
  end.

(** [str(n)] for a non-negative integer. *)
Definition str_of_nat (n : nat) : string :=
  NilEmpty.string_of_uint (Nat.to_uint n).

Fixpoint str_repeat (c : ascii) (n : nat) : string :=
  match n with
  | O => ""
  | S n' => String c (str_repeat c n')
  end.

(** ['%0<w>d' % n] and ['%<w>d' % n]: the decimal digits, padded on the
    left up to width [w]; longer numbers are not truncated. *)
Definition pad_left (c : ascii) (w : nat) (s : string) : string :=
  str_repeat c (w - String.length s) +:+ s.

Definition fmt_0wd (w n : nat) : string := pad_left "0" w (str_of_nat n).
Definition fmt_wd (w n : nat) : string := pad_left " " w (str_of_nat n).

(** [os.path.join(a, *p)] of [posixpath]. *)
Definition path_join1 (path b : string) : string :=
  if startswith_slash b then b
  else if String.eqb path "" || endswith_slash path then path +:+ b
  else path +:+ "/" +:+ b.

Definition os_path_join (a : string) (p : list string) : string :=
  fold_left path_join1 p a.

(** ** Lists *)

(** [l.index(x)]: position of the first element equal to [x]. *)
Fixpoint list_index {A} `{EqDecision A} (x : A) (l : list A) : result nat :=
  match l with
  | [] => Raise ValueError
  | y :: rest =>
      if decide (y = x) then Ok 0
      else rbind (list_index x rest) (fun i => Ok (S i))
  end.

(** [l.remove(x)]: drops the first element equal to [x]. *)
Fixpoint list_remove {A} `{EqDecision A} (x : A) (l : list A) : result (list A) :=
  match l with
  | [] => Raise ValueError
  | y :: rest =>
      if decide (y = x) then Ok rest
      else rbind (list_remove x rest) (fun r => Ok (y :: r))
  end.

(** [int(math.ceil(n / float(d)))] for counts [n] and [d].  The quotient
    is taken in the rationals: the double-precision quotient of two
    integers below 2^53 has the same ceiling ([binary64_ceil_div] below is
    the double-precision computation, compared with this one on samples). *)
Definition ceil_div_float (n d : nat) : result nat :=
  if d =? 0 then Raise ZeroDivisionError
  else Ok (Z.to_nat (Qceiling (inject_Z (Z.of_nat n) / inject_Z (Z.of_nat d)))).

(* ===================================================================== *)
(** * Experiments and steps (the interface [environments.py] uses) *)
(* ===================================================================== *)

(** A step of the pipeline: its [name] and the name of the method it
    calls, [_funcname]; a run step is one whose [_funcname] is ["run"]. *)
Record Step := mkStep {
  name : string;
  _funcname : string;
}.

Global Instance Step_eq_dec : EqDecision Step.
Proof. solve_decision. Defined.

Definition is_run_step (step : Step) : bool := String.eqb (_funcname step) "run".

(** The attributes of [self.exp] that the grid environment reads. *)
Record Experiment := mkExperiment {
  exp_name : string;
  exp_path : string;
  preprocess_exp_path : string;
  exp_steps : list Step;
  exp_runs : list string;          (* the run directories *)
  exp_args_steps : list string;    (* [exp.args.steps] *)
}.

(** [get_job_prefix(exp_name)] *)
Definition get_job_prefix (exp_name : string) : result string :=
  match exp_name with
  | "" => Raise AssertionError
  | String c _ =>
      let escape_char := if isdigit c then "j" else "" in
      Ok (str_join "" [escape_char; exp_name; "-"])
  end.

(** [OracleGridEngineEnvironment._get_job_name(step)].  The position is
    that of the step among all steps of the experiment, not among the
    steps handed to [run_steps].  Steps are compared by their fields;
    Python compares the step objects, which comes to the same whenever the
    steps of an experiment differ pairwise. *)
Definition _get_job_name (exp : Experiment) (step : Step) : result string :=
  (try prefix <- get_job_prefix (exp_name exp);
   try idx <- list_index step (exp_steps exp);
   Ok (prefix +:+ fmt_0wd 2 (idx + 1) +:+ "-" +:+ name step))%result.


(* ===================================================================== *)
(** * The process environment *)
(* ===================================================================== *)

Definition nl : string := String (ascii_of_nat 10) "".
Definition dquote : string := String (ascii_of_nat 34) "".

Inductive level := INFO | CRITICAL.

(** Calls that leave the process: helpers of [lab.tools] with an effect on
    the directory tree or on the queue, in the order they were made.  What
    such a call does to the tree (directories made, run directories
    copied) is known by the call; [files] holds what the two modules
    themselves write, and what [Properties.write] persists. *)
Inductive call :=
| Makedirs (dir : string)
| RunCommand (argv : list string) (cwd : string)
| FastUpdatetree (src dst : string).

Record World := mkWorld {
  exp : Experiment;                 (* [self.exp], which [build] extends *)
  files : gmap string string;       (* regular files: path to contents *)
  calls : list call;                (* newest last *)
  log : list (level * string);      (* [logging] records, newest last *)
  prompts : list string;            (* questions put to the user *)
  replies : list bool;              (* pending answers: [true] confirms *)
  random_draw : nat -> nat;         (* the values of [random.random] *)
  random_pos : nat;                 (* how many were consumed *)
  os_glob : string -> list string;  (* [glob.glob], in directory order *)
  sys_argv : list string;
  sys_executable : string;
  os_cwd : string;
}.

Definition set_exp (e : Experiment) (w : World) : World :=
  mkWorld e (files w) (calls w) (log w) (prompts w) (replies w)
    (random_draw w) (random_pos w) (os_glob w) (sys_argv w)
    (sys_executable w) (os_cwd w).
Definition set_files (f : gmap string string) (w : World) : World :=
  mkWorld (exp w) f (calls w) (log w) (prompts w) (replies w)
    (random_draw w) (random_pos w) (os_glob w) (sys_argv w)
    (sys_executable w) (os_cwd w).
Definition set_calls (c : list call) (w : World) : World :=
  mkWorld (exp w) (files w) c (log w) (prompts w) (replies w)
    (random_draw w) (random_pos w) (os_glob w) (sys_argv w)
    (sys_executable w) (os_cwd w).
Definition set_log (l : list (level * string)) (w : World) : World :=
  mkWorld (exp w) (files w) (calls w) l (prompts w) (replies w)
    (random_draw w) (random_pos w) (os_glob w) (sys_argv w)
    (sys_executable w) (os_cwd w).
Definition set_terminal (p : list string) (r : list bool) (w : World) : World :=
  mkWorld (exp w) (files w) (calls w) (log w) p r
    (random_draw w) (random_pos w) (os_glob w) (sys_argv w)
    (sys_executable w) (os_cwd w).
Definition set_random_pos (n : nat) (w : World) : World :=
  mkWorld (exp w) (files w) (calls w) (log w) (prompts w) (replies w)
    (random_draw w) n (os_glob w) (sys_argv w)
    (sys_executable w) (os_cwd w).

(** A method with effects: from a world to an outcome and the world it
    leaves, also when it raises. *)
Definition M (A : Type) : Type := World -> result A * World.

Definition ret {A} (a : A) : M A := fun w => (Ok a, w).
Definition raise {A} (e : exn) : M A := fun w => (Raise e, w).
Definition bind {A B} (m : M A) (k : A -> M B) : M B :=
  fun w => match m w with
           | (Ok a, w') => k a w'
           | (Raise e, w') => (Raise e, w')
           end.
Definition lift {A} (r : result A) : M A := fun w => (r, w).
Definition get_world : M World := fun w => (Ok w, w).
Definition modify (f : World -> World) : M unit := fun w => (Ok tt, f w).

Declare Scope m_scope.
Delimit Scope m_scope with M.
Notation "'let*' x := c1 'in' c2" := (bind c1 (fun x => c2))
  (at level 10, x name, c1 at level 100, c2 at level 200,
   format "'[v' 'let*'  x  :=  c1  'in' '/' c2 ']'") : m_scope.
Notation "c1 ;; c2" := (bind c1 (fun _ => c2))
  (at level 100, c2 at level 200, right associativity) : m_scope.
Local Open Scope m_scope.

(** [when c m]: [if c: m]. *)
Definition when (c : bool) (m : M unit) : M unit := if c then m else ret tt.

(** ** Files *)

(** [os.path.exists(path)] *)
Definition os_path_exists (path : string) : M bool :=
  let* w := get_world in ret (bool_decide (is_Some (files w !! path))).

(** [open(path, 'w')] creates the file or truncates it. *)
Definition open_w (path : string) : M unit :=
  modify (fun w => set_files (<[path := ""]> (files w)) w).

(** [f.write(data)] on a file opened at [path]. *)
Definition file_write (path data : string) : M unit :=
  modify (fun w => set_files (<[path := default "" (files w !! path) +:+ data]> (files w)) w).

Definition do_call (c : call) : M unit :=
  modify (fun w => set_calls (calls w ++ [c]) w).

(** [logging.info(msg)] *)
Definition logging_info (msg : string) : M unit :=
  modify (fun w => set_log (log w ++ [(INFO, msg)]) w).

(* ===================================================================== *)
(** * Property stores ([lab.tools.Properties]) *)
(* ===================================================================== *)

(** Values of a property file: strings, numbers, lists of strings (a run
    id is one) and, in the combined file, the store of a run. *)
#[warnings="-register-all"] Inductive value :=
| VStr (s : string)
| VNum (z : Z)
| VList (l : list string)
| VStore (d : list (string * value)).

(** Modelled from the spec: the Property Store of [lab/tools.py], which is
    not among the sources.  It is a mapping from string keys to values that
    keeps insertion order and has unique keys. *)
Definition Properties : Type := list (string * value).

(** Modelled from the spec: [props.get(key)] of the absent Property Store;
    [None] when the key is missing. *)
Fixpoint props_get (key : string) (p : Properties) : option value :=
  match p with
  | [] => None
  | (k, v) :: rest => if decide (k = key) then Some v else props_get key rest
  end.

(** Modelled from the spec: [props[key] = v] of the absent Property Store:
    an existing key is overwritten where it stands, a new key goes last. *)
Fixpoint props_set (key : string) (v : value) (p : Properties) : Properties :=
  match p with
  | [] => [(key, v)]
  | (k, v') :: rest =>
      if decide (k = key) then (k, v) :: rest
      else (k, v') :: props_set key v rest
  end.

Definition props_keys (p : Properties) : list string := map fst p.

(** Truth value of [props.get('id')] in [if not run_id]. *)
Definition truthy (v : option value) : bool :=
  match v with
  | None => false
  | Some (VStr s) => negb (String.eqb s "")
  | Some (VNum z) => negb (Z.eqb z 0)
  | Some (VList l) => negb (bool_decide (l = []))
  | Some (VStore d) => negb (bool_decide (props_keys d = []))
  end.

(** The strings that iterating over a value yields, as [*run_id] and
    ['-'.join(run_id)] do: the items of a list, the characters of a
    string, the keys of a store; [None] and numbers are not iterable. *)
Fixpoint chars (s : string) : list string :=
  match s with
  | "" => []
  | String c rest => String c "" :: chars rest
  end.

Definition iter_strings (v : option value) : result (list string) :=
  match v with
  | None => Raise TypeError
  | Some (VNum _) => Raise TypeError
  | Some (VStr s) => Ok (chars s)
  | Some (VList l) => Ok l
  | Some (VStore d) => Ok (props_keys d)
  end.

(* ===================================================================== *)
(** * What the sources use from the rest of the repository *)
(* ===================================================================== *)

(** The substitutions for [data/grid-job-header-template] and for
    [data/grid-job-body-template]. *)
Record JobParams := mkJobParams {
  jp_errfile : string;
  jp_extra_options : string;
  jp_host_spec : string;
  jp_logfile : string;
  jp_name : string;
  jp_notification : string;
  jp_num_tasks : nat;
  jp_priority : Z;
  jp_queue : string;
}.

Record BodyParams := mkBodyParams {
  bp_num_tasks : nat;
  bp_run_ids : string;
}.

(** Behaviour that lives in files of the repository outside the two
    modules: the job templates (data files), [Experiment.build], the text
    format of property files, and two choices made in [lab/tools.py]:
    whether the logging handler it installs ends the process on a CRITICAL
    record, and whether [confirm_or_abort] ends it on a negative answer. *)
Record Externals := mkExternals {
  critical_exits : bool;
  decline_exits : bool;
  exp_build : string -> Experiment -> Experiment;
  header_template : JobParams -> string;
  body_template : BodyParams -> string;
  props_loads : string -> Properties;
  props_dumps : Properties -> string;
}.

(** The attributes of a grid environment: what [__init__] stores, and the
    class constant [MAX_TASKS] ([None] for [float('inf')]). *)
Record GridEnv := mkGridEnv {
  queue : string;
  host_spec : string;
  priority : Z;
  runs_per_task : nat;
  email : option string;
  randomize_task_order : bool;
  extra_options : string;
  MAX_TASKS : option nat;
}.

(* ===================================================================== *)
(** * [lab/environments.py]: OracleGridEngineEnvironment *)
(* ===================================================================== *)

(** [random.shuffle(x)]: for [i] from [len(x) - 1] down to 1, exchange
    [x[i]] with [x[j]] for a [j] drawn from [0..i].  The draw
    [int(random() * (i + 1))] is the next value of the generator reduced
    to that range. *)
Definition swap {A} (x : list A) (i j : nat) : list A :=
  match x !! i, x !! j with
  | Some xi, Some xj => <[j := xi]> (<[i := xj]> x)
  | _, _ => x
  end.

Fixpoint shuffle_down {A} (draw : nat -> nat) (pos i : nat) (x : list A) : list A :=
  match i with
  | O => x
  | S i' => shuffle_down draw (S pos) i' (swap x i (draw pos mod (i + 1)))
  end.

Definition shuffle {A} (draw : nat -> nat) (pos : nat) (x : list A) : list A :=
  shuffle_down draw pos (length x - 1) x.

Definition random_shuffle {A} (x : list A) : M (list A) :=
  let* w := get_world in
  modify (set_random_pos (random_pos w + (length x - 1))) ;;
  ret (shuffle (random_draw w) (random_pos w) x).

Section Lab.

Variable X : Externals.

(** Modelled from the spec: [logging.critical(msg)] under the handler that
    [lab/tools.py], which is not among the sources, installs.  The record
    is emitted; the process then ends with [SystemExit] when the handler
    is the aborting one ([critical_exits]), and the call returns when it is
    not. *)
Definition logging_critical (msg : string) : M unit :=
  modify (fun w => set_log (log w ++ [(CRITICAL, msg)]) w) ;;
  if critical_exits X then raise (SystemExit "aborting") else ret tt.

(** Modelled from the spec: [tools.confirm_or_abort(question)] of the
    absent [lab/tools.py].  It puts the question to the user and reads one
    answer ([EOFError] when there is none); on a negative answer it ends
    the process ([decline_exits]) or, in the variant that only reports,
    returns. *)
Definition confirm_or_abort (question : string) : M unit :=
  let* w := get_world in
  match replies w with
  | [] => modify (set_terminal (prompts w ++ [question]) []) ;;
          raise EOFError
  | answer :: rest =>
      modify (set_terminal (prompts w ++ [question]) rest) ;;
      if answer then ret tt
      else if decline_exits X then raise (SystemExit "Aborted")
      else ret tt
  end.

(** [tools.makedirs], [tools.run_command]: recorded as calls. *)
Definition tools_makedirs (dir : string) : M unit := do_call (Makedirs dir).
Definition tools_run_command (argv : list string) (cwd : string) : M unit :=
  do_call (RunCommand argv cwd).

(** [self.exp.build(stage=..., dry_run=True)] *)
Definition build (stage : string) : M unit :=
  modify (fun w => set_exp (exp_build X stage (exp w)) w).

Variable self : GridEnv.

(** [_get_script_args()] *)
Definition _get_script_args : M (list string) :=
  let* w := get_world in
  let commandline := rev (tail (sys_argv w)) in
  let* commandline :=
    (if bool_decide ("--all" ∈ commandline)
     then lift (list_remove "--all" commandline)
     else ret commandline) in
  let* commandline :=
    lift (fold_left (fun acc step_name => rbind acc (list_remove step_name))
            (exp_args_steps (exp w)) (Ok commandline)) in
  ret (rev commandline).

(** [num_runs > self.MAX_TASKS] *)
Definition exceeds (num_runs : nat) (max_tasks : option nat) : bool :=
  match max_tasks with
  | None => false
  | Some m => m <? num_runs
  end.

(** The text of the capacity error, for [num_runs] tasks and a limit. *)
Definition capacity_message (num_runs : nat) (max_tasks : option nat) : string :=
  "You are trying to submit a job with " +:+ str_of_nat num_runs +:+
  " tasks, but only " +:+ str_of_nat (default 0 max_tasks) +:+
  " are allowed.".

(** [_get_num_runs()] *)
Definition _get_num_runs : M nat :=
  let* w := get_world in
  let* num_runs := lift (ceil_div_float (length (exp_runs (exp w))) (runs_per_task self)) in
  when (exceeds num_runs (MAX_TASKS self))
    (logging_critical (capacity_message num_runs (MAX_TASKS self))) ;;
  ret num_runs.

(** [_get_num_tasks(step)] *)
Definition _get_num_tasks (step : Step) : M nat :=
  if String.eqb (_funcname step) "run" then _get_num_runs else ret 1.

(** [_get_job_params(step)] *)
Definition _get_job_params (step : Step) : M JobParams :=
  let* w := get_world in
  let* job_name := lift (_get_job_name (exp w) step) in
  let* num_tasks := _get_num_tasks step in
  ret {| jp_errfile := "driver.err";
         jp_extra_options := extra_options self;
         jp_host_spec := host_spec self;
         jp_logfile := "driver.log";
         jp_name := job_name;
         jp_notification := "#$ -m n";
         jp_num_tasks := num_tasks;
         jp_priority := priority self;
         jp_queue := queue self |}.

Definition with_notification (n : string) (p : JobParams) : JobParams :=
  mkJobParams (jp_errfile p) (jp_extra_options p) (jp_host_spec p)
    (jp_logfile p) (jp_name p) n (jp_num_tasks p) (jp_priority p) (jp_queue p).

Definition nonempty (s : option string) : option string :=
  match s with
  | Some "" => None
  | _ => s
  end.

(** [_get_job_header(step, is_last)] *)
Definition _get_job_header (step : Step) (is_last : bool) : M string :=
  let* job_params := _get_job_params step in
  let job_params :=
    match (if is_last then nonempty (email self) else None) with
    | Some addr => with_notification ("#$ -M " +:+ addr +:+ nl +:+ "#$ -m e") job_params
    | None => job_params
    end in
  ret (header_template X job_params).

(** The dictionary [body_params] that [_get_main_job_body()] fills in. *)
Definition body_params : M BodyParams :=
  let* num_tasks := _get_num_runs in
  let* run_ids :=
    (if randomize_task_order self then
       let run_ids := map (fun i => str_of_nat (i + 1)) (seq 0 num_tasks) in
       let* run_ids := random_shuffle run_ids in
       ret (str_join " " run_ids)
     else ret "") in
  ret {| bp_num_tasks := num_tasks; bp_run_ids := run_ids |}.

(** [_get_main_job_body()] *)
Definition _get_main_job_body : M string :=
  let* params := body_params in
  ret (body_template X params).

(** [_get_job_body(step)] *)
Definition _get_job_body (step : Step) : M string :=
  if String.eqb (_funcname step) "run" then _get_main_job_body
  else
    let* w := get_world in
    let python := if String.eqb (sys_executable w) "" then "python" else sys_executable w in
    let* args := _get_script_args in
    ret ("cd " +:+ os_cwd w +:+ nl +:+
         python +:+ " " +:+ hd "" (sys_argv w) +:+ " " +:+
         str_join " " args +:+ " " +:+ name step +:+ nl).

(** [_get_job(step, is_last)] *)
Definition _get_job (step : Step) (is_last : bool) : M string :=
  let* header := _get_job_header step is_last in
  let* body := _get_job_body step in
  ret (header +:+ nl +:+ nl +:+ body).

Definition submitted_question (submitted_file : string) : string :=
  "The file " +:+ dquote +:+ submitted_file +:+ dquote +:+
  " already exists so it seems the experiment has already been submitted. " +:+
  "Are you sure you want to submit it again?".

Definition submitted_text : string :=
  "This file is created when the experiment is submitted to the queue.".

(** One iteration of the loop of [run_steps]: the step at position
    [number] of [total]; the result is the new [prev_job_name]. *)
Definition run_step (total number : nat) (step : Step)
    (prev_job_name : option string) : M (option string) :=
  let* job_dir :=
    (if String.eqb (name step) "run-preprocess-exp" then
       build "preprocess" ;;
       let* w := get_world in
       let job_dir := preprocess_exp_path (exp w) in
       tools_makedirs job_dir ;;
       ret job_dir
     else
       let* w := get_world in ret (exp_path (exp w))) in
  when (String.eqb (name step) "run-search-exp") (build "search") ;;
  let submitted_file := os_path_join job_dir ["submitted"] in
  when (String.eqb (_funcname step) "run")
    (let* present := os_path_exists submitted_file in
     when present (confirm_or_abort (submitted_question submitted_file))) ;;
  let* w := get_world in
  let* job_name := lift (_get_job_name (exp w) step) in
  let job_file := os_path_join job_dir [job_name] in
  open_w job_file ;;
  let* job := _get_job step (number =? total) in
  file_write job_file job ;;
  let submit :=
    (["qsub"] ++
     match nonempty prev_job_name with
     | Some prev => ["-hold_jid"; prev]
     | None => []
     end ++ [job_name])%list in
  tools_run_command submit job_dir ;;
  when (String.eqb (_funcname step) "run")
    (open_w submitted_file ;; file_write submitted_file submitted_text) ;;
  ret (Some job_name).

Fixpoint run_steps_loop (total number : nat) (steps : list Step)
    (prev_job_name : option string) : M (option string) :=
  match steps with
  | [] => ret prev_job_name
  | step :: rest =>
      let* prev := run_step total number step prev_job_name in
      run_steps_loop total (S number) rest prev
  end.

(** [run_steps(steps)] *)
Definition run_steps (steps : list Step) : M unit :=
  let* w := get_world in
  tools_makedirs (exp_path (exp w)) ;;
  run_steps_loop (length steps) 1 steps None ;;
  ret tt.

(* ===================================================================== *)
(** * [lab/fetcher.py]: Fetcher *)
(* ===================================================================== *)

(** [sorted(paths)]: byte-wise lexicographic order. *)
Definition str_le (a b : string) : Prop := String.leb a b = true.

#[local] Instance str_le_dec : RelDecision str_le.
Proof. intros a b. unfold str_le. apply _. Defined.

Definition sorted (paths : list string) : list string :=
  merge_sort str_le paths.

(** Modelled from the spec: [tools.Properties(filename=...)] of the absent
    [lab/tools.py] loads the store from the file when the file exists and
    is empty otherwise. *)
Definition Properties_load (filename : string) : M Properties :=
  let* w := get_world in
  ret (match files w !! filename with
       | Some text => props_loads X text
       | None => []
       end).

(** Modelled from the spec: [props.write()] of the absent [lab/tools.py]
    persists the store to the file it was created for. *)
Definition Properties_write (filename : string) (props : Properties) : M unit :=
  modify (fun w => set_files (<[filename := props_dumps X props]> (files w)) w).

Definition tools_fast_updatetree (src dst : string) : M unit :=
  do_call (FastUpdatetree src dst).

(** The text of the integrity error for the property file [prop_file]. *)
Definition id_message (prop_file : string) : string :=
  "id is not set in " +:+ prop_file +:+ ".".

(** [Fetcher.fetch_dir(run_dir, eval_dir, copy_all)] *)
Definition fetch_dir (run_dir eval_dir : string) (copy_all : bool)
    : M (option value * Properties) :=
  let prop_file := os_path_join run_dir ["properties"] in
  let* props := Properties_load prop_file in
  let run_id := props_get "id" props in
  (* Abort if an id cannot be read. *)
  when (negb (truthy run_id)) (logging_critical (id_message prop_file)) ;;
  let* segments := lift (iter_strings run_id) in
  let dest_dir := os_path_join eval_dir segments in
  when copy_all
    (tools_makedirs dest_dir ;; tools_fast_updatetree run_dir dest_dir) ;;
  ret (run_id, props).

(** The loop of [Fetcher.__call__] over [enumerate(run_dirs, 1)];
    [combined_props] is [None] when [write_combined_props] is false. *)
Fixpoint fetch_loop (eval_dir : string) (copy_all : bool) (total_dirs index : nat)
    (run_dirs : list string) (combined_props : option Properties)
    : M (option Properties) :=
  match run_dirs with
  | [] => ret combined_props
  | run_dir :: rest =>
      logging_info ("Fetching: " +:+ fmt_wd 6 index +:+ "/" +:+ str_of_nat total_dirs) ;;
      let* fetched := fetch_dir run_dir eval_dir copy_all in
      let '(run_id, props) := fetched in
      let* combined_props :=
        match combined_props with
        | Some combined =>
            let* segments := lift (iter_strings run_id) in
            ret (Some (props_set (str_join "-" segments) (VStore props) combined))
        | None => ret None
        end in
      fetch_loop eval_dir copy_all total_dirs (S index) rest combined_props
  end.

(** [eval_dir or exp_dir + '-eval'] *)
Definition default_eval_dir (exp_dir : string) (eval_dir : option string) : string :=
  match nonempty eval_dir with
  | Some d => d
  | None => exp_dir +:+ "-eval"
  end.

(** [Fetcher.__call__(exp_dir, eval_dir, copy_all, write_combined_props)] *)
Definition Fetcher_call (exp_dir : string) (eval_dir : option string)
    (copy_all write_combined_props : bool) : M unit :=
  let* exp_props := Properties_load (os_path_join exp_dir ["properties"]) in
  (if endswith_slash exp_dir then raise AssertionError else ret tt) ;;
  let eval_dir := default_eval_dir exp_dir eval_dir in
  logging_info ("Fetching files from " +:+ exp_dir +:+ " -> " +:+ eval_dir) ;;
  let combined_props_filename := os_path_join eval_dir ["properties"] in
  let* combined_props :=
    (if write_combined_props
     then let* p := Properties_load combined_props_filename in ret (Some p)
     else ret None) in
  (* Get all run_dirs *)
  let* w := get_world in
  let run_dirs := sorted (os_glob w (os_path_join exp_dir ["runs-*-*"; "*"])) in
  let total_dirs := length run_dirs in
  let* combined_props := fetch_loop eval_dir copy_all total_dirs 1 run_dirs combined_props in
  tools_makedirs eval_dir ;;
  match combined_props with
  | Some combined => Properties_write combined_props_filename combined
  | None => ret tt
  end.

End Lab.

(* ===================================================================== *)
(** * Notions used to state the properties *)
(* ===================================================================== *)

(** The ten decimal digits. *)
Definition digits : list ascii :=
  ["0"; "1"; "2"; "3"; "4"; "5"; "6"; "7"; "8"; "9"]%char.

(** [k] is the ceiling of [n / d]: the least [k] with [n <= k * d]. *)
Definition is_ceiling (n d k : nat) : Prop :=
  n <= k * d /\ forall j, n <= j * d -> k <= j.

(** The same quotient and ceiling in IEEE 754 double precision:
    [float(n)], the correctly rounded division, and [math.ceil]. *)
Definition float_of_nat (n : nat) : spec_float :=
  binary_normalize 53 1024 (Z.of_nat n) 0 false.

Definition float_ceil (x : spec_float) : option Z :=
  match x with
  | S754_zero _ => Some 0%Z
  | S754_finite s m e =>
      let v := if s then Z.neg m else Z.pos m in
      Some (if (0 <=? e)%Z then (v * 2 ^ e)%Z else (- ((- v) / 2 ^ (- e)))%Z)
  | _ => None
  end.

Definition binary64_ceil_div (n d : nat) : option nat :=
  if d =? 0 then None
  else option_map Z.to_nat (float_ceil (SFdiv 53 1024 (float_of_nat n) (float_of_nat d))).

Definition binary64_agrees (max_n max_d : nat) : bool :=
  forallb (fun n =>
    forallb (fun d =>
      match binary64_ceil_div n d, ceil_div_float n d with
      | Some k, Ok k' => k =? k'
      | _, _ => false
      end) (seq 1 max_d)) (seq 0 (S max_n)).

(** The job names of all steps of an experiment, in chain order. *)
Definition job_names (e : Experiment) : list (result string) :=
  map (_get_job_name e) (exp_steps e).

(** Byte-wise lexicographic order on names, as a queue listing sorts. *)
Definition name_lt (a b : string) : Prop := String.ltb a b = true.

(** Decimal numerals: every character is a digit, and reading the
    numeral back gives the number, leading zeros or not. *)
Definition all_digits (s : string) : Prop :=
  exists d, NilEmpty.uint_of_string s = Some d.

Definition nat_of_str (s : string) : option nat :=
  option_map Nat.of_uint (NilEmpty.uint_of_string s).

(** The example of the specification: experiment [foo] with the steps
    [build], [run] and [report]. *)
Definition foo_steps : list Step :=
  [mkStep "build" "call"; mkStep "run" "run"; mkStep "report" "call"].

Definition foo_exp : Experiment :=
  mkExperiment "foo" "/exp/foo" "/exp/foo-p" foo_steps ["r1"; "r2"; "r3"] [].

(** An experiment with a hundred steps, named [1] to [100]. *)
Definition hundred_exp : Experiment :=
  mkExperiment "foo" "/exp/foo" "/exp/foo-p"
    (map (fun i => mkStep (str_of_nat i) "call") (seq 1 100)) [] [].

(** Job names grow with the position in the chain. *)
Definition job_names_increasing (e : Experiment) : Prop :=
  forall i j si sj ni nj,
    i < j ->
    exp_steps e !! i = Some si -> exp_steps e !! j = Some sj ->
    _get_job_name e si = Ok ni -> _get_job_name e sj = Ok nj ->
    name_lt ni nj.

Definition job_names_distinct (e : Experiment) : Prop :=
  forall i j si sj ni nj,
    i <> j ->
    exp_steps e !! i = Some si -> exp_steps e !! j = Some sj ->
    _get_job_name e si = Ok ni -> _get_job_name e sj = Ok nj ->
    ni <> nj.

(** Two-digit numerals compare like the numbers they denote (checked by
    evaluation for all numbers below 100). *)
Definition two_digit_check : bool :=
  forallb (fun b =>
    forallb (fun a =>
      (String.length (fmt_0wd 2 a) =? 2) && (String.length (fmt_0wd 2 b) =? 2) &&
      match String.compare (fmt_0wd 2 a) (fmt_0wd 2 b) with Lt => true | _ => false end)
      (seq 0 b))
    (seq 0 100).

(** The words of a text: its maximal runs of characters other than the
    space, as [text.split()] gives them. *)
Fixpoint words (s : string) : list string :=
  match s with
  | "" => []
  | String c rest =>
      if Ascii.eqb c " " then words rest
      else
        match rest with
        | "" => [String c ""]
        | String c' _ =>
            if Ascii.eqb c' " " then String c "" :: words rest
            else
              match words rest with
              | w :: ws => String c w :: ws
              | [] => [String c ""]
              end
        end
  end.

Fixpoint no_space (s : string) : Prop :=
  match s with
  | "" => True
  | String c rest => c <> " "%char /\ no_space rest
  end.

(** Sample surroundings for the examples: no files, no pending answers,
    the generator [draw], no directory entries. *)
Definition sample_world (e : Experiment) (fs : gmap string string)
    (answers : list bool) : World :=
  mkWorld e fs [] [] [] answers (fun n => 7 * n + 3) 0 (fun _ => [])
    ["exp.py"; "--all"] "/usr/bin/python" "/home/user".

(** Sample externals: templates that show their parameters, a [build]
    that adds nothing, and property files that are not read. *)
Definition sample_externals (critical decline : bool) : Externals :=
  mkExternals critical decline (fun _ e => e)
    (fun p => "#$ -N " +:+ jp_name p +:+ nl +:+ "#$ -t 1-" +:+ str_of_nat (jp_num_tasks p) +:+
              nl +:+ jp_notification p)
    (fun b => "RUN_IDS=(" +:+ bp_run_ids b +:+ ")")
    (fun _ => []) (fun _ => "").

(** Grid environments as the base class builds them, for a number of runs
    per task, a task limit and a choice of randomization. *)
Definition sample_env (per_task : nat) (limit : option nat) (randomize : bool) : GridEnv :=
  mkGridEnv "all.q" "## (not used)" 0 per_task None randomize "## (not used)" limit.

(** An experiment with 2001 runs. *)
Definition big_exp : Experiment :=
  mkExperiment "foo" "/exp/foo" "/exp/foo-p" foo_steps (repeat "run" 2001) [].

(** The jobs handed to [qsub], oldest first: the last argument of each
    recorded submission command. *)
Definition submitted_jobs (cs : list call) : list string :=
  omap (fun c => match c with
                 | RunCommand argv _ => last argv
                 | _ => None
                 end) cs.

(** The world in which a step's job is built: [run_steps] lets [build]
    add the runs for the two steps that need them, and creates the
    directory of the preprocessing experiment. *)
Definition after_build (X : Externals) (step : Step) (w : World) : World :=
  let w1 :=
    if String.eqb (name step) "run-preprocess-exp" then
      let wb := set_exp (exp_build X "preprocess" (exp w)) w in
      set_calls (calls wb ++ [Makedirs (preprocess_exp_path (exp wb))]) wb
    else w in
  if String.eqb (name step) "run-search-exp"
  then set_exp (exp_build X "search" (exp w1)) w1
  else w1.

(** The directory that receives the job file and the marker of a step. *)
Definition job_dir_of (X : Externals) (step : Step) (w : World) : string :=
  if String.eqb (name step) "run-preprocess-exp"
  then preprocess_exp_path (exp_build X "preprocess" (exp w))
  else exp_path (exp w).

Definition marker_of (X : Externals) (step : Step) (w : World) : string :=
  os_path_join (job_dir_of X step w) ["submitted"].

(** The parts of the body of the loop of [run_steps] after the calls to
    [build]: the submission guard, and the writing and submission of the
    job.  [run_step_eq] shows that they make up [run_step]. *)
Definition submission_guard (X : Externals) (step : Step) (job_dir : string) : M unit :=
  let submitted_file := os_path_join job_dir ["submitted"] in
  when (String.eqb (_funcname step) "run")
    (bind (os_path_exists submitted_file) (fun present =>
     when present (confirm_or_abort X (submitted_question submitted_file)))).

Definition write_and_submit (X : Externals) (self : GridEnv) (total number : nat)
    (step : Step) (prev_job_name : option string) (job_dir : string)
    : M (option string) :=
  let submitted_file := os_path_join job_dir ["submitted"] in
  bind get_world (fun w =>
  bind (lift (_get_job_name (exp w) step)) (fun job_name =>
  let job_file := os_path_join job_dir [job_name] in
  bind (open_w job_file) (fun _ =>
  bind (_get_job X self step (number =? total)) (fun job =>
  bind (file_write job_file job) (fun _ =>
  let submit :=
    (["qsub"] ++
     match nonempty prev_job_name with
     | Some prev => ["-hold_jid"; prev]
     | None => []
     end ++ [job_name])%list in
  bind (tools_run_command submit job_dir) (fun _ =>
  bind (when (String.eqb (_funcname step) "run")
          (bind (open_w submitted_file) (fun _ =>
           file_write submitted_file submitted_text))) (fun _ =>
  ret (Some job_name)))))))).

(** [reaches X self pre step post w prev w_pre]: [run_steps] on the chain
    [pre ++ step :: post], started in [w], has submitted the steps of
    [pre] and stands before [step] in the world [w_pre], with [prev] the
    name of the job submitted last. *)
Definition reaches (X : Externals) (self : GridEnv) (pre : list Step) (step : Step)
    (post : list Step) (w : World) (prev : option string) (w_pre : World) : Prop :=
  run_steps_loop X self (length (pre ++ step :: post)) 1 pre None
    (set_calls (calls w ++ [Makedirs (exp_path (exp w))]) w) = (Ok prev, w_pre).

(** Sample chains for [foo]: three runs against a limit of two tasks, and
    a run step whose marker file exists while the user answers no. *)
Definition run_only : list Step := [mkStep "run" "run"].

Definition fresh_world : World := sample_world foo_exp ∅ [].

Definition marked_world : World :=
  sample_world foo_exp {[ "/exp/foo/submitted" := submitted_text ]} [false].

(** ** The aggregator, seen from its files *)

(** The store of the property file of a run directory. *)
Definition run_props (X : Externals) (fs : gmap string string) (run_dir : string)
    : Properties :=
  match fs !! os_path_join run_dir ["properties"] with
  | Some text => props_loads X text
  | None => []
  end.

Definition run_id_of (X : Externals) (fs : gmap string string) (run_dir : string)
    : option value :=
  props_get "id" (run_props X fs run_dir).

(** What the run directory [run_dir] adds to the combined store: the key
    made of its id and its store; or the exception that ends the
    aggregation at this directory. *)
Definition run_entry (X : Externals) (fs : gmap string string) (run_dir : string)
    : result (string * value) :=
  let run_id := run_id_of X fs run_dir in
  if negb (truthy run_id) && critical_exits X then Raise (SystemExit "aborting")
  else rbind (iter_strings run_id) (fun segments =>
         Ok (str_join "-" segments, VStore (run_props X fs run_dir))).

Fixpoint run_entries (X : Externals) (fs : gmap string string) (run_dirs : list string)
    : result (list (string * value)) :=
  match run_dirs with
  | [] => Ok []
  | d :: rest =>
      rbind (run_entry X fs d) (fun kv =>
      rbind (run_entries X fs rest) (fun kvs => Ok (kv :: kvs)))
  end.

(** Setting the entries [kvs] one after the other. *)
Definition props_update (kvs : list (string * value)) (p : Properties) : Properties :=
  fold_left (fun acc kv => props_set (fst kv) (snd kv) acc) kvs p.

(** The run directories in the order the aggregator visits them, and the
    file of the combined store. *)
Definition run_dirs_of (w : World) (exp_dir : string) : list string :=
  sorted (os_glob w (os_path_join exp_dir ["runs-*-*"; "*"])).

Definition combined_file (exp_dir : string) (eval_dir : option string) : string :=
  os_path_join (default_eval_dir exp_dir eval_dir) ["properties"].

(** The combined store that an earlier aggregation left at [path], empty
    when there is none. *)
Definition stored_props (X : Externals) (fs : gmap string string) (path : string)
    : Properties :=
  match fs !! path with
  | Some text => props_loads X text
  | None => []
  end.

(** The files after an aggregation, by what the run directories add. *)
Definition files_after_fetch (X : Externals) (w : World) (exp_dir : string)
    (eval_dir : option string) (write_combined_props : bool) : gmap string string :=
  match run_entries X (files w) (run_dirs_of w exp_dir) with
  | Ok kvs =>
      if write_combined_props then
        <[combined_file exp_dir eval_dir :=
            props_dumps X (props_update kvs
              (stored_props X (files w) (combined_file exp_dir eval_dir)))]> (files w)
      else files w
  | Raise _ => files w
  end.

(** Sample run directories: three runs with the ids (a,1), (a,2), (b,1)
    and the property [coverage], whose property files hold the texts
    [A1], [A2], [B1]; property texts are read through a table, and
    stores are written in a rendering that shows keys and values. *)
Definition sample_run_props (a b : string) : Properties :=
  [("id", VList [a; b]); ("coverage", VNum 1)].

Definition sample_combined : Properties :=
  [("a-1", VStore (sample_run_props "a" "1"));
   ("a-2", VStore (sample_run_props "a" "2"));
   ("b-1", VStore (sample_run_props "b" "1"))].

(** A rendering of stores, for the examples. *)
Fixpoint render_value (v : value) : string :=
  match v with
  | VStr s => s
  | VNum z => NilEmpty.string_of_int (Z.to_int z)
  | VList l => "(" +:+ str_join ", " l +:+ ")"
  | VStore d =>
      "{" +:+ str_join ", " (map (fun kv => fst kv +:+ ": " +:+ render_value (snd kv)) d) +:+ "}"
  end.

Definition sample_dumps (p : Properties) : string := render_value (VStore p).

Definition sample_loads (text : string) : Properties :=
  if String.eqb text "A1" then sample_run_props "a" "1"
  else if String.eqb text "A2" then sample_run_props "a" "2"
  else if String.eqb text "B1" then sample_run_props "b" "1"
  else if String.eqb text "NOID" then [("coverage", VNum 1)]
  else if String.eqb text (sample_dumps sample_combined) then sample_combined
  else [].

Definition fetch_externals (critical : bool) : Externals :=
  mkExternals critical true (fun _ e => e) (fun _ => "") (fun _ => "")
    sample_loads sample_dumps.

Definition sample_listing (pattern : string) : list string :=
  if String.eqb pattern "/exp/foo/runs-*-*/*"
  then ["/exp/foo/runs-00001-00100/00003";
        "/exp/foo/runs-00001-00100/00001";
        "/exp/foo/runs-00001-00100/00002"]
  else [].

Definition sample_tree (second : string) : gmap string string :=
  {[ "/exp/foo/runs-00001-00100/00001/properties" := "A1";
     "/exp/foo/runs-00001-00100/00002/properties" := second;
     "/exp/foo/runs-00001-00100/00003/properties" := "B1" ]}.

Definition fetch_world (fs : gmap string string) : World :=
  mkWorld foo_exp fs [] [] [] [] (fun n => n) 0 sample_listing
    ["exp.py"] "/usr/bin/python" "/home/user".

(** The combined store that an aggregation started in [w] persists, when
    it comes to persist one. *)
Definition combined_after (X : Externals) (w : World) (exp_dir : string)
    (eval_dir : option string) : option Properties :=
  match run_entries X (files w) (run_dirs_of w exp_dir) with
  | Ok kvs => Some (props_update kvs
                (stored_props X (files w) (combined_file exp_dir eval_dir)))
  | Raise _ => None
  end.


(** The key under which a run directory is merged. *)
Definition run_key (X : Externals) (fs : gmap string string) (run_dir : string)
    : result string :=
  rbind (iter_strings (run_id_of X fs run_dir)) (fun segments =>
    Ok (str_join "-" segments)).

(** The combined store with entries that hold the property [coverage]
    alone, and a tree whose property files hold nothing else either. *)
Definition coverage_only : Properties := [("coverage", VNum 1)].

Definition coverage_only_combined : Properties :=
  [("a-1", VStore coverage_only); ("a-2", VStore coverage_only);
   ("b-1", VStore coverage_only)].

Definition noid_tree : gmap string string :=
  {[ "/exp/foo/runs-00001-00100/00001/properties" := "NOID";
     "/exp/foo/runs-00001-00100/00002/properties" := "NOID";
     "/exp/foo/runs-00001-00100/00003/properties" := "NOID" ]}.

(** The sample chains and aggregations, run. *)
Definition over_capacity_run (critical : bool) : result unit * World :=
  run_steps (sample_externals critical true) (sample_env 1 (Some 2) true)
    run_only fresh_world.

Definition over_capacity_chain : result unit * World :=
  run_steps (sample_externals true true) (sample_env 1 (Some 2) true)
    foo_steps fresh_world.

Definition declined_chain (decline : bool) : result unit * World :=
  run_steps (sample_externals true decline) (sample_env 1 None true)
    foo_steps marked_world.

Definition sample_fetch (critical : bool) (fs : gmap string string)
    : result unit * World :=
  Fetcher_call (fetch_externals critical) "/exp/foo" None false true (fetch_world fs).

Definition capacity_text : string :=
  "You are trying to submit a job with 3 tasks, but only 2 are allowed.".

(* ===================================================================== *)
(** * [lab/environments.py]: constructors and the derived environments *)
(* ===================================================================== *)

(** [LocalEnvironment.__init__(processes)], with [cores] the value of
    [multiprocessing.cpu_count()]; the result is [self.processes]. *)
Definition LocalEnvironment_init (cores : Z) (processes : option Z) : result Z :=
  let processes := default cores processes in
  if ((1 <=? processes) && (processes <=? cores))%Z then Ok processes
  else Raise ValueError.

(** The class constants of a grid environment. *)
Record GridClass := mkGridClass {
  DEFAULT_QUEUE : string;
  CLASS_MAX_TASKS : option nat;
  DEFAULT_PRIORITY : Z;
  HOST_RESTRICTIONS : gmap string (list string);
  DEFAULT_HOST_RESTRICTION : string;
}.

(** The constructor of a grid environment also raises [KeyError], for a
    host restriction that the class does not know. *)
Inductive init_exn :=
| KeyError (key : string)
| InitError (e : exn).

(** [_get_host_spec(host_restriction)] *)
Definition _get_host_spec (cls : GridClass) (host_restriction : string)
    : init_exn + string :=
  if String.eqb host_restriction "" then inr "## (not used)"
  else
    match HOST_RESTRICTIONS cls !! host_restriction with
    | None => inl (KeyError host_restriction)
    | Some hosts =>
        inr ("#$ -l hostname=" +:+ dquote +:+ str_join "|" hosts +:+ dquote)
    end.

(** [OracleGridEngineEnvironment.__init__(queue, priority, host_restriction,
    email, randomize_task_order, extra_options)]; [None] stands for an
    argument left out. *)
Definition GridEnvironment_init (cls : GridClass) (queue : option string)
    (priority : option Z) (host_restriction : option string)
    (email : option string) (randomize_task_order : bool)
    (extra_options : option string) : init_exn + GridEnv :=
  let queue := default (DEFAULT_QUEUE cls) queue in
  let priority := default (DEFAULT_PRIORITY cls) priority in
  let host_restriction := default (DEFAULT_HOST_RESTRICTION cls) host_restriction in
  match _get_host_spec cls host_restriction with
  | inl e => inl e
  | inr host_spec =>
      if ((-1023 <=? priority) && (priority <=? 1024))%Z then
        inr {| queue := queue;
               host_spec := host_spec;
               priority := priority;
               runs_per_task := 1;
               email := email;
               randomize_task_order := randomize_task_order;
               extra_options := default "## (not used)" (nonempty extra_options);
               MAX_TASKS := CLASS_MAX_TASKS cls |}
      else inl (InitError AssertionError)
  end.

(** [_host_range(prefix, from_num, to_num)] *)
Definition _host_range (prefix : string) (from_num to_num : nat) : list string :=
  map (fun num => prefix +:+ fmt_0wd 2 num +:+ "*")
      (seq from_num (to_num + 1 - from_num)).

(** The classes [GkiGridEnvironment] and [MaiaEnvironment]. *)
Definition GkiGrid : GridClass :=
  {| DEFAULT_QUEUE := "opteron_core.q";
     CLASS_MAX_TASKS := Some (75 * 1000);
     DEFAULT_PRIORITY := 0;
     HOST_RESTRICTIONS := ∅;
     DEFAULT_HOST_RESTRICTION := "" |}.

Definition Maia : GridClass :=
  {| DEFAULT_QUEUE := dquote +:+ "all.q@ase*" +:+ dquote;
     CLASS_MAX_TASKS := None;
     DEFAULT_PRIORITY := 0;
     HOST_RESTRICTIONS :=
       {[ "maia-quad" := _host_range "uni" 1 32 ++ _host_range "ugi" 1 8;
          "maia-six" := _host_range "uni" 33 72 ]};
     DEFAULT_HOST_RESTRICTION := "" |}.

(** [needle in hay] for strings. *)
Fixpoint str_contains (needle hay : string) : bool :=
  String.prefix needle hay ||
  match hay with
  | "" => false
  | String _ rest => str_contains needle rest
  end.

Definition xeon_message : string :=
  "Experiments must be run stepwise on xeon, because mercurial is missing there.".

(** [GkiGridEnvironment.run_steps(steps)] *)
Definition Gki_run_steps (X : Externals) (self : GridEnv) (steps : list Step) : M unit :=
  bind (when (str_contains "xeon" (queue self)) (logging_critical X xeon_message))
    (fun _ => run_steps X self steps).

(* ===================================================================== *)
(** * Notions used to state further properties *)
(* ===================================================================== *)

(** [for x in names: l.remove(x)], as [_get_script_args] runs it. *)
Definition remove_each {A} `{EqDecision A} (names : list A) (start : result (list A))
    : result (list A) :=
  fold_left (fun acc x => rbind acc (list_remove x)) names start.

(** A command line with options before the names of the selected steps. *)
Definition args_world : World :=
  mkWorld (mkExperiment "foo" "/exp/foo" "/exp/foo-p" foo_steps [] ["build"; "run"])
    ∅ [] [] [] [] (fun n => n) 0 (fun _ => [])
    ["exp.py"; "--timeout"; "5"; "--all"; "build"; "run"] "" "/home/user".

(** [quiet w w']: from [w] to [w'] no file was written, no call left the
    process and nothing was asked; the experiment and the surroundings of
    the process are as they were.  Only the log may have grown and the
    random generator may have moved on. *)
Definition quiet (w w' : World) : Prop :=
  exp w' = exp w /\ files w' = files w /\ calls w' = calls w /\
  prompts w' = prompts w /\ replies w' = replies w /\
  os_glob w' = os_glob w /\ sys_argv w' = sys_argv w /\
  sys_executable w' = sys_executable w /\ os_cwd w' = os_cwd w /\
  random_draw w' = random_draw w /\
  log w `prefix_of` log w' /\ random_pos w <= random_pos w'.

Definition frame {A} (m : M A) : Prop := forall w, quiet w (snd (m w)).

(** The command that submits the job [job_name], held on [prev] when a job
    was submitted before it (as [run_steps] builds it). *)
Definition submit_argv (prev : option string) (job_name : string) : list string :=
  ["qsub"] ++
  match nonempty prev with
  | Some p => ["-hold_jid"; p]
  | None => []
  end ++ [job_name].

(** A chain of submissions in which every job but the first waits for the
    job before it. *)
Fixpoint hold_chain (prev : option string) (names : list string) : list (list string) :=
  match names with
  | [] => []
  | n :: rest =>
      (["qsub"] ++
       match prev with
       | Some p => ["-hold_jid"; p]
       | None => []
       end ++ [n]) :: hold_chain (Some n) rest
  end.

(** The commands handed to [tools.run_command], oldest first. *)
Definition run_commands (cs : list call) : list (list string) :=
  omap (fun c => match c with
                 | RunCommand argv _ => Some argv
                 | _ => None
                 end) cs.

(** [Experiment.build] adds runs: it keeps the name, the steps and the
    directories of the experiment. *)
Definition build_keeps_layout (X : Externals) : Prop :=
  forall stage e,
    exp_name (exp_build X stage e) = exp_name e /\
    exp_steps (exp_build X stage e) = exp_steps e /\
    exp_path (exp_build X stage e) = exp_path e /\
    preprocess_exp_path (exp_build X stage e) = preprocess_exp_path e.

(** The world after the job text [job] of [step] was written to the job
    file in [job_dir] and submitted, from the world [wj] in which the text
    was built. *)
Definition submitted_world (step : Step) (prev : option string)
    (job_dir job_name job : string) (wj : World) : World :=
  let w1 := set_files (<[os_path_join job_dir [job_name] := job]> (files wj)) wj in
  let w2 := set_calls (calls w1 ++ [RunCommand (submit_argv prev job_name) job_dir]) w1 in
  if is_run_step step
  then set_files (<[os_path_join job_dir ["submitted"] := submitted_text]> (files w2)) w2
  else w2.

(** The world in which the text of a job is built: its job file has just
    been opened for writing. *)
Definition job_file_opened (job_dir job_name : string) (w : World) : World :=
  set_files (<[os_path_join job_dir [job_name] := ""]> (files w)) w.

(** [asks_only w w']: from [w] to [w'] questions may have been put to the
    user and answers read; everything else is as it was. *)
Definition asks_only (w w' : World) : Prop :=
  exp w' = exp w /\ files w' = files w /\ calls w' = calls w /\
  log w' = log w /\ random_pos w' = random_pos w /\
  prompts w `prefix_of` prompts w'.

(** A first submission of [foo]: the chain of its three steps, run. *)
Definition foo_chain : result unit * World :=
  run_steps (sample_externals true true) (sample_env 1 None true) foo_steps fresh_world.

(** A Freiburg environment on the queue [xeon_core.q]. *)
Definition xeon_env : GridEnv :=
  mkGridEnv "xeon_core.q" "## (not used)" 0 1 None true "## (not used)" (Some (75 * 1000)).

(** An experiment whose list of steps lacks the step [report]. *)
Definition short_exp : Experiment :=
  mkExperiment "foo" "/exp/foo" "/exp/foo-p"
    [mkStep "build" "call"; mkStep "run" "run"] ["r1"; "r2"; "r3"] [].

(** ** The aggregator, seen from its calls *)

(** What [fetch_dir] with [copy_all] does for the run directory
    [run_dir]: it makes the directory named by the segments of the run's
    id under [eval_dir] and copies the run directory there. *)
Definition copy_of (X : Externals) (fs : gmap string string) (eval_dir run_dir : string)
    : list call :=
  match iter_strings (run_id_of X fs run_dir) with
  | Ok segments =>
      [Makedirs (os_path_join eval_dir segments);
       FastUpdatetree run_dir (os_path_join eval_dir segments)]
  | Raise _ => []
  end.

(** ** Further store formats and trees for the aggregator *)





(** A tree in which the second run directory repeats the id of the first
    with another value of [coverage]. *)
Definition rerun_props : Properties := [("id", VList ["a"; "1"]); ("coverage", VNum 2)].

Definition rerun_loads (text : string) : Properties :=
  if String.eqb text "A1-rerun" then rerun_props else sample_loads text.

Definition rerun_externals : Externals :=
  mkExternals true true (fun _ e => e) (fun _ => "") (fun _ => "")
    rerun_loads sample_dumps.

(* ===================================================================== *)
(** * The embedding on small inputs *)
(* ===================================================================== *)

Example get_job_prefix_plain : get_job_prefix "js-exp" = Ok "js-exp-".
Proof. reflexivity. Qed.

Example get_job_prefix_digit : get_job_prefix "2013-exp" = Ok "j2013-exp-".
Proof. reflexivity. Qed.

Example get_job_prefix_empty : get_job_prefix "" = Raise AssertionError.
Proof. reflexivity. Qed.

Example fmt_0wd_pads : (fmt_0wd 2 7, fmt_0wd 2 42, fmt_0wd 2 100) = ("07", "42", "100").
Proof. reflexivity. Qed.

Example fmt_wd_pads : fmt_wd 6 12 = "    12".
Proof. reflexivity. Qed.

Example os_path_join_cases :
  (os_path_join "/exp/foo" ["submitted"], os_path_join "/exp/foo/" ["submitted"],
   os_path_join "/exp/foo" ["a"; "/b"; "c"], os_path_join "" ["a"])
  = ("/exp/foo/submitted", "/exp/foo/submitted", "/b/c", "a").
Proof. reflexivity. Qed.

Example ceil_div_float_cases :
  (ceil_div_float 2001 1, ceil_div_float 2001 100, ceil_div_float 200 100,
   ceil_div_float 0 3, ceil_div_float 5 0)
  = (Ok 2001, Ok 21, Ok 2, Ok 0, Raise ZeroDivisionError).
Proof. vm_compute. reflexivity. Qed.

Example binary64_ceil_div_cases :
  (binary64_ceil_div 2001 1, binary64_ceil_div 2001 100, binary64_ceil_div 1 3,
   binary64_ceil_div 0 3)
  = (Some 2001, Some 21, Some 1, Some 0).
Proof. vm_compute. reflexivity. Qed.

Example binary64_agrees_on_samples : binary64_agrees 120 25 = true.
Proof. vm_compute. reflexivity. Qed.

Example sorted_paths :
  sorted ["runs-2/b"; "runs-1/z"; "runs-10/a"; "runs-1/a"]
  = ["runs-1/a"; "runs-1/z"; "runs-10/a"; "runs-2/b"].
Proof. vm_compute. reflexivity. Qed.

Example shuffle_three :
  shuffle (fun n => 7 * n + 3) 0 ["1"; "2"; "3"] = ["2"; "3"; "1"].
Proof. reflexivity. Qed.

Example get_script_args_drops_steps :
  fst (_get_script_args
         (mkWorld (mkExperiment "foo" "/exp/foo" "/exp/foo-p" foo_steps [] ["1"; "2"])
            ∅ [] [] [] [] (fun n => n) 0 (fun _ => [])
            ["exp.py"; "--timeout"; "5"; "--all"; "1"; "2"] "" ""))
  = Ok ["--timeout"; "5"].
Proof. vm_compute. reflexivity. Qed.

(* ===================================================================== *)
(** * Strings and decimal numerals *)
(* ===================================================================== *)

Section StringFacts.

Lemma append_nil_l (s : string) : "" +:+ s = s.
Proof. reflexivity. Qed.

Lemma append_cons (c : ascii) (s t : string) :
  String c s +:+ t = String c (s +:+ t).
Proof. reflexivity. Qed.

Lemma append_nil_r (s : string) : s +:+ "" = s.
Proof.
  induction s as [|c s IH]; [reflexivity|].
  now rewrite append_cons, IH.
Qed.

Lemma append_assoc (a b c : string) : (a +:+ b) +:+ c = a +:+ (b +:+ c).
Proof.
  induction a as [|x a IH]; [reflexivity|].
  now rewrite !append_cons, IH.
Qed.

Lemma append_length (a b : string) :
  String.length (a +:+ b) = String.length a + String.length b.
Proof.
  induction a as [|x a IH]; [reflexivity|].
  rewrite append_cons. simpl. now rewrite IH.
Qed.

Lemma append_inv_head (p a b : string) : p +:+ a = p +:+ b -> a = b.
Proof.
  induction p as [|x p IH]; [auto|].
  rewrite !append_cons. intros [= H]. auto.
Qed.

Lemma ascii_compare_refl (c : ascii) : Ascii.compare c c = Eq.
Proof. unfold Ascii.compare. apply N.compare_refl. Qed.

Lemma compare_append_head (p a b : string) :
  String.compare (p +:+ a) (p +:+ b) = String.compare a b.
Proof.
  induction p as [|x p IH]; [reflexivity|].
  rewrite !append_cons. simpl. now rewrite ascii_compare_refl.
Qed.

(** A strict comparison decided within two strings of the same length
    is not changed by what follows them. *)
Lemma compare_append_tail (a b s t : string) :
  String.length a = String.length b ->
  String.compare a b = Lt ->
  String.compare (a +:+ s) (b +:+ t) = Lt.
Proof.
  revert b. induction a as [|x a IH]; intros [|y b]; simpl; try discriminate.
  intros [= Hlen]. destruct (Ascii.compare x y); auto; discriminate.
Qed.

End StringFacts.


Lemma nat_of_str_of_nat (n : nat) : nat_of_str (str_of_nat n) = Some n.
Proof.
  unfold nat_of_str, str_of_nat. rewrite NilEmpty.usu. simpl.
  now rewrite Unsigned.of_to.
Qed.

Lemma nat_of_str_zeros (k : nat) (s : string) (n : nat) :
  nat_of_str s = Some n -> nat_of_str (str_repeat "0" k +:+ s) = Some n.
Proof.
  intros H. induction k as [|k IH]; simpl; [exact H|].
  rewrite append_cons. unfold nat_of_str in *. simpl.
  destruct (NilEmpty.uint_of_string (str_repeat "0" k +:+ s)) as [d|]; simpl in *;
    [|discriminate].
  exact IH.
Qed.

Lemma nat_of_str_fmt (w n : nat) : nat_of_str (fmt_0wd w n) = Some n.
Proof. apply nat_of_str_zeros, nat_of_str_of_nat. Qed.

Lemma fmt_0wd_inj (w a b : nat) : fmt_0wd w a = fmt_0wd w b -> a = b.
Proof.
  intros H. pose proof (nat_of_str_fmt w a) as Ha.
  rewrite H, nat_of_str_fmt in Ha. congruence.
Qed.

Lemma all_digits_fmt (w n : nat) : all_digits (fmt_0wd w n).
Proof.
  pose proof (nat_of_str_fmt w n) as H. unfold nat_of_str in H.
  destruct (NilEmpty.uint_of_string (fmt_0wd w n)) as [d|] eqn:E; [|discriminate].
  now exists d.
Qed.

Lemma all_digits_tail (c : ascii) (s : string) :
  all_digits (String c s) -> c <> "-"%char /\ all_digits s.
Proof.
  intros [d H]. simpl in H.
  destruct (NilEmpty.uint_of_string s) as [d'|] eqn:E.
  - split; [|now exists d'].
    intros ->. discriminate.
  - exfalso. unfold uint_of_char in H.
    destruct c as [[] [] [] [] [] [] [] []]; discriminate.
Qed.

(** Two numerals followed by a dash agree when the whole strings do. *)
Lemma digits_dash_inj (a b s t : string) :
  all_digits a -> all_digits b ->
  a +:+ String "-" s = b +:+ String "-" t -> a = b.
Proof.
  revert b. induction a as [|x a IH]; intros [|y b] Ha Hb;
    rewrite ?append_cons, ?append_nil_l; intros [= H].
  - reflexivity.
  - subst y. now apply all_digits_tail in Hb as [? _].
  - subst x. now apply all_digits_tail in Ha as [? _].
  - subst y. f_equal. apply IH; auto.
    + now apply all_digits_tail in Ha.
    + now apply all_digits_tail in Hb.
Qed.

(* ===================================================================== *)
(** * Job names *)
(* ===================================================================== *)

Lemma isdigit_digits (c : ascii) : isdigit c = bool_decide (c ∈ digits).
Proof. destruct c as [[] [] [] [] [] [] [] []]; vm_compute; reflexivity. Qed.

Lemma get_job_prefix_cons (c : ascii) (rest : string) :
  get_job_prefix (String c rest) =
  Ok ((if isdigit c then "j" else "") +:+ String c rest +:+ "-").
Proof.
  unfold get_job_prefix. cbn [str_join]. destruct (isdigit c); reflexivity.
Qed.

Lemma list_index_raise {A} `{EqDecision A} (x : A) (l : list A) (e : exn) :
  list_index x l = Raise e -> e = ValueError.
Proof.
  revert e. induction l as [|y l IH]; intros e; simpl.
  - now intros [= <-].
  - destruct (decide (y = x)); [discriminate|].
    destruct (list_index x l); simpl; [discriminate|].
    intros [= <-]. now apply IH.
Qed.

(** C9: the job prefix of a non-empty experiment name is the name followed
    by a dash, with the letter j put in front exactly when the name starts
    with a decimal digit; so neither the prefix nor a job name ever starts
    with a digit. *)
Theorem get_job_prefix_escapes_leading_digit (c : ascii) (rest : string) :
  get_job_prefix (String c rest) =
    Ok (if bool_decide (c ∈ digits)
        then String "j" (String c rest +:+ "-")
        else String c rest +:+ "-")
  /\ (forall path ppath steps runs args step,
        match _get_job_name (mkExperiment (String c rest) path ppath steps runs args) step with
        | Ok job_name =>
            exists c' s, job_name = String c' s /\ c' ∉ digits
        | Raise e => e = ValueError
        end).
Proof.
  assert (Hp : get_job_prefix (String c rest) =
    Ok (if bool_decide (c ∈ digits)
        then String "j" (String c rest +:+ "-")
        else String c rest +:+ "-")).
  { rewrite get_job_prefix_cons, isdigit_digits.
    destruct (bool_decide (c ∈ digits)); reflexivity. }
  split; [exact Hp|].
  intros path ppath steps runs args step. unfold _get_job_name.
  cbn [exp_name exp_steps]. rewrite Hp. cbn [rbind].
  destruct (list_index step steps) as [idx|e] eqn:Hidx; cbn [rbind].
  - destruct (bool_decide (c ∈ digits)) eqn:E.
    + exists "j"%char. eexists. split; [rewrite !append_cons; reflexivity|].
      intros H. apply list_elem_of_In in H. simpl in H.
      repeat (destruct H as [H|H]; [discriminate|]). exact H.
    + exists c. eexists. split; [rewrite !append_cons; reflexivity|].
      now apply bool_decide_eq_false in E.
  - now apply list_index_raise in Hidx.
Qed.

Lemma list_index_lookup {A} `{EqDecision A} (l : list A) (i : nat) (x : A) :
  NoDup l -> l !! i = Some x -> list_index x l = Ok i.
Proof.
  intros Hnd. revert i. induction Hnd as [|y l Hy Hnd IH]; intros i Hi.
  - discriminate.
  - destruct i as [|i]; simpl in *.
    + injection Hi as ->. now rewrite decide_True.
    + rewrite decide_False.
      * now rewrite (IH i Hi).
      * intros ->. apply Hy. eapply list_elem_of_lookup_2; eauto.
Qed.

(** The name of the step at position [i] (from 0) of the experiment. *)
Lemma get_job_name_at (e : Experiment) (prefix : string) (i : nat) (step : Step) :
  get_job_prefix (exp_name e) = Ok prefix ->
  NoDup (exp_steps e) ->
  exp_steps e !! i = Some step ->
  _get_job_name e step = Ok (prefix +:+ fmt_0wd 2 (i + 1) +:+ "-" +:+ name step).
Proof.
  intros Hp Hnd Hi. unfold _get_job_name. rewrite Hp. cbn [rbind].
  now rewrite (list_index_lookup _ _ _ Hnd Hi).
Qed.

Lemma fmt_two_digits_lt (a b : nat) :
  a < b -> b < 100 ->
  String.length (fmt_0wd 2 a) = String.length (fmt_0wd 2 b) /\
  String.compare (fmt_0wd 2 a) (fmt_0wd 2 b) = Lt.
Proof.
  intros Hab Hb.
  assert (Hc : two_digit_check = true) by (vm_compute; reflexivity).
  unfold two_digit_check in Hc.
  rewrite forallb_forall in Hc. specialize (Hc b).
  rewrite forallb_forall in Hc.
  assert (Hin : In b (seq 0 100)) by (apply in_seq; lia).
  specialize (Hc Hin a).
  assert (Hin' : In a (seq 0 b)) by (apply in_seq; lia).
  specialize (Hc Hin').
  apply andb_prop in Hc as [Hc Hlt]. apply andb_prop in Hc as [Hla Hlb].
  apply Nat.eqb_eq in Hla, Hlb. split; [congruence|].
  destruct (String.compare (fmt_0wd 2 a) (fmt_0wd 2 b)); congruence.
Qed.

Lemma job_names_distinct_nodup (e : Experiment) :
  exp_name e <> "" -> NoDup (exp_steps e) -> job_names_distinct e.
Proof.
  intros Hne Hnd i j si sj ni nj Hij Hi Hj Hni Hnj.
  destruct (exp_name e) as [|c rest] eqn:En; [congruence|].
  pose proof (get_job_prefix_cons c rest) as Hp. rewrite <- En in Hp.
  rewrite (get_job_name_at _ _ _ _ Hp Hnd Hi) in Hni.
  rewrite (get_job_name_at _ _ _ _ Hp Hnd Hj) in Hnj.
  injection Hni as <-. injection Hnj as <-. intros Heq.
  apply append_inv_head in Heq.
  apply digits_dash_inj in Heq; try apply all_digits_fmt.
  apply fmt_0wd_inj in Heq. lia.
Qed.

Lemma job_names_increasing_short (e : Experiment) :
  exp_name e <> "" -> NoDup (exp_steps e) -> length (exp_steps e) <= 99 ->
  job_names_increasing e.
Proof.
  intros Hne Hnd Hlen i j si sj ni nj Hij Hi Hj Hni Hnj.
  destruct (exp_name e) as [|c rest] eqn:En; [congruence|].
  pose proof (get_job_prefix_cons c rest) as Hp. rewrite <- En in Hp.
  rewrite (get_job_name_at _ _ _ _ Hp Hnd Hi) in Hni.
  rewrite (get_job_name_at _ _ _ _ Hp Hnd Hj) in Hnj.
  injection Hni as <-. injection Hnj as <-.
  apply lookup_lt_Some in Hj.
  destruct (fmt_two_digits_lt (i + 1) (j + 1)) as [Hl Hc]; [lia | lia |].
  unfold name_lt, String.ltb.
  rewrite compare_append_head.
  now rewrite (compare_append_tail _ _ _ _ Hl Hc).
Qed.

(** C8 (as amended): for an experiment with a non-empty name whose steps
    are pairwise distinct, the job name of the step at chain position i+1
    is the job prefix, the position written with at least two digits, a
    dash and the step name; the names of different steps differ; and, when
    the experiment has at most 99 steps, the names increase strictly in
    byte-wise lexicographic order along the chain. *)
Theorem job_names_unique_and_ordered (e : Experiment) :
  exp_name e <> "" ->
  NoDup (exp_steps e) ->
  (exists prefix, get_job_prefix (exp_name e) = Ok prefix /\
     forall i step, exp_steps e !! i = Some step ->
       _get_job_name e step =
         Ok (prefix +:+ fmt_0wd 2 (i + 1) +:+ "-" +:+ name step)) /\
  job_names_distinct e /\
  (length (exp_steps e) <= 99 -> job_names_increasing e).
Proof.
  intros Hne Hnd. split; [|split].
  - destruct (exp_name e) as [|c rest] eqn:En; [congruence|].
    eexists. split; [apply get_job_prefix_cons|].
    intros i step Hi. apply get_job_name_at; auto.
    rewrite En. apply get_job_prefix_cons.
  - now apply job_names_distinct_nodup.
  - now apply job_names_increasing_short.
Qed.

Lemma job_names_unique_and_ordered_witness :
  job_names foo_exp = [Ok "foo-01-build"; Ok "foo-02-run"; Ok "foo-03-report"] /\
  job_names_distinct foo_exp /\ job_names_increasing foo_exp.
Proof.
  assert (Hne : exp_name foo_exp <> "") by discriminate.
  assert (Hnd : NoDup (exp_steps foo_exp)).
  { apply (bool_decide_unpack _). vm_compute. exact I. }
  destruct (job_names_unique_and_ordered foo_exp Hne Hnd) as (_ & Hd & Hi).
  split; [reflexivity|]. split; [exact Hd|].
  apply Hi. simpl. lia.
Defined.

(** C8 (as stated) fails once a chain has a hundred steps: the name of the
    step at position 100 sorts before the name at position 99. *)
Lemma job_names_not_increasing_at_100 :
  exp_name hundred_exp <> "" /\ NoDup (exp_steps hundred_exp) /\
  ~ job_names_increasing hundred_exp.
Proof.
  split; [discriminate|]. split.
  { apply (bool_decide_unpack _). vm_compute. exact I. }
  intros H.
  specialize (H 98 99 (mkStep "99" "call") (mkStep "100" "call")
                "foo-99-99" "foo-100-100").
  assert (Hlt : name_lt "foo-99-99" "foo-100-100").
  { apply H; [lia | reflexivity | reflexivity | | ]; vm_compute; reflexivity. }
  vm_compute in Hlt. discriminate.
Qed.

(* ===================================================================== *)
(** * Task counts *)
(* ===================================================================== *)

Lemma Qceiling_div_nat (n d : nat) :
  d <> 0 ->
  Qceiling (inject_Z (Z.of_nat n) / inject_Z (Z.of_nat d)) =
  (- ((- Z.of_nat n) / Z.of_nat d))%Z.
Proof.
  intros Hd. unfold Qceiling. f_equal.
  rewrite Zdiv_Qdiv. apply Qfloor_comp.
  rewrite inject_Z_opp. unfold Qdiv. ring.
Qed.

Lemma ceil_div_float_spec (n d : nat) :
  d <> 0 -> exists k, ceil_div_float n d = Ok k /\ is_ceiling n d k.
Proof.
  intros Hd. unfold ceil_div_float.
  destruct (Nat.eqb_spec d 0) as [|_]; [contradiction|].
  eexists. split; [reflexivity|].
  rewrite Qceiling_div_nat by assumption.
  set (q := (- ((- Z.of_nat n) / Z.of_nat d))%Z).
  assert (Hdz : (0 < Z.of_nat d)%Z) by lia.
  pose proof (Z.mul_div_le (- Z.of_nat n) (Z.of_nat d) Hdz) as H1.
  pose proof (Z.mul_succ_div_gt (- Z.of_nat n) (Z.of_nat d) Hdz) as H2.
  assert (Hq0 : (0 <= q)%Z) by (unfold q; nia).
  split.
  - apply Nat2Z.inj_le. rewrite Nat2Z.inj_mul, Z2Nat.id by assumption. unfold q. nia.
  - intros j Hj. apply Nat2Z.inj_le. rewrite Z2Nat.id by assumption.
    apply Nat2Z.inj_le in Hj. rewrite Nat2Z.inj_mul in Hj. unfold q. nia.
Qed.

Lemma is_ceiling_unique (n d k k' : nat) :
  is_ceiling n d k -> is_ceiling n d k' -> k = k'.
Proof.
  intros [H1 H2] [H1' H2']. apply Nat.le_antisymm; auto.
Qed.

Lemma ceil_div_float_ceiling (n d k : nat) :
  d <> 0 -> is_ceiling n d k -> ceil_div_float n d = Ok k.
Proof.
  intros Hd Hk. destruct (ceil_div_float_spec n d Hd) as (k' & -> & Hk').
  f_equal. eapply is_ceiling_unique; eauto.
Qed.

(** Unfolding of the monad of effects. *)
Ltac run_m :=
  unfold bind, ret, lift, raise, get_world, modify, when in *; cbn in *.

(** What [_get_num_runs] does, by capacity and by logging handler. *)
Lemma get_num_runs_within (X : Externals) (self : GridEnv) (w : World) (k : nat) :
  runs_per_task self <> 0 ->
  is_ceiling (length (exp_runs (exp w))) (runs_per_task self) k ->
  exceeds k (MAX_TASKS self) = false ->
  _get_num_runs X self w = (Ok k, w).
Proof.
  intros Hd Hk Hex. unfold _get_num_runs. run_m.
  rewrite (ceil_div_float_ceiling _ _ _ Hd Hk), Hex. reflexivity.
Qed.

Lemma get_num_runs_beyond (X : Externals) (self : GridEnv) (w : World) (k : nat) :
  runs_per_task self <> 0 ->
  is_ceiling (length (exp_runs (exp w))) (runs_per_task self) k ->
  exceeds k (MAX_TASKS self) = true ->
  _get_num_runs X self w =
    (if critical_exits X then Raise (SystemExit "aborting") else Ok k,
     set_log (log w ++ [(CRITICAL, capacity_message k (MAX_TASKS self))]) w).
Proof.
  intros Hd Hk Hex. unfold _get_num_runs, logging_critical. run_m.
  rewrite (ceil_div_float_ceiling _ _ _ Hd Hk), Hex. cbn.
  destruct (critical_exits X); reflexivity.
Qed.

(** C7: a step that is not a run step has one task; a run step has as many
    as the ceiling of the number of runs over [runs_per_task] (the least k
    with run_count <= k * runs_per_task): that number is returned when it
    is within [MAX_TASKS] or the logging handler does not abort, and it is
    the number named in the capacity error otherwise. *)
Theorem num_tasks_is_ceiling (X : Externals) (self : GridEnv) (step : Step) (w : World) :
  (is_run_step step = false -> _get_num_tasks X self step w = (Ok 1, w)) /\
  (is_run_step step = true -> runs_per_task self <> 0 ->
   exists k,
     is_ceiling (length (exp_runs (exp w))) (runs_per_task self) k /\
     (exceeds k (MAX_TASKS self) = false ->
        _get_num_tasks X self step w = (Ok k, w)) /\
     (exceeds k (MAX_TASKS self) = true ->
        _get_num_tasks X self step w =
          (if critical_exits X then Raise (SystemExit "aborting") else Ok k,
           set_log (log w ++ [(CRITICAL, capacity_message k (MAX_TASKS self))]) w))).
Proof.
  unfold _get_num_tasks, is_run_step. split.
  - intros ->. reflexivity.
  - intros -> Hd.
    destruct (ceil_div_float_spec (length (exp_runs (exp w))) (runs_per_task self) Hd)
      as (k & _ & Hk).
    exists k. split; [exact Hk|]. split; intros Hex.
    + now apply get_num_runs_within.
    + now apply get_num_runs_beyond.
Qed.

Lemma num_tasks_is_ceiling_witness :
  fst (_get_num_tasks (sample_externals true true) (sample_env 1 None true)
         (mkStep "run" "run") (sample_world big_exp ∅ [])) = Ok 2001 /\
  fst (_get_num_tasks (sample_externals true true) (sample_env 100 None true)
         (mkStep "run" "run") (sample_world big_exp ∅ [])) = Ok 21 /\
  fst (_get_num_tasks (sample_externals true true) (sample_env 100 None true)
         (mkStep "report" "call") (sample_world big_exp ∅ [])) = Ok 1.
Proof.
  assert (Hlen : length (exp_runs (exp (sample_world big_exp ∅ []))) = 2001)
    by (vm_compute; reflexivity).
  split; [|split].
  - destruct (num_tasks_is_ceiling (sample_externals true true) (sample_env 1 None true)
                (mkStep "run" "run") (sample_world big_exp ∅ [])) as [_ H].
    destruct (H eq_refl) as (k & [Hk1 Hk2] & Hin & _); [discriminate|].
    rewrite (Hin eq_refl). rewrite Hlen in Hk1, Hk2. cbn [fst]. f_equal.
    specialize (Hk2 2001). cbn [runs_per_task sample_env] in Hk1, Hk2. lia.
  - destruct (num_tasks_is_ceiling (sample_externals true true) (sample_env 100 None true)
                (mkStep "run" "run") (sample_world big_exp ∅ [])) as [_ H].
    destruct (H eq_refl) as (k & [Hk1 Hk2] & Hin & _); [discriminate|].
    rewrite (Hin eq_refl). rewrite Hlen in Hk1, Hk2. cbn [fst]. f_equal.
    specialize (Hk2 21). cbn [runs_per_task sample_env] in Hk1, Hk2. lia.
  - destruct (num_tasks_is_ceiling (sample_externals true true) (sample_env 100 None true)
                (mkStep "report" "call") (sample_world big_exp ∅ [])) as [H _].
    now rewrite (H eq_refl).
Defined.

(* ===================================================================== *)
(** * Task order *)
(* ===================================================================== *)

Section Shuffle.

Context {A : Type}.
Implicit Types x : list A.

Lemma swap_Permutation x (i j : nat) : swap x i j ≡ₚ x.
Proof.
  unfold swap.
  destruct (x !! i) as [xi|] eqn:Hi; [|reflexivity].
  destruct (x !! j) as [xj|] eqn:Hj; [|reflexivity].
  now apply Permutation_insert_swap.
Qed.

Lemma shuffle_down_Permutation (draw : nat -> nat) (pos i : nat) x :
  shuffle_down draw pos i x ≡ₚ x.
Proof.
  revert pos x. induction i as [|i IH]; intros pos x; simpl; [reflexivity|].
  rewrite IH. apply swap_Permutation.
Qed.

Lemma shuffle_Permutation (draw : nat -> nat) (pos : nat) x :
  shuffle draw pos x ≡ₚ x.
Proof. apply shuffle_down_Permutation. Qed.

End Shuffle.

(** Numerals are words: not empty and without a space. *)
Lemma all_digits_no_space (s : string) : all_digits s -> no_space s.
Proof.
  induction s as [|c s IH]; intros Hs; simpl; [exact I|].
  destruct Hs as [d H]. simpl in H.
  destruct (NilEmpty.uint_of_string s) as [d'|] eqn:E.
  - split; [|apply IH; now exists d'].
    intros ->. discriminate.
  - exfalso. unfold uint_of_char in H.
    destruct c as [[] [] [] [] [] [] [] []]; discriminate.
Qed.

Lemma str_of_nat_digits (n : nat) : all_digits (str_of_nat n).
Proof. exists (Nat.to_uint n). apply NilEmpty.usu. Qed.

Lemma str_of_nat_nonempty (n : nat) : str_of_nat n <> "".
Proof.
  unfold str_of_nat. intros H.
  assert (Hn : Nat.to_uint n = Decimal.Nil).
  { destruct (Nat.to_uint n); simpl in H; try discriminate. reflexivity. }
  pose proof (Unsigned.to_of (Nat.to_uint n)) as Hu.
  rewrite Unsigned.of_to, Hn in Hu.
  exact (unorm_nonnil Decimal.Nil (eq_sym Hu)).
Qed.

Lemma words_word (u : string) :
  u <> "" -> no_space u -> words u = [u].
Proof.
  induction u as [|c u IH]; intros Hne Hns; [congruence|].
  destruct Hns as [Hc Hu]. cbn [words].
  destruct (Ascii.eqb_spec c " ") as [|_]; [contradiction|].
  destruct u as [|c' u']; [reflexivity|].
  destruct Hu as [Hc' Hu'].
  destruct (Ascii.eqb_spec c' " ") as [|_]; [contradiction|].
  rewrite IH; [reflexivity | discriminate | now split].
Qed.

Lemma words_word_space (u rest : string) :
  u <> "" -> no_space u ->
  words (u +:+ String " " rest) = u :: words rest.
Proof.
  induction u as [|c u IH]; intros Hne Hns; [congruence|].
  destruct Hns as [Hc Hu]. rewrite append_cons. cbn [words].
  destruct (Ascii.eqb_spec c " ") as [|_]; [contradiction|].
  destruct u as [|c' u'].
  - rewrite append_nil_l. cbn [words Ascii.eqb]. reflexivity.
  - rewrite append_cons.
    destruct Hu as [Hc' Hu'].
    destruct (Ascii.eqb_spec c' " ") as [|_]; [contradiction|].
    rewrite <- append_cons, IH; [reflexivity | discriminate | now split].
Qed.

Lemma words_join (l : list string) :
  Forall (fun u => u <> "" /\ no_space u) l ->
  words (str_join " " l) = l.
Proof.
  induction 1 as [|u l [Hne Hns] Hl IH]; [reflexivity|].
  destruct l as [|v l'].
  - now apply words_word.
  - change (str_join " " (u :: v :: l')) with (u +:+ " " +:+ str_join " " (v :: l')).
    change (" " +:+ str_join " " (v :: l')) with (String " " (str_join " " (v :: l'))).
    rewrite words_word_space by assumption. now rewrite IH.
Qed.

Lemma run_id_list (k : nat) :
  map (fun i => str_of_nat (i + 1)) (seq 0 k) = map str_of_nat (seq 1 k).
Proof.
  rewrite <- seq_shift, map_map. apply map_ext. intros i. f_equal. lia.
Qed.

Lemma body_params_within (X : Externals) (self : GridEnv) (w : World) (k : nat) :
  runs_per_task self <> 0 ->
  is_ceiling (length (exp_runs (exp w))) (runs_per_task self) k ->
  exceeds k (MAX_TASKS self) = false ->
  body_params X self w =
    if randomize_task_order self then
      (Ok {| bp_num_tasks := k;
             bp_run_ids := str_join " " (shuffle (random_draw w) (random_pos w)
                                           (map str_of_nat (seq 1 k))) |},
       set_random_pos (random_pos w + (k - 1)) w)
    else (Ok {| bp_num_tasks := k; bp_run_ids := "" |}, w).
Proof.
  intros Hd Hk Hex. unfold body_params.
  unfold bind at 1. rewrite (get_num_runs_within X self w k Hd Hk Hex).
  destruct (randomize_task_order self); [|reflexivity].
  unfold random_shuffle. run_m.
  rewrite run_id_list, length_map, length_seq. reflexivity.
Qed.

(** C3 (as amended): for a run step within capacity, the task-array body
    is the body template filled with the task count and a run-id list;
    with [randomize_task_order] the words of that list are a permutation of
    the numerals 1 .. task count, whatever the random generator draws, and
    without it the list is empty. *)
Theorem run_ids_permutation_or_empty (X : Externals) (self : GridEnv) (w : World) (k : nat) :
  runs_per_task self <> 0 ->
  is_ceiling (length (exp_runs (exp w))) (runs_per_task self) k ->
  exceeds k (MAX_TASKS self) = false ->
  exists params,
    fst (body_params X self w) = Ok params /\
    fst (_get_main_job_body X self w) = Ok (body_template X params) /\
    bp_num_tasks params = k /\
    if randomize_task_order self
    then words (bp_run_ids params) ≡ₚ map str_of_nat (seq 1 k)
    else bp_run_ids params = "".
Proof.
  intros Hd Hk Hex.
  pose proof (body_params_within X self w k Hd Hk Hex) as Hb.
  unfold _get_main_job_body, bind, ret.
  destruct (randomize_task_order self); rewrite Hb; cbn [fst];
    eexists; (split; [reflexivity|]); (split; [reflexivity|]);
    (split; [reflexivity|]); cbn [bp_run_ids]; [|reflexivity].
  rewrite words_join.
  - apply shuffle_Permutation.
  - eapply Forall_forall. intros u Hu.
    apply list_elem_of_In in Hu.
    rewrite shuffle_Permutation in Hu.
    apply in_map_iff in Hu as (n & <- & _).
    split; [apply str_of_nat_nonempty|].
    apply all_digits_no_space, str_of_nat_digits.
Qed.

Lemma run_ids_permutation_or_empty_witness :
  exists params,
    fst (body_params (sample_externals true true) (sample_env 1 None true)
           (sample_world foo_exp ∅ [])) = Ok params /\
    words (bp_run_ids params) ≡ₚ ["1"; "2"; "3"].
Proof.
  destruct (run_ids_permutation_or_empty (sample_externals true true)
              (sample_env 1 None true) (sample_world foo_exp ∅ []) 3)
    as (params & Hp & _ & _ & Hperm).
  - discriminate.
  - split; [simpl; lia|]. intros j Hj. simpl in Hj. lia.
  - reflexivity.
  - exists params. split; [exact Hp | exact Hperm].
Defined.

(** C3 (as stated) fails: for the same three runs the body carries the
    run ids 2 3 1 with randomization and no run id at all without it. *)
Lemma run_ids_differ_without_randomization :
  exists pt pf,
    fst (body_params (sample_externals true true) (sample_env 1 None true)
           (sample_world foo_exp ∅ [])) = Ok pt /\
    fst (body_params (sample_externals true true) (sample_env 1 None false)
           (sample_world foo_exp ∅ [])) = Ok pf /\
    words (bp_run_ids pt) = ["2"; "3"; "1"] /\
    words (bp_run_ids pf) = [] /\
    ~ (words (bp_run_ids pt) ≡ₚ words (bp_run_ids pf)).
Proof.
  eexists. eexists.
  split; [vm_compute; reflexivity|].
  split; [vm_compute; reflexivity|].
  split; [vm_compute; reflexivity|].
  split; [vm_compute; reflexivity|].
  intros H. apply Permutation_length in H. vm_compute in H. discriminate.
Qed.

(* ===================================================================== *)
(** * The job chain *)
(* ===================================================================== *)

Section Effects.

Context {A B : Type}.

Lemma bind_ok (m : M A) (k : A -> M B) (w w' : World) (a : A) :
  m w = (Ok a, w') -> bind m k w = k a w'.
Proof. unfold bind. now intros ->. Qed.

Lemma bind_raise (m : M A) (k : A -> M B) (w w' : World) (e : exn) :
  m w = (Raise e, w') -> bind m k w = (Raise e, w').
Proof. unfold bind. now intros ->. Qed.

End Effects.

Lemma after_build_files X step w : files (after_build X step w) = files w.
Proof.
  unfold after_build.
  destruct (String.eqb (name step) "run-preprocess-exp");
    destruct (String.eqb (name step) "run-search-exp"); reflexivity.
Qed.

Lemma after_build_jobs X step w :
  submitted_jobs (calls (after_build X step w)) = submitted_jobs (calls w).
Proof.
  unfold after_build.
  destruct (String.eqb (name step) "run-preprocess-exp");
    destruct (String.eqb (name step) "run-search-exp"); cbn;
    rewrite ?omap_app; cbn; rewrite ?app_nil_r; reflexivity.
Qed.

Lemma after_build_log X step w : log (after_build X step w) = log w.
Proof.
  unfold after_build.
  destruct (String.eqb (name step) "run-preprocess-exp");
    destruct (String.eqb (name step) "run-search-exp"); reflexivity.
Qed.

Lemma after_build_terminal X step w :
  prompts (after_build X step w) = prompts w /\
  replies (after_build X step w) = replies w.
Proof.
  unfold after_build.
  destruct (String.eqb (name step) "run-preprocess-exp");
    destruct (String.eqb (name step) "run-search-exp"); split; reflexivity.
Qed.

Lemma run_step_eq X self total number step prev w :
  run_step X self total number step prev w =
  bind (submission_guard X step (job_dir_of X step w))
    (fun _ => write_and_submit X self total number step prev (job_dir_of X step w))
    (after_build X step w).
Proof.
  unfold run_step, job_dir_of, after_build, build, tools_makedirs, do_call.
  destruct (String.eqb (name step) "run-preprocess-exp");
    destruct (String.eqb (name step) "run-search-exp"); reflexivity.
Qed.

Local Arguments os_path_join : simpl never.
Local Arguments _get_num_runs : simpl never.

(** The submission guard, case by case. *)
Lemma guard_not_run X step job_dir w :
  is_run_step step = false -> submission_guard X step job_dir w = (Ok tt, w).
Proof. unfold submission_guard, is_run_step. now intros ->. Qed.

Lemma guard_absent X step job_dir w :
  files w !! os_path_join job_dir ["submitted"] = None ->
  submission_guard X step job_dir w = (Ok tt, w).
Proof.
  intros Hnone. unfold submission_guard, os_path_exists.
  destruct (String.eqb (_funcname step) "run"); [|reflexivity].
  run_m. rewrite Hnone. reflexivity.
Qed.

Lemma guard_answered X step job_dir w (answer : bool) rest :
  is_run_step step = true ->
  is_Some (files w !! os_path_join job_dir ["submitted"]) ->
  replies w = answer :: rest ->
  submission_guard X step job_dir w =
    (if answer || negb (decline_exits X) then Ok tt else Raise (SystemExit "Aborted"),
     set_terminal (prompts w ++ [submitted_question (os_path_join job_dir ["submitted"])])
       rest w).
Proof.
  unfold is_run_step. intros Hrun Hsome Hrep.
  unfold submission_guard, os_path_exists, confirm_or_abort. rewrite Hrun.
  run_m. rewrite (bool_decide_eq_true_2 _ Hsome). cbn. rewrite Hrep. cbn.
  destruct answer; [reflexivity|]. destruct (decline_exits X); reflexivity.
Qed.

(** Building the job of a run step beyond capacity, under the aborting
    logging handler: the capacity error is logged while the header is
    filled in, and nothing else happens. *)
Lemma get_job_over_capacity X self step is_last w k job_name :
  is_run_step step = true ->
  critical_exits X = true ->
  runs_per_task self <> 0 ->
  is_ceiling (length (exp_runs (exp w))) (runs_per_task self) k ->
  exceeds k (MAX_TASKS self) = true ->
  _get_job_name (exp w) step = Ok job_name ->
  _get_job X self step is_last w =
    (Raise (SystemExit "aborting"),
     set_log (log w ++ [(CRITICAL, capacity_message k (MAX_TASKS self))]) w).
Proof.
  unfold is_run_step. intros Hrun Hcrit Hd Hk Hex Hjn.
  unfold _get_job, _get_job_header, _get_job_params, _get_num_tasks.
  rewrite Hrun. run_m. rewrite Hjn. cbn.
  rewrite (get_num_runs_beyond X self w k Hd Hk Hex), Hcrit. reflexivity.
Qed.

Lemma write_and_submit_over_capacity X self total number step prev job_dir w k job_name :
  is_run_step step = true ->
  critical_exits X = true ->
  runs_per_task self <> 0 ->
  is_ceiling (length (exp_runs (exp w))) (runs_per_task self) k ->
  exceeds k (MAX_TASKS self) = true ->
  _get_job_name (exp w) step = Ok job_name ->
  write_and_submit X self total number step prev job_dir w =
    (Raise (SystemExit "aborting"),
     set_log (log w ++ [(CRITICAL, capacity_message k (MAX_TASKS self))])
       (set_files (<[os_path_join job_dir [job_name] := ""]> (files w)) w)).
Proof.
  intros Hrun Hcrit Hd Hk Hex Hjn. unfold write_and_submit.
  rewrite (bind_ok _ _ w w w) by reflexivity.
  rewrite (bind_ok _ _ w w job_name) by (unfold lift; now rewrite Hjn).
  rewrite (bind_ok (open_w _) _ w
             (set_files (<[os_path_join job_dir [job_name] := ""]> (files w)) w) tt)
    by reflexivity.
  set (w1 := set_files _ w).
  pose proof (get_job_over_capacity X self step (number =? total) w1 k job_name
                Hrun Hcrit Hd Hk Hex Hjn) as Hjob.
  now rewrite (bind_raise _ _ _ _ _ Hjob).
Qed.

(** The loop of [run_steps]: it stops at the first step that raises, and
    a chain is run part after part. *)
Lemma run_steps_loop_raise X self total number step rest prev w e w' :
  run_step X self total number step prev w = (Raise e, w') ->
  run_steps_loop X self total number (step :: rest) prev w = (Raise e, w').
Proof. intros H. cbn [run_steps_loop]. now rewrite (bind_raise _ _ _ _ _ H). Qed.

Lemma run_steps_loop_app X self total number pre rest prev w :
  run_steps_loop X self total number (pre ++ rest) prev w =
  match run_steps_loop X self total number pre prev w with
  | (Ok p, w') => run_steps_loop X self total (number + length pre) rest p w'
  | (Raise e, w') => (Raise e, w')
  end.
Proof.
  revert number prev w. induction pre as [|s pre IH]; intros number prev w.
  - cbn. now rewrite Nat.add_0_r.
  - cbn [app run_steps_loop length]. unfold bind.
    destruct (run_step X self total number s prev w) as [[p|e] w']; [|reflexivity].
    rewrite IH. now replace (number + S (length pre)) with (S number + length pre) by lia.
Qed.

Lemma run_steps_stops X self pre step post w prev w_pre e w' :
  reaches X self pre step post w prev w_pre ->
  run_step X self (length (pre ++ step :: post)) (1 + length pre) step prev w_pre
    = (Raise e, w') ->
  run_steps X self (pre ++ step :: post) w = (Raise e, w').
Proof.
  unfold reaches, run_steps, tools_makedirs, do_call. intros Hpre Hstep.
  rewrite (bind_ok _ _ w w w) by reflexivity.
  erewrite (bind_ok (modify _)) by reflexivity.
  erewrite bind_raise; [reflexivity|].
  rewrite run_steps_loop_app, Hpre.
  now apply run_steps_loop_raise.
Qed.

Lemma run_step_over_capacity X self total number step prev w k job_name :
  is_run_step step = true ->
  critical_exits X = true ->
  runs_per_task self <> 0 ->
  is_ceiling (length (exp_runs (exp (after_build X step w)))) (runs_per_task self) k ->
  exceeds k (MAX_TASKS self) = true ->
  (files w !! marker_of X step w = None \/ exists rest, replies w = true :: rest) ->
  _get_job_name (exp (after_build X step w)) step = Ok job_name ->
  exists w',
    run_step X self total number step prev w = (Raise (SystemExit "aborting"), w') /\
    files w' = <[os_path_join (job_dir_of X step w) [job_name] := ""]> (files w) /\
    submitted_jobs (calls w') = submitted_jobs (calls w) /\
    log w' = (log w ++ [(CRITICAL, capacity_message k (MAX_TASKS self))])%list.
Proof.
  intros Hrun Hcrit Hd Hk Hex Hguard Hjn. rewrite run_step_eq.
  set (wb := after_build X step w) in *.
  set (jd := job_dir_of X step w).
  assert (Hg : exists wg, submission_guard X step jd wb = (Ok tt, wg) /\
                 exp wg = exp wb /\ files wg = files wb /\
                 calls wg = calls wb /\ log wg = log wb).
  { destruct (files wb !! os_path_join jd ["submitted"]) as [txt|] eqn:Hm.
    - destruct Hguard as [Hnone | [rest Hrep]].
      + unfold marker_of in Hnone. fold jd in Hnone.
        unfold wb in Hm. rewrite after_build_files in Hm. congruence.
      + eexists. split.
        * apply (guard_answered X step jd wb true rest Hrun); [now rewrite Hm|].
          unfold wb. now rewrite (proj2 (after_build_terminal X step w)).
        * repeat split.
    - exists wb. split; [now apply guard_absent | repeat split]. }
  destruct Hg as (wg & Hg & Hexp & Hfiles & Hcalls & Hlog).
  rewrite (bind_ok _ _ _ _ _ Hg).
  rewrite <- Hexp in Hk, Hjn.
  rewrite (write_and_submit_over_capacity X self total number step prev jd wg k job_name
             Hrun Hcrit Hd Hk Hex Hjn).
  eexists. split; [reflexivity|]. cbn.
  rewrite Hfiles, Hcalls, Hlog. unfold wb.
  now rewrite after_build_files, after_build_jobs, after_build_log.
Qed.

(** C1 (as amended): when the chain reaches a run step whose task count
    exceeds [MAX_TASKS] (and the submission guard lets it pass), the
    capacity error naming the task count and the limit is logged and, under
    the aborting logging handler, [run_steps] ends there with [SystemExit]:
    the step's job file has been created and is empty, and no job is
    submitted for this step or for a later one. *)
Theorem over_capacity_ends_chain X self pre step post w prev w_pre k job_name :
  reaches X self pre step post w prev w_pre ->
  is_run_step step = true ->
  critical_exits X = true ->
  runs_per_task self <> 0 ->
  is_ceiling (length (exp_runs (exp (after_build X step w_pre)))) (runs_per_task self) k ->
  exceeds k (MAX_TASKS self) = true ->
  (files w_pre !! marker_of X step w_pre = None \/
   exists rest, replies w_pre = true :: rest) ->
  _get_job_name (exp (after_build X step w_pre)) step = Ok job_name ->
  exists w',
    run_steps X self (pre ++ step :: post) w = (Raise (SystemExit "aborting"), w') /\
    files w' = <[os_path_join (job_dir_of X step w_pre) [job_name] := ""]> (files w_pre) /\
    submitted_jobs (calls w') = submitted_jobs (calls w_pre) /\
    log w' = (log w_pre ++ [(CRITICAL, capacity_message k (MAX_TASKS self))])%list.
Proof.
  intros Hpre Hrun Hcrit Hd Hk Hex Hguard Hjn.
  destruct (run_step_over_capacity X self (length (pre ++ step :: post)) (1 + length pre)
              step prev w_pre k job_name Hrun Hcrit Hd Hk Hex Hguard Hjn)
    as (w' & Hstep & Hfacts).
  exists w'. split; [|exact Hfacts].
  eapply run_steps_stops; eauto.
Qed.

Lemma over_capacity_ends_chain_witness :
  fst over_capacity_chain = Raise (SystemExit "aborting") /\
  files (snd over_capacity_chain) !! "/exp/foo/foo-02-run" = Some "" /\
  submitted_jobs (calls (snd over_capacity_chain)) = ["foo-01-build"] /\
  last (log (snd over_capacity_chain)) = Some (CRITICAL, capacity_text).
Proof.
  set (X := sample_externals true true).
  set (self := sample_env 1 (Some 2) true).
  set (pre := [mkStep "build" "call"]).
  set (w_pre := snd (run_steps_loop X self 3 1 pre None
                       (set_calls (calls fresh_world ++ [Makedirs "/exp/foo"]) fresh_world))).
  destruct (over_capacity_ends_chain X self pre (mkStep "run" "run") [mkStep "report" "call"]
              fresh_world (Some "foo-01-build") w_pre 3 "foo-02-run")
    as (w' & Hrun & Hfiles & Hjobs & Hlog).
  - vm_compute. reflexivity.
  - reflexivity.
  - reflexivity.
  - discriminate.
  - assert (Hlen : length (exp_runs (exp (after_build X (mkStep "run" "run") w_pre))) = 3)
      by (vm_compute; reflexivity).
    unfold is_ceiling. rewrite Hlen. change (runs_per_task self) with 1.
    split; [lia | intros j Hj; lia].
  - reflexivity.
  - left. vm_compute. reflexivity.
  - vm_compute. reflexivity.
  - unfold over_capacity_chain.
    change foo_steps with (pre ++ mkStep "run" "run" :: [mkStep "report" "call"]).
    fold X self. rewrite Hrun. cbn [fst snd]. rewrite Hfiles, Hjobs, Hlog.
    repeat split; vm_compute; reflexivity.
Defined.

(** C1 (as stated) fails: with three runs and a limit of two tasks the run
    step's job file exists afterwards, empty under the aborting logging
    handler; under a handler that only logs, the job is written in full
    and submitted. *)
Lemma over_capacity_leaves_job_file :
  files fresh_world !! "/exp/foo/foo-02-run" = None /\
  (fst (over_capacity_run true) = Raise (SystemExit "aborting") /\
   last (log (snd (over_capacity_run true))) = Some (CRITICAL, capacity_text) /\
   files (snd (over_capacity_run true)) !! "/exp/foo/foo-02-run" = Some "" /\
   ~ (files (snd (over_capacity_run true)) = files fresh_world /\
      submitted_jobs (calls (snd (over_capacity_run true))) = [])) /\
  (fst (over_capacity_run false) = Ok tt /\
   last (log (snd (over_capacity_run false))) = Some (CRITICAL, capacity_text) /\
   is_Some (files (snd (over_capacity_run false)) !! "/exp/foo/foo-02-run") /\
   submitted_jobs (calls (snd (over_capacity_run false))) = ["foo-02-run"] /\
   ~ (files (snd (over_capacity_run false)) = files fresh_world /\
      submitted_jobs (calls (snd (over_capacity_run false))) = [])).
Proof.
  split; [reflexivity|]. split.
  - split; [vm_compute; reflexivity|]. split; [vm_compute; reflexivity|].
    assert (Hfile : files (snd (over_capacity_run true)) !! "/exp/foo/foo-02-run" = Some "")
      by (vm_compute; reflexivity).
    split; [exact Hfile|]. intros [Hf _]. rewrite Hf in Hfile. discriminate.
  - split; [vm_compute; reflexivity|]. split; [vm_compute; reflexivity|].
    split; [vm_compute; eexists; reflexivity|].
    assert (Hjobs : submitted_jobs (calls (snd (over_capacity_run false))) = ["foo-02-run"])
      by (vm_compute; reflexivity).
    split; [exact Hjobs|]. intros [_ Hj]. rewrite Hj in Hjobs. discriminate.
Qed.

Lemma run_step_declined X self total number step prev w rest :
  is_run_step step = true ->
  decline_exits X = true ->
  is_Some (files w !! marker_of X step w) ->
  replies w = false :: rest ->
  run_step X self total number step prev w =
    (Raise (SystemExit "Aborted"),
     set_terminal (prompts w ++ [submitted_question (marker_of X step w)]) rest
       (after_build X step w)).
Proof.
  intros Hrun Hdecl Hmark Hrep. rewrite run_step_eq.
  destruct (after_build_terminal X step w) as [Hp Hr].
  erewrite bind_raise; [reflexivity|].
  rewrite (guard_answered X step _ _ false rest Hrun).
  - rewrite Hdecl, Hp. reflexivity.
  - now rewrite after_build_files.
  - now rewrite Hr.
Qed.

(** C4 (as amended): when the chain reaches a run step whose marker file
    exists, the user is asked for confirmation; a negative answer ends
    [run_steps] there with [SystemExit]: files (the marker and the job files
    of earlier steps) stay as they were, and no job is submitted for this
    step or for a later one. *)
Theorem declined_resubmission_ends_chain X self pre step post w prev w_pre rest :
  reaches X self pre step post w prev w_pre ->
  is_run_step step = true ->
  decline_exits X = true ->
  is_Some (files w_pre !! marker_of X step w_pre) ->
  replies w_pre = false :: rest ->
  exists w',
    run_steps X self (pre ++ step :: post) w = (Raise (SystemExit "Aborted"), w') /\
    files w' = files w_pre /\
    submitted_jobs (calls w') = submitted_jobs (calls w_pre) /\
    prompts w' = (prompts w_pre ++ [submitted_question (marker_of X step w_pre)])%list /\
    replies w' = rest.
Proof.
  intros Hpre Hrun Hdecl Hmark Hrep.
  pose proof (run_step_declined X self (length (pre ++ step :: post)) (1 + length pre)
                step prev w_pre rest Hrun Hdecl Hmark Hrep) as Hstep.
  eexists. split; [eapply run_steps_stops; eauto|].
  cbn. rewrite after_build_files, after_build_jobs. repeat split.
Qed.

Lemma declined_resubmission_ends_chain_witness :
  fst (declined_chain true) = Raise (SystemExit "Aborted") /\
  files (snd (declined_chain true)) !! "/exp/foo/submitted" = Some submitted_text /\
  submitted_jobs (calls (snd (declined_chain true))) = ["foo-01-build"] /\
  prompts (snd (declined_chain true)) = [submitted_question "/exp/foo/submitted"].
Proof.
  set (X := sample_externals true true).
  set (self := sample_env 1 None true).
  set (pre := [mkStep "build" "call"]).
  set (w_pre := snd (run_steps_loop X self 3 1 pre None
                       (set_calls (calls marked_world ++ [Makedirs "/exp/foo"]) marked_world))).
  destruct (declined_resubmission_ends_chain X self pre (mkStep "run" "run")
              [mkStep "report" "call"] marked_world (Some "foo-01-build") w_pre [])
    as (w' & Hrun & Hfiles & Hjobs & Hprompts & _).
  - vm_compute. reflexivity.
  - reflexivity.
  - reflexivity.
  - vm_compute. eexists. reflexivity.
  - vm_compute. reflexivity.
  - unfold declined_chain.
    change foo_steps with (pre ++ mkStep "run" "run" :: [mkStep "report" "call"]).
    fold X self. rewrite Hrun. cbn [fst snd]. rewrite Hfiles, Hjobs, Hprompts.
    repeat split; vm_compute; reflexivity.
Defined.

(** C4 (as stated) fails: after a negative answer the chain does not go on
    without the declined step.  When [confirm_or_abort] ends the process,
    the later report step is not submitted; were it to return instead, the
    declined run step would be submitted all the same. *)
Lemma declined_step_is_not_skipped :
  (prompts (snd (declined_chain true)) = [submitted_question "/exp/foo/submitted"] /\
   submitted_jobs (calls (snd (declined_chain true))) = ["foo-01-build"] /\
   ~ (("foo-02-run" ∉ submitted_jobs (calls (snd (declined_chain true)))) /\
      ("foo-03-report" ∈ submitted_jobs (calls (snd (declined_chain true)))))) /\
  (prompts (snd (declined_chain false)) = [submitted_question "/exp/foo/submitted"] /\
   submitted_jobs (calls (snd (declined_chain false))) =
     ["foo-01-build"; "foo-02-run"; "foo-03-report"] /\
   ~ (("foo-02-run" ∉ submitted_jobs (calls (snd (declined_chain false)))) /\
      ("foo-03-report" ∈ submitted_jobs (calls (snd (declined_chain false)))))).
Proof.
  split.
  - assert (Hjobs : submitted_jobs (calls (snd (declined_chain true))) = ["foo-01-build"])
      by (vm_compute; reflexivity).
    split; [vm_compute; reflexivity|]. split; [exact Hjobs|]. rewrite Hjobs.
    intros [_ Hreport]. apply list_elem_of_In in Hreport. simpl in Hreport.
    destruct Hreport as [H|[]]. discriminate.
  - assert (Hjobs : submitted_jobs (calls (snd (declined_chain false))) =
                    ["foo-01-build"; "foo-02-run"; "foo-03-report"])
      by (vm_compute; reflexivity).
    split; [vm_compute; reflexivity|]. split; [exact Hjobs|]. rewrite Hjobs.
    intros [Hrun _]. apply Hrun. apply list_elem_of_In. simpl. auto.
Qed.

(* ===================================================================== *)
(** * The aggregator *)
(* ===================================================================== *)

(** The run directories are visited in byte-wise lexicographic order,
    each of them once. *)
Lemma sorted_Permutation (paths : list string) : sorted paths ≡ₚ paths.
Proof. apply merge_sort_Permutation. Qed.

Lemma sorted_Sorted (paths : list string) : Sorted str_le (sorted paths).
Proof.
  apply Sorted_merge_sort. intros a b. unfold str_le. apply String.leb_total.
Qed.

Lemma fetch_dir_spec X run_dir eval_dir copy_all w :
  exists w',
    fetch_dir X run_dir eval_dir copy_all w =
      (rbind (run_entry X (files w) run_dir) (fun _ =>
         Ok (run_id_of X (files w) run_dir, run_props X (files w) run_dir)), w') /\
    files w' = files w /\ os_glob w' = os_glob w /\ log w `prefix_of` log w'.
Proof.
  unfold fetch_dir, run_entry, run_id_of, run_props, Properties_load, logging_critical,
    tools_makedirs, tools_fast_updatetree, do_call.
  run_m.
  set (props := match files w !! os_path_join run_dir ["properties"] with
                | Some text => props_loads X text
                | None => []
                end).
  assert (Hp : log w `prefix_of` (log w ++ [(CRITICAL, id_message (os_path_join run_dir ["properties"]))]))
    by apply prefix_app_r, reflexivity.
  destruct (truthy (props_get "id" props)); cbn.
  - destruct (iter_strings (props_get "id" props)); cbn; [|eauto 6].
    destruct copy_all; cbn; eauto 6.
  - destruct (critical_exits X); cbn; [eauto 6|].
    destruct (iter_strings (props_get "id" props)); cbn; [|eauto 6].
    destruct copy_all; cbn; eauto 6.
Qed.

Lemma fetch_loop_spec X eval_dir copy_all total index dirs combined w :
  exists w',
    fetch_loop X eval_dir copy_all total index dirs combined w =
      (rbind (run_entries X (files w) dirs) (fun kvs =>
         Ok (option_map (props_update kvs) combined)), w') /\
    files w' = files w /\ os_glob w' = os_glob w /\ log w `prefix_of` log w'.
Proof.
  revert index combined w. induction dirs as [|d dirs IH]; intros index combined w.
  - exists w. cbn. destruct combined; auto.
  - cbn [fetch_loop run_entries].
    unfold logging_info. rewrite (bind_ok (modify _) _ w _ tt) by reflexivity.
    set (w1 := set_log _ w).
    destruct (fetch_dir_spec X d eval_dir copy_all w1) as (w2 & Hfd & Hf2 & Hg2 & Hl2).
    change (files w1) with (files w) in *. change (os_glob w1) with (os_glob w) in *.
    assert (Hl1 : log w `prefix_of` log w2).
    { etransitivity; [|exact Hl2]. apply prefix_app_r. reflexivity. }
    destruct (run_entry X (files w) d) as [[k v]|e] eqn:Hentry; cbn [rbind] in *.
    + rewrite (bind_ok _ _ _ _ _ Hfd).
      unfold run_entry in Hentry.
      destruct (negb (truthy (run_id_of X (files w) d)) && critical_exits X);
        [discriminate|].
      destruct (iter_strings (run_id_of X (files w) d)) as [segments|] eqn:Hsegs;
        [|discriminate].
      cbn in Hentry. injection Hentry as <- <-.
      cbv beta iota.
      destruct combined as [c|].
      * unfold lift, bind, ret. cbv beta iota.
        destruct (IH (S index) (Some (props_set (str_join "-" segments)
                        (VStore (run_props X (files w) d)) c)) w2)
          as (w3 & Hl & Hf3 & Hg3 & Hl3).
        rewrite Hf2 in Hl. rewrite Hl.
        exists w3. split; [|split; [congruence | split; [congruence | etransitivity; eauto]]].
        destruct (run_entries X (files w) dirs); reflexivity.
      * unfold bind, ret. cbv beta iota.
        destruct (IH (S index) None w2) as (w3 & Hl & Hf3 & Hg3 & Hl3).
        rewrite Hf2 in Hl. rewrite Hl.
        exists w3. split; [|split; [congruence | split; [congruence | etransitivity; eauto]]].
        destruct (run_entries X (files w) dirs); reflexivity.
    + rewrite (bind_raise _ _ _ _ _ Hfd). exists w2. auto.
Qed.

Lemma endswith_slash_spec (s : string) :
  endswith_slash s = true <-> exists p, s = p +:+ "/".
Proof.
  split.
  - induction s as [|c s IH]; [discriminate|].
    destruct s as [|c' s'].
    + cbn. intros H. apply Ascii.eqb_eq in H as ->. now exists "".
    + intros H. destruct (IH H) as [p Hp]. exists (String c p).
      rewrite append_cons. now rewrite <- Hp.
  - intros [p ->]. induction p as [|c p IH]; [reflexivity|].
    rewrite append_cons. destruct p; exact IH.
Qed.

(** [Fetcher.__call__] around its loop. *)
Lemma Fetcher_call_unfold X exp_dir eval_dir copy_all (write : bool) w :
  endswith_slash exp_dir = false ->
  let dest := default_eval_dir exp_dir eval_dir in
  let w1 := set_log (log w ++ [(INFO, "Fetching files from " +:+ exp_dir +:+ " -> " +:+ dest)]) w in
  let combined :=
    if write then Some (stored_props X (files w) (combined_file exp_dir eval_dir)) else None in
  let dirs := run_dirs_of w exp_dir in
  Fetcher_call X exp_dir eval_dir copy_all write w =
    match fetch_loop X dest copy_all (length dirs) 1 dirs combined w1 with
    | (Ok oc, w2) =>
        (Ok tt,
         let w3 := set_calls (calls w2 ++ [Makedirs dest]) w2 in
         match oc with
         | Some c => set_files (<[combined_file exp_dir eval_dir := props_dumps X c]> (files w3)) w3
         | None => w3
         end)
    | (Raise e, w2) => (Raise e, w2)
    end.
Proof.
  intros Hslash. cbv zeta.
  unfold Fetcher_call, Properties_load, Properties_write, logging_info, tools_makedirs,
    do_call, run_dirs_of, combined_file, stored_props, sorted.
  rewrite Hslash. run_m.
  destruct write; cbn.
  all: match goal with |- context [fetch_loop ?a1 ?a2 ?a3 ?a4 ?a5 ?a6 ?a7 ?a8] =>
         destruct (fetch_loop a1 a2 a3 a4 a5 a6 a7 a8) as [[oc|err] w2] end;
    [|reflexivity].
  all: destruct oc; reflexivity.
Qed.

Lemma Fetcher_call_spec X exp_dir eval_dir copy_all (write : bool) w :
  endswith_slash exp_dir = false ->
  exists w',
    Fetcher_call X exp_dir eval_dir copy_all write w =
      (rbind (run_entries X (files w) (run_dirs_of w exp_dir)) (fun _ => Ok tt), w') /\
    files w' = files_after_fetch X w exp_dir eval_dir write /\
    os_glob w' = os_glob w /\
    (log w ++ [(INFO, "Fetching files from " +:+ exp_dir +:+ " -> " +:+
                      default_eval_dir exp_dir eval_dir)]) `prefix_of` log w' /\
    (is_Some (files w' !! combined_file exp_dir eval_dir) \/
     files w' = files w) /\
    (forall kvs, run_entries X (files w) (run_dirs_of w exp_dir) = Ok kvs ->
       last (calls w') = Some (Makedirs (default_eval_dir exp_dir eval_dir))).
Proof.
  intros Hslash. rewrite (Fetcher_call_unfold X exp_dir eval_dir copy_all write w Hslash).
  cbv zeta. unfold files_after_fetch.
  set (w1 := set_log _ w).
  set (combined := if write then _ else _).
  destruct (fetch_loop_spec X (default_eval_dir exp_dir eval_dir) copy_all
              (length (run_dirs_of w exp_dir)) 1 (run_dirs_of w exp_dir) combined w1)
    as (w2 & Hloop & Hf & Hg & Hl).
  change (files w1) with (files w) in *. change (os_glob w1) with (os_glob w) in *.
  rewrite Hloop.
  destruct (run_entries X (files w) (run_dirs_of w exp_dir)) as [kvs|e]; cbn [rbind].
  - unfold combined. destruct write; cbn [option_map]; eexists; (split; [reflexivity|]); cbn.
    + rewrite Hf. split; [reflexivity|]. split; [exact Hg|]. split; [exact Hl|].
      split; [left; rewrite lookup_insert_eq; eauto|].
      intros _ _. apply last_snoc.
    + split; [exact Hf|]. split; [exact Hg|]. split; [exact Hl|].
      split; [now right|]. intros _ _. apply last_snoc.
  - exists w2. split; [reflexivity|]. split; [exact Hf|]. split; [exact Hg|].
    split; [exact Hl|]. split; [now right | discriminate].
Qed.

Lemma Fetcher_call_trailing_slash X exp_dir eval_dir copy_all (write : bool) w :
  endswith_slash exp_dir = true ->
  Fetcher_call X exp_dir eval_dir copy_all write w = (Raise AssertionError, w).
Proof.
  intros Hslash. unfold Fetcher_call, Properties_load. run_m. now rewrite Hslash.
Qed.

Lemma default_eval_dir_none (exp_dir : string) :
  default_eval_dir exp_dir None = exp_dir +:+ "-eval".
Proof. reflexivity. Qed.

(** C10: the aggregator asserts that the experiment directory does not end
    with a slash: for such a path it raises [AssertionError] and leaves
    everything as it was; for any other path, and no destination given, it
    goes on with the destination [exp_dir-eval], which it announces in the
    log and, when the aggregation succeeds, creates and writes the combined
    property file into. *)
Theorem fetcher_rejects_trailing_slash X exp_dir eval_dir copy_all (write : bool) w :
  ((exists p, exp_dir = p +:+ "/") ->
     Fetcher_call X exp_dir eval_dir copy_all write w = (Raise AssertionError, w)) /\
  ((forall p, exp_dir <> p +:+ "/") ->
     exists r w',
       Fetcher_call X exp_dir None copy_all write w = (r, w') /\
       (log w ++ [(INFO, "Fetching files from " +:+ exp_dir +:+ " -> " +:+
                         exp_dir +:+ "-eval")]) `prefix_of` log w' /\
       (r = Ok tt ->
          last (calls w') = Some (Makedirs (exp_dir +:+ "-eval")) /\
          (write = true ->
             is_Some (files w' !! os_path_join (exp_dir +:+ "-eval") ["properties"])))).
Proof.
  split.
  - intros Hp. apply endswith_slash_spec in Hp.
    now apply Fetcher_call_trailing_slash.
  - intros Hnp.
    assert (Hslash : endswith_slash exp_dir = false).
    { destruct (endswith_slash exp_dir) eqn:E; [|reflexivity].
      apply endswith_slash_spec in E as [p ->]. now destruct (Hnp p). }
    destruct (Fetcher_call_spec X exp_dir None copy_all write w Hslash)
      as (w' & Hcall & Hfiles & _ & Hlog & _ & Hcalls).
    rewrite default_eval_dir_none in *.
    eexists. exists w'. split; [exact Hcall|]. split; [exact Hlog|].
    intros Hok. unfold files_after_fetch in Hfiles.
    destruct (run_entries X (files w) (run_dirs_of w exp_dir)) as [kvs|e];
      [|discriminate].
    split; [now apply (Hcalls kvs)|].
    intros ->. rewrite Hfiles. unfold combined_file.
    rewrite default_eval_dir_none, lookup_insert_eq. eauto.
Qed.

Lemma fetcher_rejects_trailing_slash_witness :
  fst (Fetcher_call (fetch_externals true) "/exp/foo/" None false true
         (fetch_world (sample_tree "A2"))) = Raise AssertionError /\
  exists w',
    Fetcher_call (fetch_externals true) "/exp/foo" None false true
      (fetch_world (sample_tree "A2")) = (Ok tt, w') /\
    is_Some (files w' !! "/exp/foo-eval/properties").
Proof.
  destruct (fetcher_rejects_trailing_slash (fetch_externals true) "/exp/foo/" None
              false true (fetch_world (sample_tree "A2"))) as [Hreject _].
  split; [rewrite Hreject; [reflexivity | now exists "/exp/foo"]|].
  destruct (fetcher_rejects_trailing_slash (fetch_externals true) "/exp/foo" None
              false true (fetch_world (sample_tree "A2"))) as [_ Haccept].
  destruct Haccept as (r & w' & Hcall & _ & Hok).
  - intros p Hp.
    assert (H : endswith_slash "/exp/foo" = true)
      by (apply endswith_slash_spec; now exists p).
    vm_compute in H. discriminate.
  - assert (Hr : r = Ok tt).
    { apply (f_equal fst) in Hcall. cbn [fst] in Hcall. rewrite <- Hcall.
      vm_compute. reflexivity. }
    subst r. exists w'. split; [exact Hcall|].
    destruct (Hok eq_refl) as [_ Hfile]. exact (Hfile eq_refl).
Defined.

Lemma fetch_dir_missing_id X run_dir eval_dir copy_all w :
  critical_exits X = true ->
  truthy (run_id_of X (files w) run_dir) = false ->
  fetch_dir X run_dir eval_dir copy_all w =
    (Raise (SystemExit "aborting"),
     set_log (log w ++ [(CRITICAL, id_message (os_path_join run_dir ["properties"]))]) w).
Proof.
  unfold run_id_of, run_props. intros Hcrit Hid.
  unfold fetch_dir, Properties_load, logging_critical. run_m.
  rewrite Hid. cbn. rewrite Hcrit. reflexivity.
Qed.

Lemma fetch_loop_missing_id X eval_dir copy_all total index pre d post combined w kvs :
  critical_exits X = true ->
  run_entries X (files w) pre = Ok kvs ->
  truthy (run_id_of X (files w) d) = false ->
  exists w',
    fetch_loop X eval_dir copy_all total index (pre ++ d :: post) combined w =
      (Raise (SystemExit "aborting"), w') /\
    files w' = files w /\
    last (log w') = Some (CRITICAL, id_message (os_path_join d ["properties"])).
Proof.
  intros Hcrit. revert index combined w kvs.
  induction pre as [|p pre IH]; intros index combined w kvs Hpre Hid.
  - cbn [app fetch_loop]. unfold logging_info.
    rewrite (bind_ok (modify _) _ w _ tt) by reflexivity.
    set (w1 := set_log _ w).
    rewrite (bind_raise _ _ _ _ _ (fetch_dir_missing_id X d eval_dir copy_all w1 Hcrit Hid)).
    eexists. split; [reflexivity|]. split; [reflexivity|]. cbn. apply last_snoc.
  - cbn [app fetch_loop]. cbn [run_entries] in Hpre. unfold logging_info.
    rewrite (bind_ok (modify _) _ w _ tt) by reflexivity.
    set (w1 := set_log _ w).
    destruct (fetch_dir_spec X p eval_dir copy_all w1) as (w2 & Hfd & Hf2 & _).
    change (files w1) with (files w) in *.
    destruct (run_entry X (files w) p) as [[k v]|e] eqn:Hentry; [|discriminate].
    cbn [rbind] in Hfd, Hpre.
    destruct (run_entries X (files w) pre) as [kvs'|] eqn:Hrest; [|discriminate].
    rewrite (bind_ok _ _ _ _ _ Hfd). cbv beta iota.
    unfold run_entry in Hentry.
    destruct (negb (truthy (run_id_of X (files w) p)) && critical_exits X); [discriminate|].
    destruct (iter_strings (run_id_of X (files w) p)) as [segments|] eqn:Hsegs;
      [|discriminate].
    rewrite <- Hf2 in Hrest, Hid.
    destruct combined as [c|]; unfold lift, bind, ret; cbv beta iota.
    + destruct (IH (S index) (Some (props_set (str_join "-" segments)
                   (VStore (run_props X (files w) p)) c)) w2 kvs' Hrest Hid)
        as (w3 & Hl & Hf3 & Hlast).
      rewrite Hl. exists w3. split; [reflexivity|]. split; [congruence | exact Hlast].
    + destruct (IH (S index) None w2 kvs' Hrest Hid) as (w3 & Hl & Hf3 & Hlast).
      rewrite Hl. exists w3. split; [reflexivity|]. split; [congruence | exact Hlast].
Qed.

Lemma properties_path_in_dir (run_dir : string) :
  exists rest, os_path_join run_dir ["properties"] = run_dir +:+ rest.
Proof.
  unfold os_path_join. cbn [fold_left]. unfold path_join1.
  cbn [startswith_slash].
  destruct (String.eqb run_dir "" || endswith_slash run_dir); eauto.
Qed.

(** C2: under the aborting logging handler, when the aggregator comes to a
    run directory whose property file has no [id] or an empty one, it logs
    the integrity error, whose text names the property file inside that
    directory, and ends with [SystemExit]; no file is written, so no
    combined store is persisted. *)
Theorem missing_id_aborts_aggregation X exp_dir eval_dir copy_all (write : bool)
    w pre d post kvs :
  critical_exits X = true ->
  endswith_slash exp_dir = false ->
  run_dirs_of w exp_dir = pre ++ d :: post ->
  run_entries X (files w) pre = Ok kvs ->
  truthy (run_id_of X (files w) d) = false ->
  exists w' rest,
    Fetcher_call X exp_dir eval_dir copy_all write w = (Raise (SystemExit "aborting"), w') /\
    files w' = files w /\
    last (log w') = Some (CRITICAL, "id is not set in " +:+ (d +:+ rest) +:+ ".") /\
    d +:+ rest = os_path_join d ["properties"].
Proof.
  intros Hcrit Hslash Hdirs Hpre Hid.
  rewrite (Fetcher_call_unfold X exp_dir eval_dir copy_all write w Hslash).
  cbv zeta. rewrite Hdirs.
  set (w1 := set_log _ w).
  set (combined := if write then _ else _).
  destruct (fetch_loop_missing_id X (default_eval_dir exp_dir eval_dir) copy_all
              (length (pre ++ d :: post)) 1 pre d post combined w1 kvs Hcrit Hpre Hid)
    as (w2 & Hloop & Hf & Hlast).
  rewrite Hloop. destruct (properties_path_in_dir d) as [rest Hrest].
  exists w2, rest. split; [reflexivity|]. split; [exact Hf|].
  split; [|now rewrite Hrest]. rewrite Hlast, Hrest. reflexivity.
Qed.

Lemma missing_id_aborts_aggregation_witness :
  fst (sample_fetch true (sample_tree "NOID")) = Raise (SystemExit "aborting") /\
  files (snd (sample_fetch true (sample_tree "NOID"))) !! "/exp/foo-eval/properties" = None /\
  last (log (snd (sample_fetch true (sample_tree "NOID")))) =
    Some (CRITICAL, "id is not set in /exp/foo/runs-00001-00100/00002/properties.").
Proof.
  destruct (missing_id_aborts_aggregation (fetch_externals true) "/exp/foo" None false true
              (fetch_world (sample_tree "NOID"))
              ["/exp/foo/runs-00001-00100/00001"] "/exp/foo/runs-00001-00100/00002"
              ["/exp/foo/runs-00001-00100/00003"]
              [("a-1", VStore (sample_run_props "a" "1"))])
    as (w' & rest & Hcall & Hfiles & Hlog & Hrest).
  - reflexivity.
  - reflexivity.
  - vm_compute. reflexivity.
  - vm_compute. reflexivity.
  - vm_compute. reflexivity.
  - unfold sample_fetch. rewrite Hcall. cbn [fst snd]. rewrite Hfiles, Hlog, Hrest.
    repeat split; vm_compute; reflexivity.
Defined.

(* ===================================================================== *)
(** * Property stores *)
(* ===================================================================== *)

Section PropertyStore.

Implicit Types (p : Properties) (k : string) (v : value).

Lemma props_get_set_eq k v p : props_get k (props_set k v p) = Some v.
Proof.
  induction p as [|[k' v'] p IH]; cbn.
  - now rewrite decide_True.
  - destruct (decide (k' = k)) as [->|Hne]; cbn.
    + now rewrite decide_True.
    + now rewrite decide_False.
Qed.

Lemma props_get_set_ne k k' v p :
  k <> k' -> props_get k' (props_set k v p) = props_get k' p.
Proof.
  intros Hne. induction p as [|[k1 v1] p IH]; cbn.
  - now rewrite decide_False.
  - destruct (decide (k1 = k)) as [->|Hne1]; cbn.
    + now rewrite !decide_False.
    + destruct (decide (k1 = k')); [reflexivity | exact IH].
Qed.

Lemma props_set_set k v v' p : props_set k v (props_set k v' p) = props_set k v p.
Proof.
  induction p as [|[k1 v1] p IH]; cbn.
  - now rewrite decide_True.
  - destruct (decide (k1 = k)) as [->|Hne]; cbn.
    + now rewrite decide_True.
    + rewrite decide_False by assumption. now rewrite IH.
Qed.

Lemma props_set_get k v p : props_get k p = Some v -> props_set k v p = p.
Proof.
  induction p as [|[k1 v1] p IH]; cbn; [discriminate|].
  destruct (decide (k1 = k)) as [->|Hne].
  - now intros [= ->].
  - intros H. now rewrite IH.
Qed.

(** Two assignments commute as soon as one of the keys is in the store. *)
Lemma props_set_comm k k' v v' p :
  k <> k' -> is_Some (props_get k p) ->
  props_set k' v' (props_set k v p) = props_set k v (props_set k' v' p).
Proof.
  intros Hne. induction p as [|[k1 v1] p IH]; cbn; intros Hk.
  - now destruct Hk.
  - destruct (decide (k1 = k)) as [He1|Hne1], (decide (k1 = k')) as [He2|Hne2];
      cbn; repeat case_decide; try congruence.
    now rewrite IH.
Qed.

Lemma props_get_update_notin k kvs p :
  k ∉ map fst kvs -> props_get k (props_update kvs p) = props_get k p.
Proof.
  revert p. induction kvs as [|[k1 v1] kvs IH]; intros p Hk; [reflexivity|].
  cbn in *. apply not_elem_of_cons in Hk as [Hne Hk].
  unfold props_update in *. cbn. rewrite IH by assumption.
  now apply props_get_set_ne.
Qed.

Lemma props_update_keeps_keys k kvs p :
  is_Some (props_get k p) -> is_Some (props_get k (props_update kvs p)).
Proof.
  revert p. induction kvs as [|[k1 v1] kvs IH]; intros p Hk; [exact Hk|].
  unfold props_update in *. cbn. apply IH.
  destruct (decide (k1 = k)) as [->|Hne].
  - rewrite props_get_set_eq. eauto.
  - now rewrite props_get_set_ne.
Qed.

(** An assignment that a later one overwrites does not matter. *)
Lemma props_update_overwrites k v kvs p :
  k ∈ map fst kvs -> is_Some (props_get k p) ->
  props_update kvs (props_set k v p) = props_update kvs p.
Proof.
  revert p. induction kvs as [|[k1 v1] kvs IH]; intros p Hin Hk.
  - now apply elem_of_nil in Hin.
  - unfold props_update in *. cbn in *.
    destruct (decide (k1 = k)) as [->|Hne].
    + now rewrite props_set_set.
    + apply elem_of_cons in Hin as [->|Hin]; [congruence|].
      rewrite props_set_comm by auto.
      apply IH; [exact Hin|]. now rewrite props_get_set_ne.
Qed.

(** Setting the same entries a second time changes nothing. *)
Lemma props_update_idempotent kvs p :
  props_update kvs (props_update kvs p) = props_update kvs p.
Proof.
  revert p. induction kvs as [|[k v] kvs IH]; intros p; [reflexivity|].
  change (props_update ((k, v) :: kvs) p) with (props_update kvs (props_set k v p)).
  set (u := props_set k v p).
  change (props_update ((k, v) :: kvs) (props_update kvs u))
    with (props_update kvs (props_set k v (props_update kvs u))).
  assert (Hu : props_get k u = Some v) by apply props_get_set_eq.
  destruct (decide (k ∈ map fst kvs)) as [Hin|Hnotin].
  - rewrite props_update_overwrites; [apply IH | exact Hin |].
    apply props_update_keeps_keys. rewrite Hu. eauto.
  - rewrite (props_set_get k v (props_update kvs u)); [apply IH|].
    now rewrite props_get_update_notin.
Qed.

End PropertyStore.

(* ===================================================================== *)
(** * The combined store *)
(* ===================================================================== *)

Lemma props_get_update_in k kvs p :
  k ∈ map fst kvs ->
  exists v, (k, v) ∈ kvs /\ props_get k (props_update kvs p) = Some v.
Proof.
  revert p. induction kvs as [|[k1 v1] kvs IH]; intros p Hin.
  - now apply elem_of_nil in Hin.
  - change (props_update ((k1, v1) :: kvs) p) with (props_update kvs (props_set k1 v1 p)).
    destruct (decide (k ∈ map fst kvs)) as [Hr|Hr].
    + destruct (IH (props_set k1 v1 p) Hr) as (v & Hv & Hget).
      exists v. split; [now right | exact Hget].
    + cbn in Hin. apply elem_of_cons in Hin as [->|Hin]; [|contradiction].
      exists v1. split; [now left|].
      rewrite props_get_update_notin by assumption. apply props_get_set_eq.
Qed.

Lemma props_update_keys k kvs p :
  is_Some (props_get k (props_update kvs p)) <->
  is_Some (props_get k p) \/ k ∈ map fst kvs.
Proof.
  destruct (decide (k ∈ map fst kvs)) as [Hin|Hnotin].
  - split; [auto|]. intros _.
    destruct (props_get_update_in k kvs p Hin) as (v & _ & ->). eauto.
  - rewrite props_get_update_notin by assumption. tauto.
Qed.

(** The entries that the run directories add, one per directory. *)
Lemma run_entries_Forall2 X fs dirs kvs :
  run_entries X fs dirs = Ok kvs ->
  Forall2 (fun d kv => run_key X fs d = Ok (fst kv) /\
                       snd kv = VStore (run_props X fs d)) dirs kvs.
Proof.
  revert kvs. induction dirs as [|d dirs IH]; intros kvs; cbn.
  - intros [= <-]. constructor.
  - destruct (run_entry X fs d) as [[k v]|] eqn:Hentry; [|discriminate]. cbn.
    destruct (run_entries X fs dirs) as [kvs'|]; [|discriminate]. cbn.
    intros [= <-]. constructor; [|now apply IH].
    unfold run_entry in Hentry. unfold run_key.
    destruct (negb (truthy (run_id_of X fs d)) && critical_exits X); [discriminate|].
    destruct (iter_strings (run_id_of X fs d)); [|discriminate].
    cbn in *. now injection Hentry as <- <-.
Qed.


(** Setting entries one after the other: the last entry for a key is
    the one that stays. *)
Lemma props_get_update_last k v pre post p :
  k ∉ map fst post ->
  props_get k (props_update (pre ++ (k, v) :: post) p) = Some v.
Proof.
  intros Hk. unfold props_update. rewrite fold_left_app. cbn [fold_left fst snd].
  change (fold_left (fun acc kv => props_set (fst kv) (snd kv) acc) post ?q)
    with (props_update post q).
  rewrite props_get_update_notin by assumption. apply props_get_set_eq.
Qed.

Lemma last_occurrence (k : string) (kvs : list (string * value)) :
  k ∈ map fst kvs ->
  exists pre v post, kvs = pre ++ (k, v) :: post /\ k ∉ map fst post.
Proof.
  induction kvs as [|[k1 v1] kvs IH]; intros Hin.
  - now apply elem_of_nil in Hin.
  - destruct (decide (k ∈ map fst kvs)) as [Hr|Hr].
    + destruct (IH Hr) as (pre & v & post & -> & Hpost).
      now exists ((k1, v1) :: pre), v, post.
    + cbn in Hin. apply elem_of_cons in Hin as [->|Hin]; [|contradiction].
      now exists [], v1, kvs.
Qed.

Lemma lookup_after_middle {A} (pre post : list A) (x y : A) (j : nat) :
  (pre ++ x :: post) !! j = Some y -> length pre < j -> y ∈ post.
Proof.
  intros Hj Hlt. rewrite lookup_app_r in Hj by lia.
  destruct (j - length pre) as [|m] eqn:Hm; [lia|].
  cbn in Hj. eapply list_elem_of_lookup_2; eauto.
Qed.

(** C6 (as amended): when an aggregation that writes the combined file
    succeeds, the file holds the store found at the destination, updated
    for every run directory, in the order of the visit, with the key that
    joins the segments of the run's id with dashes: the entry under such a
    key is the whole property store (id included) of the run directory
    visited last among those with that id, so that a later run overwrites
    an earlier one with the same id; the entries of the destination under
    other keys are kept; and no other key is new. *)
Theorem runs_merged_under_joined_ids X exp_dir eval_dir copy_all w :
  endswith_slash exp_dir = false ->
  fst (Fetcher_call X exp_dir eval_dir copy_all true w) = Ok tt ->
  exists combined w',
    Fetcher_call X exp_dir eval_dir copy_all true w = (Ok tt, w') /\
    files w' = <[combined_file exp_dir eval_dir := props_dumps X combined]> (files w) /\
    (forall i d, run_dirs_of w exp_dir !! i = Some d ->
       exists k j d',
         run_key X (files w) d = Ok k /\
         i <= j /\ run_dirs_of w exp_dir !! j = Some d' /\
         run_key X (files w) d' = Ok k /\
         (forall j' d'', j < j' -> run_dirs_of w exp_dir !! j' = Some d'' ->
            run_key X (files w) d'' <> Ok k) /\
         props_get k combined = Some (VStore (run_props X (files w) d'))) /\
    (forall k,
       (forall d, d ∈ run_dirs_of w exp_dir -> run_key X (files w) d <> Ok k) ->
       props_get k combined =
       props_get k (stored_props X (files w) (combined_file exp_dir eval_dir))) /\
    (forall k,
       is_Some (props_get k combined) <->
       is_Some (props_get k (stored_props X (files w) (combined_file exp_dir eval_dir))) \/
       exists d, d ∈ run_dirs_of w exp_dir /\ run_key X (files w) d = Ok k).
Proof.
  intros Hslash Hok.
  destruct (Fetcher_call_spec X exp_dir eval_dir copy_all true w Hslash)
    as (w' & Hcall & Hfiles & _).
  rewrite Hcall in Hok. cbn [fst] in Hok. unfold files_after_fetch in Hfiles.
  destruct (run_entries X (files w) (run_dirs_of w exp_dir)) as [kvs|] eqn:Hentries;
    [|discriminate].
  pose proof (run_entries_Forall2 _ _ _ _ Hentries) as Hall.
  set (stored := stored_props X (files w) (combined_file exp_dir eval_dir)) in *.
  exists (props_update kvs stored), w'.
  split; [exact Hcall|]. split; [exact Hfiles|].
  assert (Hfrom : forall k v, (k, v) ∈ kvs ->
            exists d', d' ∈ run_dirs_of w exp_dir /\ run_key X (files w) d' = Ok k /\
                       v = VStore (run_props X (files w) d')).
  { intros k v Hkv. apply list_elem_of_lookup in Hkv as [i Hi].
    destruct (Forall2_lookup_r _ _ _ _ _ Hall Hi) as (d' & Hd' & Hk & Hv).
    exists d'. split; [eapply list_elem_of_lookup_2; eauto | auto]. }
  assert (Hto : forall d, d ∈ run_dirs_of w exp_dir ->
            exists k, run_key X (files w) d = Ok k /\ k ∈ map fst kvs).
  { intros d Hd. apply list_elem_of_lookup in Hd as [i Hi].
    destruct (Forall2_lookup_l _ _ _ _ _ Hall Hi) as ([k v] & Hkv & Hk & _).
    exists k. split; [exact Hk|].
    apply list_elem_of_In, in_map_iff. exists (k, v).
    split; [reflexivity|]. eapply list_elem_of_In, list_elem_of_lookup_2; eauto. }
  split; [|split].
  - intros i d Hi.
    destruct (Forall2_lookup_l _ _ _ _ _ Hall Hi) as ([k v0] & Hkv & Hk & _).
    cbn [fst] in Hk.
    assert (Hin : k ∈ map fst kvs).
    { apply list_elem_of_In, in_map_iff. exists (k, v0).
      split; [reflexivity|]. eapply list_elem_of_In, list_elem_of_lookup_2; eauto. }
    destruct (last_occurrence k kvs Hin) as (pre & v & post & Hsplit & Hpost).
    assert (Hafter : forall j' kv, length pre < j' -> kvs !! j' = Some kv -> fst kv <> k).
    { intros j' kv Hlt Hj' <-. apply Hpost. rewrite Hsplit in Hj'.
      apply list_elem_of_In, in_map_iff. exists kv. split; [reflexivity|].
      apply list_elem_of_In. eapply lookup_after_middle; eauto. }
    assert (Hj : kvs !! length pre = Some (k, v)) by (rewrite Hsplit; apply list_lookup_middle; reflexivity).
    destruct (Forall2_lookup_r _ _ _ _ _ Hall Hj) as (d' & Hd' & Hk' & Hv).
    cbn [fst snd] in Hk', Hv.
    exists k, (length pre), d'. split; [exact Hk|]. split.
    { destruct (decide (i <= length pre)) as [Hle|Hgt]; [exact Hle|].
      exfalso. apply (Hafter i (k, v0)); [lia | exact Hkv | reflexivity]. }
    split; [exact Hd'|]. split; [exact Hk'|]. split.
    + intros j' d'' Hlt Hj' Hkey.
      destruct (Forall2_lookup_l _ _ _ _ _ Hall Hj') as (kv & Hkv' & Hk'' & _).
      apply (Hafter j' kv Hlt Hkv'). congruence.
    + rewrite Hsplit, <- Hv. now apply props_get_update_last.
  - intros k Hnone. apply props_get_update_notin. intros Hin.
    apply list_elem_of_In, in_map_iff in Hin as ([k' v] & Hfst & Hkv).
    cbn in Hfst. subst k'. apply list_elem_of_In in Hkv.
    destruct (Hfrom k v Hkv) as (d' & Hd' & Hk' & _). now apply (Hnone d').
  - intros k. rewrite props_update_keys. split.
    + intros [Hs|Hin]; [now left|]. right.
      apply list_elem_of_In, in_map_iff in Hin as ([k' v] & Hfst & Hkv).
      cbn in Hfst. subst k'. apply list_elem_of_In in Hkv.
      destruct (Hfrom k v Hkv) as (d' & Hd' & Hk' & _). eauto.
    + intros [Hs|(d & Hd & Hk)]; [now left|]. right.
      destruct (Hto d Hd) as (k' & Hk' & Hin). congruence.
Qed.

Lemma sample_run_dirs (second : string) :
  run_dirs_of (fetch_world (sample_tree second)) "/exp/foo" =
  ["/exp/foo/runs-00001-00100/00001"; "/exp/foo/runs-00001-00100/00002";
   "/exp/foo/runs-00001-00100/00003"].
Proof. vm_compute. reflexivity. Qed.

(** The entry of the run directory at position [i] of a listing of
    three, when no later directory has the same key. *)
Ltac last_with_key Hruns i :=
  let k := fresh "k" in let j := fresh "j" in let d' := fresh "d" in
  let Hk := fresh "Hk" in let Hle := fresh "Hle" in let Hj := fresh "Hj" in
  let Hk' := fresh "Hk'" in let Hget := fresh "Hget" in
  edestruct (Hruns i) as (k & j & d' & Hk & Hle & Hj & Hk' & _ & Hget);
  [ reflexivity
  | vm_compute in Hk; injection Hk as <-;
    destruct j as [|[|[|j]]]; vm_compute in Hj; try discriminate Hj;
    injection Hj as <-; try lia; try (vm_compute in Hk'; discriminate Hk');
    exact Hget ].

Lemma runs_merged_under_joined_ids_witness :
  (exists combined w',
     Fetcher_call (fetch_externals true) "/exp/foo" None false true
       (fetch_world (sample_tree "A2")) = (Ok tt, w') /\
     files w' !! "/exp/foo-eval/properties" = Some (sample_dumps combined) /\
     props_get "a-1" combined = Some (VStore (sample_run_props "a" "1")) /\
     props_get "a-2" combined = Some (VStore (sample_run_props "a" "2")) /\
     props_get "b-1" combined = Some (VStore (sample_run_props "b" "1")) /\
     (forall k, is_Some (props_get k combined) -> k ∈ ["a-1"; "a-2"; "b-1"])) /\
  (exists combined w',
     Fetcher_call rerun_externals "/exp/foo" None false true
       (fetch_world (sample_tree "A1-rerun")) = (Ok tt, w') /\
     files w' !! "/exp/foo-eval/properties" = Some (sample_dumps combined) /\
     props_get "a-1" combined = Some (VStore rerun_props) /\
     props_get "b-1" combined = Some (VStore (sample_run_props "b" "1")) /\
     (forall k, is_Some (props_get k combined) -> k ∈ ["a-1"; "b-1"])).
Proof.
  split.
  - set (X := fetch_externals true). set (w := fetch_world (sample_tree "A2")).
    destruct (runs_merged_under_joined_ids X "/exp/foo" None false w)
      as (combined & w' & Hcall & Hfiles & Hruns & _ & Hkeys).
    + reflexivity.
    + vm_compute. reflexivity.
    + assert (Hdirs := sample_run_dirs "A2"). fold w in Hdirs. rewrite Hdirs in Hruns, Hkeys.
      exists combined, w'. split; [exact Hcall|].
      split; [rewrite Hfiles; apply lookup_insert_eq|].
      split; [last_with_key Hruns 0|].
      split; [last_with_key Hruns 1|].
      split; [last_with_key Hruns 2|].
      intros k Hk. apply Hkeys in Hk as [Hstored|(d & Hd & Hkey)].
      * vm_compute in Hstored. now destruct Hstored.
      * apply list_elem_of_In in Hd. simpl in Hd.
        destruct Hd as [<-|[<-|[<-|[]]]]; vm_compute in Hkey;
          injection Hkey as <-; apply list_elem_of_In; simpl; tauto.
  - set (X := rerun_externals). set (w := fetch_world (sample_tree "A1-rerun")).
    destruct (runs_merged_under_joined_ids X "/exp/foo" None false w)
      as (combined & w' & Hcall & Hfiles & Hruns & _ & Hkeys).
    + reflexivity.
    + vm_compute. reflexivity.
    + assert (Hdirs := sample_run_dirs "A1-rerun"). fold w in Hdirs.
      rewrite Hdirs in Hruns, Hkeys.
      exists combined, w'. split; [exact Hcall|].
      split; [rewrite Hfiles; apply lookup_insert_eq|].
      split; [last_with_key Hruns 1|].
      split; [last_with_key Hruns 2|].
      intros k Hk. apply Hkeys in Hk as [Hstored|(d & Hd & Hkey)].
      * vm_compute in Hstored. now destruct Hstored.
      * apply list_elem_of_In in Hd. simpl in Hd.
        destruct Hd as [<-|[<-|[<-|[]]]]; vm_compute in Hkey;
          injection Hkey as <-; apply list_elem_of_In; simpl; tauto.
Defined.

(** C6 (as stated) fails in its example: a run directory has an id only
    through the [id] entry of its property file, so the entries of the
    combined store hold that entry next to [coverage]; and directories
    whose property files hold [coverage] alone end the aggregation. *)
Lemma combined_entries_keep_id :
  fst (sample_fetch true (sample_tree "A2")) = Ok tt /\
  files (snd (sample_fetch true (sample_tree "A2"))) !! "/exp/foo-eval/properties" =
    Some "{a-1: {id: (a, 1), coverage: 1}, a-2: {id: (a, 2), coverage: 1}, b-1: {id: (b, 1), coverage: 1}}" /\
  combined_after (fetch_externals true) (fetch_world (sample_tree "A2")) "/exp/foo" None
    = Some sample_combined /\
  sample_combined <> coverage_only_combined /\
  files (snd (sample_fetch true (sample_tree "A2"))) !! "/exp/foo-eval/properties" <>
    Some (sample_dumps coverage_only_combined) /\
  fst (sample_fetch true noid_tree) = Raise (SystemExit "aborting") /\
  fst (sample_fetch false noid_tree) = Raise TypeError.
Proof.
  split; [vm_compute; reflexivity|].
  split; [vm_compute; reflexivity|].
  split; [vm_compute; reflexivity|].
  split; [discriminate|].
  split; [vm_compute; discriminate|].
  split; vm_compute; reflexivity.
Qed.






(** Whatever the logging handler does, a run directory whose property
    file has no [id] entry at all ends the aggregation before anything is
    persisted: when the critical record does not end the process, unpacking
    the missing id raises [TypeError]. *)
Lemma missing_id_key_never_persists X exp_dir eval_dir copy_all (write : bool) w d :
  endswith_slash exp_dir = false ->
  d ∈ run_dirs_of w exp_dir ->
  run_id_of X (files w) d = None ->
  exists e w',
    Fetcher_call X exp_dir eval_dir copy_all write w = (Raise e, w') /\
    files w' = files w.
Proof.
  intros Hslash Hd Hid.
  destruct (Fetcher_call_spec X exp_dir eval_dir copy_all write w Hslash)
    as (w' & Hcall & Hfiles & _).
  unfold files_after_fetch in Hfiles.
  destruct (run_entries X (files w) (run_dirs_of w exp_dir)) as [kvs|e] eqn:Hentries.
  - exfalso. pose proof (run_entries_Forall2 _ _ _ _ Hentries) as Hall.
    apply list_elem_of_lookup in Hd as [i Hi].
    destruct (Forall2_lookup_l _ _ _ _ _ Hall Hi) as (kv & _ & Hk & _).
    unfold run_key in Hk. rewrite Hid in Hk. discriminate.
  - exists e, w'. split; [exact Hcall | exact Hfiles].
Qed.

(* ===================================================================== *)
(** * Constructors *)
(* ===================================================================== *)

(** X1: [LocalEnvironment(processes)] stores the number of cores when no
    number is given and the given number otherwise, and accepts it exactly
    when it lies between 1 and the number of cores; any other number raises
    [ValueError]. *)
Theorem local_processes_in_range (cores : Z) (processes : option Z) :
  match LocalEnvironment_init cores processes with
  | Ok n => (1 <= n <= cores)%Z /\ n = default cores processes
  | Raise e => e = ValueError /\ ~ (1 <= default cores processes <= cores)%Z
  end.
Proof.
  unfold LocalEnvironment_init.
  destruct (1 <=? default cores processes)%Z eqn:H1;
    destruct (default cores processes <=? cores)%Z eqn:H2; cbn;
    rewrite ?Z.leb_le, ?Z.leb_gt in *; (split; [try reflexivity|]); lia.
Qed.

(** X2: the constructor of a grid environment looks the host restriction
    up before it checks the priority: an unknown, non-empty restriction
    raises [KeyError]; otherwise a priority outside [-1023, 1024] raises
    [AssertionError]; otherwise the environment holds that priority, one run
    per task, the task limit of its class, a non-empty extra-options line
    and, without a restriction, the inert host line. *)
Theorem grid_init_checks (cls : GridClass) (q : option string) (p : option Z)
    (h em : option string) (r : bool) (xo : option string) :
  match GridEnvironment_init cls q p h em r xo with
  | inr env =>
      (default (DEFAULT_HOST_RESTRICTION cls) h = "" \/
       is_Some (HOST_RESTRICTIONS cls !! default (DEFAULT_HOST_RESTRICTION cls) h)) /\
      priority env = default (DEFAULT_PRIORITY cls) p /\
      (-1023 <= priority env <= 1024)%Z /\
      runs_per_task env = 1 /\
      MAX_TASKS env = CLASS_MAX_TASKS cls /\
      extra_options env <> "" /\
      queue env = default (DEFAULT_QUEUE cls) q /\
      (default (DEFAULT_HOST_RESTRICTION cls) h = "" -> host_spec env = "## (not used)")
  | inl (KeyError k) =>
      k = default (DEFAULT_HOST_RESTRICTION cls) h /\ k <> "" /\
      HOST_RESTRICTIONS cls !! k = None
  | inl (InitError e) =>
      e = AssertionError /\
      ~ (-1023 <= default (DEFAULT_PRIORITY cls) p <= 1024)%Z /\
      (default (DEFAULT_HOST_RESTRICTION cls) h = "" \/
       is_Some (HOST_RESTRICTIONS cls !! default (DEFAULT_HOST_RESTRICTION cls) h))
  end.
Proof.
  unfold GridEnvironment_init, _get_host_spec.
  set (h' := default (DEFAULT_HOST_RESTRICTION cls) h).
  set (p' := default (DEFAULT_PRIORITY cls) p).
  assert (Hxo : default "## (not used)" (nonempty xo) <> "").
  { destruct xo as [[|c s]|]; cbn; discriminate. }
  destruct (String.eqb_spec h' "") as [He|Hne].
  - destruct (-1023 <=? p')%Z eqn:H1; destruct (p' <=? 1024)%Z eqn:H2; cbn;
      rewrite ?Z.leb_le, ?Z.leb_gt in *;
      repeat split; auto; try lia.
  - destruct (HOST_RESTRICTIONS cls !! h') as [hosts|] eqn:Hh; [|auto].
    destruct (-1023 <=? p')%Z eqn:H1; destruct (p' <=? 1024)%Z eqn:H2; cbn;
      rewrite ?Z.leb_le, ?Z.leb_gt in *;
      repeat split; eauto; try lia; try congruence.
Qed.

Lemma grid_init_fields (cls : GridClass) (q : option string) (p : option Z)
    (h em : option string) (r : bool) (xo : option string) (env : GridEnv) :
  GridEnvironment_init cls q p h em r xo = inr env ->
  runs_per_task env = 1 /\ MAX_TASKS env = CLASS_MAX_TASKS cls.
Proof.
  unfold GridEnvironment_init.
  destruct (_get_host_spec cls (default (DEFAULT_HOST_RESTRICTION cls) h)); [discriminate|].
  destruct ((-1023 <=? default (DEFAULT_PRIORITY cls) p) &&
            (default (DEFAULT_PRIORITY cls) p <=? 1024))%Z; [|discriminate].
  intros [= <-]. split; reflexivity.
Qed.

Lemma all_digits_head (c : ascii) (s : string) :
  all_digits (String c s) -> c ∈ digits /\ all_digits s.
Proof.
  intros [d H]. simpl in H.
  destruct (NilEmpty.uint_of_string s) as [d'|] eqn:E.
  - split; [|now exists d'].
    unfold uint_of_char in H. apply list_elem_of_In.
    destruct c as [[] [] [] [] [] [] [] []]; try discriminate; simpl; tauto.
  - exfalso. unfold uint_of_char in H.
    destruct c as [[] [] [] [] [] [] [] []]; discriminate.
Qed.

(** Two numerals followed by the same character that is not a digit agree
    when the whole strings do. *)
Lemma digits_sep_inj (sep : ascii) (a b s t : string) :
  sep ∉ digits -> all_digits a -> all_digits b ->
  a +:+ String sep s = b +:+ String sep t -> a = b.
Proof.
  intros Hsep. revert b. induction a as [|x a IH]; intros [|y b] Ha Hb;
    rewrite ?append_cons, ?append_nil_l; intros [= H].
  - reflexivity.
  - subst y. now apply all_digits_head in Hb as [? _].
  - subst x. now apply all_digits_head in Ha as [? _].
  - subst y. f_equal. apply IH; auto.
    + now apply all_digits_head in Ha.
    + now apply all_digits_head in Hb.
Qed.

Lemma host_pattern_inj (prefix : string) (a b : nat) :
  prefix +:+ fmt_0wd 2 a +:+ "*" = prefix +:+ fmt_0wd 2 b +:+ "*" -> a = b.
Proof.
  intros H. apply append_inv_head in H.
  apply digits_sep_inj in H; try apply all_digits_fmt.
  - now apply fmt_0wd_inj in H.
  - intros Hin. apply list_elem_of_In in Hin. simpl in Hin.
    repeat (destruct Hin as [Hin|Hin]; [discriminate|]). exact Hin.
Qed.

(** X3: [_host_range(prefix, from_num, to_num)] lists one host pattern for
    every number from [from_num] to [to_num], both included, and no other:
    [to_num + 1 - from_num] patterns (none when [to_num < from_num]), all
    different, each the prefix, the number in at least two digits and a
    star. *)
Theorem host_range_spec (prefix : string) (from_num to_num : nat) :
  length (_host_range prefix from_num to_num) = to_num + 1 - from_num /\
  NoDup (_host_range prefix from_num to_num) /\
  (forall h, h ∈ _host_range prefix from_num to_num <->
     exists num, from_num <= num <= to_num /\ h = prefix +:+ fmt_0wd 2 num +:+ "*").
Proof.
  unfold _host_range. split; [|split].
  - now rewrite length_map, length_seq.
  - apply NoDup_ListNoDup, Finite.Injective_map_NoDup; [|apply List.seq_NoDup].
    intros a b. apply host_pattern_inj.
  - intros h. rewrite list_elem_of_In, in_map_iff. split.
    + intros (num & <- & Hin). apply in_seq in Hin. exists num. split; [lia | reflexivity].
    + intros (num & Hnum & ->). exists num. split; [reflexivity|]. apply in_seq. lia.
Qed.

(** X4: an environment as its constructor leaves it has one run per task:
    for a run step within the task limit the number of tasks is the number
    of runs. *)
Theorem fresh_env_one_task_per_run (X : Externals) (cls : GridClass)
    (q : option string) (p : option Z) (h em : option string) (r : bool)
    (xo : option string) (env : GridEnv) (step : Step) (w : World) :
  GridEnvironment_init cls q p h em r xo = inr env ->
  is_run_step step = true ->
  exceeds (length (exp_runs (exp w))) (CLASS_MAX_TASKS cls) = false ->
  _get_num_tasks X env step w = (Ok (length (exp_runs (exp w))), w).
Proof.
  intros Hinit Hrun Hcap.
  pose proof (grid_init_fields cls q p h em r xo env Hinit) as [Hrpt Hmax].
  unfold _get_num_tasks. unfold is_run_step in Hrun. rewrite Hrun.
  apply get_num_runs_within.
  - rewrite Hrpt. discriminate.
  - rewrite Hrpt. split; [lia | intros j Hj; lia].
  - now rewrite Hmax.
Qed.

Lemma fresh_env_one_task_per_run_witness :
  exists env,
    GridEnvironment_init Maia None None (Some "maia-six") None true None = inr env /\
    _get_num_tasks (sample_externals true true) env (mkStep "run" "run") fresh_world
      = (Ok 3, fresh_world).
Proof.
  eexists. split; [reflexivity|].
  apply (fresh_env_one_task_per_run (sample_externals true true) Maia
           None None (Some "maia-six") None true None); reflexivity.
Defined.

(* ===================================================================== *)
(** * The command line of a step's job *)
(* ===================================================================== *)

Section Removal.

Context {A : Type} `{EqDecision A}.
Implicit Types (x : A) (l r names : list A).

Lemma elem_of_rev x l : x ∈ rev l <-> x ∈ l.
Proof. rewrite !list_elem_of_In. symmetry. apply in_rev. Qed.

Lemma list_remove_notin x l : x ∉ l -> list_remove x l = Raise ValueError.
Proof.
  induction l as [|y l IH]; intros Hx; [reflexivity|].
  apply not_elem_of_cons in Hx as [Hne Hx]. cbn.
  rewrite decide_False by congruence. now rewrite IH.
Qed.

Lemma list_index_notin x l : x ∉ l -> list_index x l = Raise ValueError.
Proof.
  induction l as [|y l IH]; intros Hx; [reflexivity|].
  apply not_elem_of_cons in Hx as [Hne Hx]. cbn.
  rewrite decide_False by congruence. now rewrite IH.
Qed.

Lemma list_remove_in x l :
  x ∈ l -> exists r, list_remove x l = Ok r /\ l ≡ₚ x :: r /\ r ⊆ l.
Proof.
  induction l as [|y l IH]; intros Hx; [now apply elem_of_nil in Hx|].
  cbn. destruct (decide (y = x)) as [->|Hne].
  - exists l. split; [reflexivity|]. split; [reflexivity|].
    intros z Hz. now right.
  - apply elem_of_cons in Hx as [->|Hx]; [congruence|].
    destruct (IH Hx) as (r & -> & Hperm & Hsub). cbn.
    exists (y :: r). split; [reflexivity|]. split.
    + rewrite Hperm. apply Permutation_swap.
    + intros z Hz. apply elem_of_cons in Hz as [->|Hz]; [now left | right; auto].
Qed.

Lemma list_remove_app_l x l1 l2 r :
  list_remove x l1 = Ok r -> list_remove x (l1 ++ l2) = Ok (r ++ l2).
Proof.
  revert r. induction l1 as [|y l1 IH]; intros r; cbn; [discriminate|].
  destruct (decide (y = x)); [now intros [= <-]|].
  destruct (list_remove x l1) as [r'|]; cbn; [|discriminate].
  intros [= <-]. now rewrite (IH r').
Qed.

Lemma list_remove_app_r x l1 l2 :
  x ∉ l1 ->
  list_remove x (l1 ++ l2) = rbind (list_remove x l2) (fun r => Ok (l1 ++ r)).
Proof.
  induction l1 as [|y l1 IH]; intros Hx; cbn.
  - now destruct (list_remove x l2).
  - apply not_elem_of_cons in Hx as [Hne Hx].
    rewrite decide_False by congruence. rewrite (IH Hx).
    now destruct (list_remove x l2).
Qed.

Lemma remove_each_raise names e : remove_each names (Raise e) = Raise e.
Proof. induction names as [|n names IH]; [reflexivity | exact IH]. Qed.

(** Removing the elements of [names], whatever their order, from a list
    that starts with them leaves the rest of the list. *)
Lemma remove_each_front names l r :
  l ≡ₚ names -> remove_each names (Ok (l ++ r)) = Ok r.
Proof.
  revert l. induction names as [|n names IH]; intros l Hperm.
  - apply Permutation_nil_r in Hperm as ->. reflexivity.
  - destruct (list_remove_in n l) as (l' & Hrm & Hl & _).
    { rewrite Hperm. now left. }
    cbn. rewrite (list_remove_app_l _ _ _ _ Hrm). apply IH.
    rewrite Hl in Hperm. now apply Permutation_cons_inv in Hperm.
Qed.

(** A name that is not in the list makes the removals fail. *)
Lemma remove_each_missing names l x :
  x ∈ names -> x ∉ l -> remove_each names (Ok l) = Raise ValueError.
Proof.
  revert l. induction names as [|n names IH]; intros l Hin Hnot.
  - now apply elem_of_nil in Hin.
  - cbn. destruct (decide (n ∈ l)) as [Hn|Hn].
    + destruct (list_remove_in n l Hn) as (l' & -> & _ & Hsub).
      apply elem_of_cons in Hin as [->|Hin]; [contradiction|].
      apply IH; [exact Hin|]. intros Hx. apply Hnot. now apply Hsub.
    + rewrite (list_remove_notin n l Hn). apply remove_each_raise.
Qed.

End Removal.

Lemma get_script_args_eq (w : World) :
  _get_script_args w =
    (rbind (if bool_decide ("--all" ∈ rev (tail (sys_argv w)))
            then list_remove "--all" (rev (tail (sys_argv w)))
            else Ok (rev (tail (sys_argv w))))
       (fun commandline =>
          rbind (remove_each (exp_args_steps (exp w)) (Ok commandline))
            (fun commandline => Ok (rev commandline))), w).
Proof.
  unfold _get_script_args, remove_each. run_m.
  destruct (bool_decide ("--all" ∈ rev (tail (sys_argv w)))); cbn.
  - destruct (list_remove "--all" (rev (tail (sys_argv w)))); cbn; [|reflexivity].
    now destruct (fold_left _ _ _).
  - now destruct (fold_left _ _ _).
Qed.

Lemma strip_steps_from_back (w : World) (script : string)
    (before flag after : list string) :
  sys_argv w = script :: before ++ flag ++ after ++ exp_args_steps (exp w) ->
  (flag = ["--all"] \/ (flag = [] /\ "--all" ∉ before)) ->
  "--all" ∉ after ->
  "--all" ∉ exp_args_steps (exp w) ->
  _get_script_args w = (Ok (before ++ after), w).
Proof.
  intros Hargv Hflag Hafter Hsteps.
  rewrite get_script_args_eq, Hargv. cbn [tail].
  set (steps := exp_args_steps (exp w)) in *.
  rewrite !rev_app_distr, <- !app_assoc.
  assert (Hfront : "--all" ∉ rev steps ++ rev after).
  { rewrite elem_of_app, !elem_of_rev. tauto. }
  assert (Hdone : remove_each steps (Ok (rev steps ++ rev after ++ rev before))
                  = Ok (rev after ++ rev before)).
  { apply remove_each_front. symmetry. apply Permutation_rev. }
  destruct Hflag as [->|[-> Hbefore]]; cbn [rev app].
  - rewrite bool_decide_eq_true_2.
    2:{ rewrite !elem_of_app. right. right. now left. }
    rewrite (app_assoc (rev steps) (rev after)).
    rewrite list_remove_app_r by exact Hfront.
    cbn [list_remove]. rewrite decide_True by reflexivity. cbn [rbind].
    rewrite <- app_assoc, Hdone. cbn [rbind].
    now rewrite rev_app_distr, !rev_involutive.
  - rewrite bool_decide_eq_false_2.
    2:{ rewrite !elem_of_app, !elem_of_rev. tauto. }
    cbn [rbind]. rewrite Hdone. cbn [rbind].
    now rewrite rev_app_distr, !rev_involutive.
Qed.

(** X5: when the command line ends with the names of the selected steps,
    [_get_script_args] gives back the arguments before them, in their
    order and without the last [--all]; step names that also occur among
    those arguments stay. *)
Theorem script_args_strip_steps (w : World) (script : string)
    (before flag after : list string) :
  sys_argv w = script :: before ++ flag ++ after ++ exp_args_steps (exp w) ->
  (flag = ["--all"] \/ (flag = [] /\ "--all" ∉ before)) ->
  "--all" ∉ after ->
  "--all" ∉ exp_args_steps (exp w) ->
  _get_script_args w = (Ok (before ++ after), w).
Proof. apply strip_steps_from_back. Qed.

Lemma script_args_strip_steps_witness :
  _get_script_args args_world = (Ok ["--timeout"; "5"], args_world).
Proof.
  apply (script_args_strip_steps args_world "exp.py" ["--timeout"; "5"] ["--all"] []).
  - reflexivity.
  - left. reflexivity.
  - apply not_elem_of_nil.
  - apply (bool_decide_unpack _). vm_compute. exact I.
Defined.

(** X6: a selected step whose name is not on the command line makes
    [_get_script_args] raise [ValueError], as [list.remove] does; nothing
    else changes. *)
Theorem script_args_missing_step (w : World) (step_name : string) :
  step_name ∈ exp_args_steps (exp w) ->
  step_name ∉ tail (sys_argv w) ->
  _get_script_args w = (Raise ValueError, w).
Proof.
  intros Hin Hnot. rewrite get_script_args_eq.
  assert (Hrev : step_name ∉ rev (tail (sys_argv w))) by now rewrite elem_of_rev.
  destruct (bool_decide ("--all" ∈ rev (tail (sys_argv w)))) eqn:Hall.
  - apply bool_decide_eq_true_1 in Hall.
    destruct (list_remove_in _ _ Hall) as (r & -> & _ & Hsub). cbn [rbind].
    rewrite (remove_each_missing _ r step_name Hin); [reflexivity|].
    intros Hr. apply Hrev. now apply Hsub.
  - cbn [rbind]. now rewrite (remove_each_missing _ _ step_name Hin Hrev).
Qed.

Lemma script_args_missing_step_witness :
  _get_script_args (sample_world (mkExperiment "foo" "/exp/foo" "/exp/foo-p" foo_steps [] ["run"]) ∅ [])
  = (Raise ValueError,
     sample_world (mkExperiment "foo" "/exp/foo" "/exp/foo-p" foo_steps [] ["run"]) ∅ []).
Proof.
  apply (script_args_missing_step _ "run").
  - apply (bool_decide_unpack _). vm_compute. exact I.
  - apply (bool_decide_unpack _). vm_compute. exact I.
Defined.

(* ===================================================================== *)
(** * What building a job leaves alone *)
(* ===================================================================== *)

Lemma quiet_refl (w : World) : quiet w w.
Proof. unfold quiet. repeat split; reflexivity. Qed.

Lemma quiet_trans (w1 w2 w3 : World) : quiet w1 w2 -> quiet w2 w3 -> quiet w1 w3.
Proof.
  unfold quiet. intros H1 H2. destruct_and!.
  repeat split; try congruence; etransitivity; eassumption.
Qed.

Lemma quiet_log (w : World) (l : list (level * string)) :
  quiet w (set_log (log w ++ l) w).
Proof. unfold quiet. cbn. repeat split; try reflexivity. now apply prefix_app_r. Qed.

Section Frame.

Context {A B : Type}.

Lemma frame_ret (a : A) : frame (ret a).
Proof. intros w. apply quiet_refl. Qed.

Lemma frame_lift (r : result A) : frame (lift r).
Proof. intros w. apply quiet_refl. Qed.

Lemma frame_raise (e : exn) : frame (@raise A e).
Proof. intros w. apply quiet_refl. Qed.

Lemma frame_bind (m : M A) (k : A -> M B) :
  frame m -> (forall a, frame (k a)) -> frame (bind m k).
Proof.
  intros Hm Hk w. unfold bind. specialize (Hm w).
  destruct (m w) as [[a|e] w1]; cbn in *; [|exact Hm].
  eapply quiet_trans; [exact Hm | apply Hk].
Qed.

End Frame.

Lemma frame_get_world : frame get_world.
Proof. intros w. apply quiet_refl. Qed.

Lemma frame_when (c : bool) (m : M unit) : frame m -> frame (when c m).
Proof. destruct c; [auto | intros _; apply frame_ret]. Qed.

Lemma frame_logging_critical X msg : frame (logging_critical X msg).
Proof.
  intros w. unfold logging_critical. run_m.
  destruct (critical_exits X); apply quiet_log.
Qed.

Lemma frame_random_shuffle {A} (x : list A) : frame (random_shuffle x).
Proof.
  intros w. unfold random_shuffle. run_m. unfold quiet. cbn.
  repeat split; try reflexivity. lia.
Qed.

Lemma frame_get_script_args : frame _get_script_args.
Proof. intros w. rewrite get_script_args_eq. apply quiet_refl. Qed.

Create HintDb frame.

#[local] Hint Resolve frame_ret frame_lift frame_raise frame_get_world frame_when
  frame_logging_critical frame_random_shuffle frame_get_script_args : frame.

Ltac frame_step :=
  first [ solve [auto with frame]
        | apply frame_bind; [|intro]
        | match goal with |- frame (if ?c then _ else _) => destruct c end
        | match goal with |- frame (match ?c with _ => _ end) => destruct c end ].

Lemma frame_get_num_runs X self : frame (_get_num_runs X self).
Proof. unfold _get_num_runs. repeat frame_step. Qed.

Lemma frame_get_num_tasks X self step : frame (_get_num_tasks X self step).
Proof. unfold _get_num_tasks. destruct (String.eqb _ _); [apply frame_get_num_runs | apply frame_ret]. Qed.

Lemma frame_get_job_header X self step is_last : frame (_get_job_header X self step is_last).
Proof.
  unfold _get_job_header, _get_job_params.
  pose proof (frame_get_num_tasks X self step). repeat frame_step.
Qed.

Lemma frame_get_job_body X self step : frame (_get_job_body X self step).
Proof.
  unfold _get_job_body, _get_main_job_body, body_params.
  pose proof (frame_get_num_runs X self). repeat frame_step.
Qed.

Lemma frame_get_job X self step is_last : frame (_get_job X self step is_last).
Proof.
  unfold _get_job.
  pose proof (frame_get_job_header X self step is_last).
  pose proof (frame_get_job_body X self step). repeat frame_step.
Qed.

(** X7: building the text of a job writes no file, submits nothing and
    asks nothing: it can only add to the log and draw random numbers; and
    for a step that is not a run step it leaves everything as it was, so
    that no capacity check takes place for it. *)
Theorem get_job_is_quiet X self step is_last w :
  quiet w (snd (_get_job X self step is_last w)) /\
  (is_run_step step = false -> snd (_get_job X self step is_last w) = w).
Proof.
  split; [apply frame_get_job|].
  unfold is_run_step. intros Hrun.
  unfold _get_job, _get_job_header, _get_job_params, _get_num_tasks, _get_job_body.
  rewrite Hrun. unfold bind at 1 2 3 4 5 6. unfold get_world at 1. unfold lift at 1.
  destruct (_get_job_name (exp w) step); [|reflexivity].
  unfold ret at 1 2 3. cbv beta iota.
  unfold bind, get_world. rewrite get_script_args_eq.
  destruct (rbind (if bool_decide _ then _ else _) _); reflexivity.
Qed.

Lemma get_job_is_quiet_witness :
  quiet fresh_world
    (snd (_get_job (sample_externals true true) (sample_env 1 (Some 2) true)
            (mkStep "build" "call") false fresh_world)) /\
  snd (_get_job (sample_externals true true) (sample_env 1 (Some 2) true)
         (mkStep "build" "call") false fresh_world) = fresh_world.
Proof.
  split.
  - apply (get_job_is_quiet (sample_externals true true) (sample_env 1 (Some 2) true)
             (mkStep "build" "call") false fresh_world).
  - apply (get_job_is_quiet (sample_externals true true) (sample_env 1 (Some 2) true)
             (mkStep "build" "call") false fresh_world). reflexivity.
Defined.

(** X8: the job of a step that is not a run step changes to the working
    directory and calls the experiment script again, with the interpreter
    of the process ([python] when it is unknown), the options of the command
    line and the name of this step alone. *)
Theorem ancillary_job_calls_script_again X self step w (script : string)
    (before flag after : list string) :
  is_run_step step = false ->
  sys_argv w = script :: before ++ flag ++ after ++ exp_args_steps (exp w) ->
  (flag = ["--all"] \/ (flag = [] /\ "--all" ∉ before)) ->
  "--all" ∉ after ->
  "--all" ∉ exp_args_steps (exp w) ->
  _get_job_body X self step w =
    (Ok ("cd " +:+ os_cwd w +:+ nl +:+
         (if String.eqb (sys_executable w) "" then "python" else sys_executable w) +:+
         " " +:+ script +:+ " " +:+ str_join " " (before ++ after) +:+ " " +:+
         name step +:+ nl), w).
Proof.
  unfold is_run_step. intros Hrun Hargv Hflag Hafter Hsteps.
  pose proof (strip_steps_from_back w script before flag after Hargv Hflag Hafter Hsteps)
    as Hargs.
  unfold _get_job_body. rewrite Hrun.
  unfold bind, get_world. rewrite Hargs, Hargv. reflexivity.
Qed.

Lemma ancillary_job_calls_script_again_witness :
  _get_job_body (sample_externals true true) (sample_env 1 None true)
    (mkStep "build" "call") args_world =
  (Ok ("cd /home/user" +:+ nl +:+ "python exp.py --timeout 5 build" +:+ nl), args_world).
Proof.
  apply (ancillary_job_calls_script_again (sample_externals true true)
           (sample_env 1 None true) (mkStep "build" "call") args_world
           "exp.py" ["--timeout"; "5"] ["--all"] []).
  - reflexivity.
  - reflexivity.
  - left. reflexivity.
  - apply not_elem_of_nil.
  - apply (bool_decide_unpack _). vm_compute. exact I.
Defined.

(* ===================================================================== *)
(** * A step that is submitted *)
(* ===================================================================== *)

Lemma open_then_write (p d : string) (w : World) :
  bind (open_w p) (fun _ => file_write p d) w =
    (Ok tt, set_files (<[p := d]> (files w)) w).
Proof.
  unfold open_w, file_write. run_m.
  rewrite lookup_insert_eq. cbn. rewrite append_nil_l, insert_insert_eq. reflexivity.
Qed.

(** Writing and submitting, by the outcome of the job name and of the job
    text. *)
Lemma write_and_submit_eq X self total number step prev job_dir w :
  write_and_submit X self total number step prev job_dir w =
    match _get_job_name (exp w) step with
    | Raise e => (Raise e, w)
    | Ok job_name =>
        match _get_job X self step (number =? total) (job_file_opened job_dir job_name w) with
        | (Raise e, wj) => (Raise e, wj)
        | (Ok job, wj) =>
            (Ok (Some job_name), submitted_world step prev job_dir job_name job wj)
        end
    end.
Proof.
  unfold write_and_submit.
  rewrite (bind_ok _ _ w w w) by reflexivity.
  destruct (_get_job_name (exp w) step) as [job_name|e] eqn:Hjn.
  2:{ now rewrite (bind_raise _ _ w w e). }
  rewrite (bind_ok _ _ w w job_name) by reflexivity.
  rewrite (bind_ok (open_w _) _ w (job_file_opened job_dir job_name w) tt) by reflexivity.
  set (wo := job_file_opened job_dir job_name w).
  pose proof (frame_get_job X self step (number =? total) wo) as Hq.
  destruct (_get_job X self step (number =? total) wo) as [[job|e] wj] eqn:Hjob.
  2:{ now rewrite (bind_raise _ _ _ _ _ Hjob). }
  rewrite (bind_ok _ _ _ _ _ Hjob).
  destruct Hq as (_ & Hfiles & _). cbn [snd] in Hfiles.
  unfold submitted_world, is_run_step, file_write, tools_run_command, do_call, open_w.
  run_m. rewrite Hfiles. unfold wo, job_file_opened. cbn.
  rewrite lookup_insert_eq. cbn. rewrite append_nil_l.
  destruct (String.eqb (_funcname step) "run"); cbn.
  - rewrite lookup_insert_eq. cbn. rewrite append_nil_l, insert_insert_eq.
    reflexivity.
  - reflexivity.
Qed.

Lemma guard_asks_only X step job_dir w :
  asks_only w (snd (submission_guard X step job_dir w)).
Proof.
  unfold submission_guard, os_path_exists, confirm_or_abort, asks_only.
  destruct (String.eqb (_funcname step) "run"); [|cbn; repeat split; reflexivity].
  run_m. destruct (bool_decide _); cbn; [|repeat split; reflexivity].
  destruct (replies w) as [|[] rest]; cbn.
  - repeat split; try reflexivity. now apply prefix_app_r.
  - repeat split; try reflexivity. now apply prefix_app_r.
  - destruct (decline_exits X); cbn; repeat split; try reflexivity; now apply prefix_app_r.
Qed.

Lemma after_build_marker X step w :
  files (after_build X step w) !! os_path_join (job_dir_of X step w) ["submitted"]
  = files w !! marker_of X step w.
Proof. now rewrite after_build_files. Qed.

(** What a step that was submitted leaves behind. *)
Lemma run_step_ok X self total number step prev w r w' :
  run_step X self total number step prev w = (Ok r, w') ->
  exists job_name job wg wj,
    submission_guard X step (job_dir_of X step w) (after_build X step w) = (Ok tt, wg) /\
    _get_job_name (exp (after_build X step w)) step = Ok job_name /\
    _get_job X self step (number =? total)
      (job_file_opened (job_dir_of X step w) job_name wg) = (Ok job, wj) /\
    r = Some job_name /\
    w' = submitted_world step prev (job_dir_of X step w) job_name job wj.
Proof.
  rewrite run_step_eq. unfold bind at 1.
  pose proof (guard_asks_only X step (job_dir_of X step w) (after_build X step w)) as Hg.
  destruct (submission_guard _ _ _ _) as [[[]|e] wg]; [|discriminate].
  destruct Hg as (Hexp & _). cbn [snd] in Hexp.
  rewrite write_and_submit_eq, Hexp.
  destruct (_get_job_name _ step) as [job_name|e]; [|discriminate].
  destruct (_get_job _ _ _ _ _) as [[job|e] wj] eqn:Hjob; [|discriminate].
  intros [= <- <-]. exists job_name, job, wg, wj. auto.
Qed.

Lemma submitted_world_facts step prev job_dir job_name job wo wj :
  quiet wo wj ->
  exp (submitted_world step prev job_dir job_name job wj) = exp wo /\
  calls (submitted_world step prev job_dir job_name job wj)
    = calls wo ++ [RunCommand (submit_argv prev job_name) job_dir] /\
  files (submitted_world step prev job_dir job_name job wj)
    = (if is_run_step step
       then <[os_path_join job_dir ["submitted"] := submitted_text]>
              (<[os_path_join job_dir [job_name] := job]> (files wo))
       else <[os_path_join job_dir [job_name] := job]> (files wo)) /\
  prompts (submitted_world step prev job_dir job_name job wj) = prompts wo /\
  replies (submitted_world step prev job_dir job_name job wj) = replies wo /\
  log (submitted_world step prev job_dir job_name job wj) = log wj.
Proof.
  intros (Hexp & Hfiles & Hcalls & Hp & Hr & _).
  unfold submitted_world. destruct (is_run_step step); cbn;
    rewrite Hexp, Hfiles, Hcalls, Hp, Hr; repeat split; reflexivity.
Qed.

(** X9: a step whose marker file is absent, whose job name is defined and
    whose job text can be built is submitted: the job file in the job
    directory holds the job text and nothing else, whatever it held before;
    one command is issued there, [qsub] of the job, held on the job before
    it when there is one; a run step leaves its marker file; nothing is
    asked. *)
Theorem first_submission X self total number step prev w job_name job wj :
  files w !! marker_of X step w = None ->
  _get_job_name (exp (after_build X step w)) step = Ok job_name ->
  _get_job X self step (number =? total)
    (job_file_opened (job_dir_of X step w) job_name (after_build X step w)) = (Ok job, wj) ->
  exists w',
    run_step X self total number step prev w = (Ok (Some job_name), w') /\
    files w' =
      (if is_run_step step
       then <[marker_of X step w := submitted_text]>
              (<[os_path_join (job_dir_of X step w) [job_name] := job]> (files w))
       else <[os_path_join (job_dir_of X step w) [job_name] := job]> (files w)) /\
    calls w' = calls (after_build X step w) ++
                 [RunCommand (submit_argv prev job_name) (job_dir_of X step w)] /\
    exp w' = exp (after_build X step w) /\
    prompts w' = prompts w /\ replies w' = replies w.
Proof.
  intros Hmarker Hjn Hjob. rewrite run_step_eq.
  set (wb := after_build X step w) in *. set (jd := job_dir_of X step w) in *.
  assert (Hg : submission_guard X step jd wb = (Ok tt, wb)).
  { apply guard_absent. unfold wb, jd. now rewrite after_build_marker. }
  rewrite (bind_ok _ _ _ _ _ Hg), write_and_submit_eq, Hjn, Hjob.
  eexists. split; [reflexivity|].
  pose proof (frame_get_job X self step (number =? total) (job_file_opened jd job_name wb)) as Hq.
  rewrite Hjob in Hq. cbn [snd] in Hq.
  destruct (submitted_world_facts step prev jd job_name job _ wj Hq)
    as (Hexp & Hcalls & Hfiles & Hp & Hr & _).
  rewrite Hexp, Hcalls, Hfiles, Hp, Hr. unfold job_file_opened, marker_of. cbn.
  fold jd. rewrite !insert_insert_eq. unfold wb.
  rewrite after_build_files. pose proof (after_build_terminal X step w) as [-> ->].
  repeat split; reflexivity.
Qed.

Lemma first_submission_witness :
  exists w',
    run_step (sample_externals true true) (sample_env 1 None true) 1 1
      (mkStep "run" "run") (Some "foo-01-build") fresh_world = (Ok (Some "foo-02-run"), w') /\
    files w' !! "/exp/foo/submitted" = Some submitted_text /\
    calls w' = [RunCommand ["qsub"; "-hold_jid"; "foo-01-build"; "foo-02-run"] "/exp/foo"].
Proof.
  edestruct (first_submission (sample_externals true true) (sample_env 1 None true) 1 1
               (mkStep "run" "run") (Some "foo-01-build") fresh_world "foo-02-run")
    as (w' & Hrun & Hfiles & Hcalls & _).
  - reflexivity.
  - reflexivity.
  - vm_compute. reflexivity.
  - exists w'. split; [exact Hrun|]. rewrite Hfiles, Hcalls. split; reflexivity.
Defined.

(* ===================================================================== *)
(** * The chain of submissions *)
(* ===================================================================== *)

Lemma get_job_name_ext (e e' : Experiment) (step : Step) :
  exp_name e' = exp_name e -> exp_steps e' = exp_steps e ->
  _get_job_name e' step = _get_job_name e step.
Proof. unfold _get_job_name. now intros -> ->. Qed.

Lemma get_job_name_nonempty (e : Experiment) (step : Step) (n : string) :
  _get_job_name e step = Ok n -> n <> "".
Proof.
  unfold _get_job_name, get_job_prefix.
  destruct (exp_name e) as [|c rest]; [discriminate|]. cbn [rbind].
  destruct (list_index step (exp_steps e)); [|discriminate]. cbn [rbind].
  intros [= <-]. cbn [str_join]. intros H. apply (f_equal String.length) in H.
  rewrite !append_length in H. cbn in H. lia.
Qed.

Lemma after_build_layout X step w :
  build_keeps_layout X ->
  exp_name (exp (after_build X step w)) = exp_name (exp w) /\
  exp_steps (exp (after_build X step w)) = exp_steps (exp w) /\
  exp_path (exp (after_build X step w)) = exp_path (exp w) /\
  preprocess_exp_path (exp (after_build X step w)) = preprocess_exp_path (exp w).
Proof.
  intros Hb. unfold after_build.
  destruct (Hb "preprocess" (exp w)) as (? & ? & ? & ?).
  destruct (Hb "search" (exp w)) as (? & ? & ? & ?).
  destruct (Hb "search" (exp_build X "preprocess" (exp w))) as (? & ? & ? & ?).
  destruct (String.eqb (name step) "run-preprocess-exp");
    destruct (String.eqb (name step) "run-search-exp"); cbn;
    repeat split; congruence.
Qed.

Lemma after_build_commands X step w :
  run_commands (calls (after_build X step w)) = run_commands (calls w).
Proof.
  unfold after_build, run_commands.
  destruct (String.eqb (name step) "run-preprocess-exp");
    destruct (String.eqb (name step) "run-search-exp"); cbn;
    rewrite ?omap_app; cbn; rewrite ?app_nil_r; reflexivity.
Qed.

(** A step that was submitted, seen from outside. *)
Lemma run_step_ok_facts X self total number step prev w r w' :
  run_step X self total number step prev w = (Ok r, w') ->
  exists job_name,
    _get_job_name (exp (after_build X step w)) step = Ok job_name /\
    r = Some job_name /\
    exp w' = exp (after_build X step w) /\
    run_commands (calls w') = run_commands (calls w) ++ [submit_argv prev job_name] /\
    (is_run_step step = true ->
       files w' !! marker_of X step w = Some submitted_text).
Proof.
  intros Hstep.
  destruct (run_step_ok _ _ _ _ _ _ _ _ _ Hstep) as (jn & job & wg & wj & Hg & Hjn & Hjob & -> & ->).
  pose proof (guard_asks_only X step (job_dir_of X step w) (after_build X step w)) as Ha.
  rewrite Hg in Ha. destruct Ha as (Hexp & _ & Hcalls & _). cbn [snd] in *.
  pose proof (frame_get_job X self step (number =? total)
                (job_file_opened (job_dir_of X step w) jn wg)) as Hq.
  rewrite Hjob in Hq. cbn [snd] in Hq.
  destruct (submitted_world_facts step prev (job_dir_of X step w) jn job _ wj Hq)
    as (Hexp' & Hcalls' & Hfiles' & _).
  exists jn. split; [exact Hjn|]. split; [reflexivity|]. split; [now rewrite Hexp'|].
  split.
  - rewrite Hcalls'. cbn [job_file_opened calls set_files]. rewrite Hcalls.
    unfold run_commands at 1. rewrite omap_app. fold (run_commands (calls (after_build X step w))).
    now rewrite after_build_commands.
  - intros Hrun. rewrite Hfiles', Hrun. unfold marker_of. now rewrite lookup_insert_eq.
Qed.

Lemma run_steps_loop_chain X self total :
  build_keeps_layout X ->
  forall steps number prev w r w',
    nonempty prev = prev ->
    run_steps_loop X self total number steps prev w = (Ok r, w') ->
    exists names,
      Forall2 (fun s n => _get_job_name (exp w) s = Ok n) steps names /\
      run_commands (calls w') = run_commands (calls w) ++ hold_chain prev names.
Proof.
  intros Hb. induction steps as [|step rest IH]; intros number prev w r w' Hprev.
  - cbn. intros [= <- <-]. exists []. split; [constructor | now rewrite app_nil_r].
  - cbn [run_steps_loop]. unfold bind at 1.
    destruct (run_step X self total number step prev w) as [[p|e] w1] eqn:Hstep;
      [|discriminate].
    destruct (run_step_ok_facts _ _ _ _ _ _ _ _ _ Hstep) as (jn & Hjn & -> & Hexp & Hcalls & _).
    destruct (after_build_layout X step w Hb) as (Hname & Hsteps & _).
    intros Hloop.
    assert (Hne : nonempty (Some jn) = Some jn).
    { pose proof (get_job_name_nonempty _ _ _ Hjn). now destruct jn. }
    destruct (IH _ _ _ _ _ Hne Hloop) as (names & HF & Hc).
    exists (jn :: names). split.
    + constructor.
      * rewrite <- Hjn. symmetry. now apply get_job_name_ext.
      * eapply Forall2_impl; [exact HF|]. cbn. intros s n <-. symmetry.
        apply get_job_name_ext; rewrite Hexp; assumption.
    + rewrite Hc, Hcalls, <- app_assoc. cbn [hold_chain app].
      unfold submit_argv. now rewrite Hprev.
Qed.

(** X10: in a chain that [run_steps] submits, the jobs are submitted in
    the order of the steps, the first one free and every later one held
    ([-hold_jid]) on the job of the step before it; the names are the job
    names of the steps.  [Experiment.build] is taken to keep the name and
    the steps of the experiment. *)
Theorem jobs_wait_for_their_predecessor X self steps w w' :
  build_keeps_layout X ->
  run_steps X self steps w = (Ok tt, w') ->
  exists names,
    Forall2 (fun s n => _get_job_name (exp w) s = Ok n) steps names /\
    run_commands (calls w') = run_commands (calls w) ++ hold_chain None names.
Proof.
  intros Hb. unfold run_steps, tools_makedirs, do_call.
  unfold bind at 1 2 3. unfold get_world at 1. unfold modify at 1.
  destruct (run_steps_loop _ _ _ _ _ _ _) as [[r|e] w1] eqn:Hloop; [|discriminate].
  intros [= <-].
  destruct (run_steps_loop_chain X self _ Hb _ _ _ _ _ _ eq_refl Hloop) as (names & HF & Hc).
  exists names. split; [exact HF|]. rewrite Hc. cbn [calls set_calls].
  unfold run_commands at 1. rewrite omap_app. cbn. now rewrite app_nil_r.
Qed.

Lemma jobs_wait_for_their_predecessor_witness :
  exists names,
    Forall2 (fun s n => _get_job_name foo_exp s = Ok n) foo_steps names /\
    run_commands (calls (snd foo_chain)) = hold_chain None names.
Proof.
  apply (jobs_wait_for_their_predecessor (sample_externals true true)
           (sample_env 1 None true) foo_steps fresh_world (snd foo_chain)).
  - intros stage e. repeat split; reflexivity.
  - vm_compute. reflexivity.
Defined.

Lemma job_dir_of_layout X step w :
  build_keeps_layout X ->
  job_dir_of X step w =
    if String.eqb (name step) "run-preprocess-exp"
    then preprocess_exp_path (exp w) else exp_path (exp w).
Proof.
  intros Hb. unfold job_dir_of.
  destruct (String.eqb (name step) "run-preprocess-exp"); [|reflexivity].
  now destruct (Hb "preprocess" (exp w)) as (_ & _ & _ & ->).
Qed.

Lemma guard_present X step job_dir w :
  is_run_step step = true ->
  is_Some (files w !! os_path_join job_dir ["submitted"]) ->
  prompts (snd (submission_guard X step job_dir w))
  = prompts w ++ [submitted_question (os_path_join job_dir ["submitted"])].
Proof.
  unfold is_run_step. intros Hrun Hsome.
  unfold submission_guard, os_path_exists, confirm_or_abort. rewrite Hrun.
  run_m. rewrite (bool_decide_eq_true_2 _ Hsome). cbn.
  destruct (replies w) as [|[] rest]; cbn; try reflexivity.
  destruct (decline_exits X); reflexivity.
Qed.

Lemma write_and_submit_prompts X self total number step prev job_dir w :
  prompts (snd (write_and_submit X self total number step prev job_dir w)) = prompts w.
Proof.
  rewrite write_and_submit_eq.
  destruct (_get_job_name (exp w) step) as [jn|e]; [|reflexivity].
  pose proof (frame_get_job X self step (number =? total) (job_file_opened job_dir jn w)) as Hq.
  destruct (_get_job _ _ _ _ _) as [[job|e] wj]; cbn [snd] in *.
  - now destruct (submitted_world_facts step prev job_dir jn job _ wj Hq)
      as (_ & _ & _ & -> & _).
  - now destruct Hq as (_ & _ & _ & -> & _).
Qed.

(** X11: a run step that was submitted leaves its marker file, and every
    later submission of that step asks, once, whether the experiment is to
    be submitted again, whatever the answer turns out to be.
    [Experiment.build] is taken to keep the directories of the
    experiment. *)
Theorem resubmission_asks X self total number step prev w r w' total' number' prev' :
  build_keeps_layout X ->
  is_run_step step = true ->
  run_step X self total number step prev w = (Ok r, w') ->
  files w' !! marker_of X step w = Some submitted_text /\
  marker_of X step w' = marker_of X step w /\
  prompts (snd (run_step X self total' number' step prev' w'))
  = prompts w' ++ [submitted_question (marker_of X step w)].
Proof.
  intros Hb Hrun Hstep.
  destruct (run_step_ok_facts _ _ _ _ _ _ _ _ _ Hstep) as (jn & _ & _ & Hexp & _ & Hmark).
  specialize (Hmark Hrun).
  destruct (after_build_layout X step w Hb) as (_ & _ & Hpath & Hppath).
  assert (Hdir : job_dir_of X step w' = job_dir_of X step w).
  { rewrite !job_dir_of_layout, Hexp by exact Hb. now rewrite Hpath, Hppath. }
  assert (Hsame : marker_of X step w' = marker_of X step w)
    by (unfold marker_of; now rewrite Hdir).
  split; [exact Hmark|]. split; [exact Hsame|].
  rewrite run_step_eq. unfold bind.
  pose proof (guard_present X step (job_dir_of X step w') (after_build X step w') Hrun) as Hp.
  rewrite after_build_marker, Hsame, Hmark in Hp. specialize (Hp (mk_is_Some _ _ eq_refl)).
  fold (marker_of X step w') in Hp. rewrite Hsame in Hp.
  rewrite (proj1 (after_build_terminal X step w')) in Hp.
  destruct (submission_guard _ _ _ _) as [[[]|e] wg]; cbn [snd] in *; [|exact Hp].
  now rewrite write_and_submit_prompts.
Qed.

Lemma resubmission_asks_witness :
  files (snd (run_step (sample_externals true true) (sample_env 1 None true) 1 1
                (mkStep "run" "run") None fresh_world)) !! "/exp/foo/submitted"
  = Some submitted_text /\
  prompts (snd (run_step (sample_externals true true) (sample_env 1 None true) 1 1
                  (mkStep "run" "run") None
                  (snd (run_step (sample_externals true true) (sample_env 1 None true) 1 1
                          (mkStep "run" "run") None fresh_world))))
  = [submitted_question "/exp/foo/submitted"].
Proof.
  destruct (resubmission_asks (sample_externals true true) (sample_env 1 None true) 1 1
               (mkStep "run" "run") None fresh_world (Some "foo-02-run")
               (snd (run_step (sample_externals true true) (sample_env 1 None true) 1 1
                       (mkStep "run" "run") None fresh_world)) 1 1 None)
    as (Hfiles & _ & Hprompts).
  - intros stage e. repeat split; reflexivity.
  - reflexivity.
  - vm_compute. reflexivity.
  - split; [exact Hfiles | exact Hprompts].
Defined.

(** X12: a step for which no job name can be formed is not submitted,
    be it a step that is not a run step or a run step whose marker file is
    absent (so that nothing is asked first): with an empty experiment name
    [run_steps] stops there with [AssertionError], and with a step that is
    not among the steps of the experiment with [ValueError]; no file is
    written and no command issued for the step. *)
Theorem unnamed_step_is_not_submitted X self total number step prev w :
  is_run_step step = false \/ files w !! marker_of X step w = None ->
  (exp_name (exp (after_build X step w)) = "" ->
     run_step X self total number step prev w = (Raise AssertionError, after_build X step w)) /\
  (exp_name (exp (after_build X step w)) <> "" ->
   step ∉ exp_steps (exp (after_build X step w)) ->
     run_step X self total number step prev w = (Raise ValueError, after_build X step w)) /\
  files (after_build X step w) = files w /\
  run_commands (calls (after_build X step w)) = run_commands (calls w).
Proof.
  intros Hmarker.
  assert (Hg : submission_guard X step (job_dir_of X step w) (after_build X step w)
               = (Ok tt, after_build X step w)).
  { destruct Hmarker as [Hnot|Hmarker]; [now apply guard_not_run|].
    apply guard_absent. now rewrite after_build_marker. }
  assert (Hrun : forall e, _get_job_name (exp (after_build X step w)) step = Raise e ->
            run_step X self total number step prev w = (Raise e, after_build X step w)).
  { intros e He. rewrite run_step_eq, (bind_ok _ _ _ _ _ Hg), write_and_submit_eq.
    now rewrite He. }
  split; [|split; [|split; [apply after_build_files | apply after_build_commands]]].
  - intros Hname. apply Hrun. unfold _get_job_name. now rewrite Hname.
  - intros Hname Hnotin. apply Hrun. unfold _get_job_name, get_job_prefix.
    destruct (exp_name _) as [|c rest]; [contradiction|]. cbn [rbind].
    rewrite (list_index_notin _ _ Hnotin). reflexivity.
Qed.

Lemma unnamed_step_is_not_submitted_witness :
  run_step (sample_externals true true) (sample_env 1 None true) 3 3
    (mkStep "report" "call") (Some "foo-02-run")
    (sample_world short_exp {[ "/exp/foo/submitted" := submitted_text ]} [])
  = (Raise ValueError,
     sample_world short_exp {[ "/exp/foo/submitted" := submitted_text ]} []).
Proof.
  apply (unnamed_step_is_not_submitted (sample_externals true true) (sample_env 1 None true)
           3 3 (mkStep "report" "call") (Some "foo-02-run")
           (sample_world short_exp {[ "/exp/foo/submitted" := submitted_text ]} [])).
  - left. reflexivity.
  - discriminate.
  - apply (bool_decide_unpack _). vm_compute. exact I.
Defined.

(* ===================================================================== *)
(** * The Freiburg environment *)
(* ===================================================================== *)

Lemma prefix_append (n b : string) : String.prefix n (n +:+ b) = true.
Proof.
  induction n as [|c n IH]; [rewrite append_nil_l; now destruct b|].
  rewrite append_cons. cbn. now destruct (ascii_dec c c).
Qed.

Lemma prefix_inv (n h : string) : String.prefix n h = true -> exists b, h = n +:+ b.
Proof.
  revert h. induction n as [|c n IH]; intros h; [now exists h|].
  destruct h as [|c' h]; [discriminate|]. cbn.
  destruct (ascii_dec c c') as [<-|]; [|discriminate].
  intros H. destruct (IH h H) as [b ->]. exists b. now rewrite append_cons.
Qed.

(** [needle in hay]: [needle] occurs somewhere in [hay]. *)
Lemma str_contains_spec (needle hay : string) :
  str_contains needle hay = true <-> exists a b, hay = a +:+ needle +:+ b.
Proof.
  split.
  - induction hay as [|c hay IH]; cbn [str_contains]; rewrite orb_true_iff.
    + intros [H|H]; [|discriminate]. apply prefix_inv in H as [b ->]. now exists "", b.
    + intros [H|H].
      * apply prefix_inv in H as [b ->]. now exists "", b.
      * destruct (IH H) as (a & b & ->). exists (String c a), b. now rewrite append_cons.
  - intros (a & b & ->). induction a as [|c a IH].
    + rewrite append_nil_l. destruct (needle +:+ b) eqn:E; cbn [str_contains];
        rewrite <- E, prefix_append; reflexivity.
    + rewrite append_cons. cbn [str_contains]. rewrite IH. apply orb_true_r.
Qed.

(** X13: the Freiburg environment refuses to chain steps on a queue whose
    name contains [xeon]: the critical record is logged before anything
    else, so that under the aborting handler no directory is made, no file
    written and no job submitted; on any other queue it does what the base
    class does. *)
Theorem gki_refuses_xeon X self steps w :
  ((forall a b, queue self <> a +:+ "xeon" +:+ b) ->
     Gki_run_steps X self steps w = run_steps X self steps w) /\
  (forall a b, queue self = a +:+ "xeon" +:+ b ->
     (critical_exits X = true ->
        Gki_run_steps X self steps w =
          (Raise (SystemExit "aborting"), set_log (log w ++ [(CRITICAL, xeon_message)]) w)) /\
     (critical_exits X = false ->
        Gki_run_steps X self steps w =
          run_steps X self steps (set_log (log w ++ [(CRITICAL, xeon_message)]) w))).
Proof.
  unfold Gki_run_steps. split.
  - intros Hno. destruct (str_contains "xeon" (queue self)) eqn:Hc; [|reflexivity].
    apply str_contains_spec in Hc as (a & b & Hq). now destruct (Hno a b).
  - intros a b Hq.
    assert (Hc : str_contains "xeon" (queue self) = true)
      by (apply str_contains_spec; eauto).
    rewrite Hc. unfold when, logging_critical, bind at 1 2, modify.
    split; intros ->; reflexivity.
Qed.

Lemma gki_refuses_xeon_witness :
  Gki_run_steps (sample_externals true true) xeon_env foo_steps fresh_world =
    (Raise (SystemExit "aborting"),
     set_log (log fresh_world ++ [(CRITICAL, xeon_message)]) fresh_world) /\
  Gki_run_steps (sample_externals true true) (sample_env 1 None true) foo_steps fresh_world =
    run_steps (sample_externals true true) (sample_env 1 None true) foo_steps fresh_world.
Proof.
  split.
  - apply (gki_refuses_xeon (sample_externals true true) xeon_env foo_steps fresh_world)
      with (a := "") (b := "_core.q"); reflexivity.
  - apply (gki_refuses_xeon (sample_externals true true) (sample_env 1 None true)
             foo_steps fresh_world).
    intros a b Hq.
    assert (Hc : str_contains "xeon" (queue (sample_env 1 None true)) = true)
      by (apply str_contains_spec; eauto).
    discriminate Hc.
Defined.

(* ===================================================================== *)
(** * What the aggregator touches *)
(* ===================================================================== *)

Lemma fetch_dir_no_copy X run_dir eval_dir w :
  calls (snd (fetch_dir X run_dir eval_dir false w)) = calls w.
Proof.
  unfold fetch_dir, Properties_load, logging_critical. run_m.
  destruct (truthy _); cbn.
  - destruct (iter_strings _); reflexivity.
  - destruct (critical_exits X); cbn; [reflexivity|].
    destruct (iter_strings _); reflexivity.
Qed.

Lemma fetch_loop_no_copy X eval_dir total dirs :
  forall index combined w,
    calls (snd (fetch_loop X eval_dir false total index dirs combined w)) = calls w.
Proof.
  induction dirs as [|d dirs IH]; intros index combined w; [reflexivity|].
  cbn [fetch_loop]. unfold logging_info.
  rewrite (bind_ok (modify _) _ w _ tt) by reflexivity.
  set (w1 := set_log _ w).
  pose proof (fetch_dir_no_copy X d eval_dir w1) as Hfd.
  change (calls w1) with (calls w) in Hfd.
  unfold bind at 1.
  destruct (fetch_dir X d eval_dir false w1) as [[[run_id props]|e] w2]; cbn [snd] in *;
    [|exact Hfd].
  destruct combined as [c|].
  - unfold lift, bind at 1 2, ret at 1.
    destruct (iter_strings run_id); [|exact Hfd].
    now rewrite IH.
  - unfold bind at 1, ret at 1. now rewrite IH.
Qed.

(** X14: without [copy_all] the aggregator, whatever its outcome, changes
    no file but the combined property file, and without
    [write_combined_props] no file at all; it copies nothing, and the one
    directory it has made is the destination, at the end of an aggregation
    that succeeds. *)
Theorem fetcher_without_copy_writes_combined_file_only X exp_dir eval_dir (write : bool) w :
  (forall path, path <> combined_file exp_dir eval_dir ->
     files (snd (Fetcher_call X exp_dir eval_dir false write w)) !! path = files w !! path) /\
  (write = false ->
     files (snd (Fetcher_call X exp_dir eval_dir false write w)) = files w) /\
  calls (snd (Fetcher_call X exp_dir eval_dir false write w)) =
    calls w ++
    match fst (Fetcher_call X exp_dir eval_dir false write w) with
    | Ok _ => [Makedirs (default_eval_dir exp_dir eval_dir)]
    | Raise _ => []
    end.
Proof.
  destruct (endswith_slash exp_dir) eqn:Hslash.
  - rewrite (Fetcher_call_trailing_slash X exp_dir eval_dir false write w Hslash).
    cbn. rewrite app_nil_r. repeat split; reflexivity.
  - split; [|split].
    + destruct (Fetcher_call_spec X exp_dir eval_dir false write w Hslash)
        as (w' & -> & Hfiles & _).
      cbn [snd]. rewrite Hfiles. unfold files_after_fetch.
      destruct (run_entries _ _ _); [|reflexivity].
      intros path Hne. destruct write; [|reflexivity]. now rewrite lookup_insert_ne.
    + destruct (Fetcher_call_spec X exp_dir eval_dir false write w Hslash)
        as (w' & -> & Hfiles & _).
      cbn [snd]. rewrite Hfiles. unfold files_after_fetch.
      destruct (run_entries _ _ _); [|reflexivity]. now intros ->.
    + rewrite (Fetcher_call_unfold X exp_dir eval_dir false write w Hslash). cbv zeta.
      set (w1 := set_log _ w). set (combined := if write then _ else _).
      pose proof (fetch_loop_no_copy X (default_eval_dir exp_dir eval_dir)
                    (length (run_dirs_of w exp_dir)) (run_dirs_of w exp_dir) 1 combined w1)
        as Hcalls.
      change (calls w1) with (calls w) in Hcalls.
      destruct (fetch_loop _ _ _ _ _ _ _ _) as [[oc|e] w2]; cbn [fst snd] in *.
      * destruct oc; cbn; now rewrite Hcalls.
      * now rewrite Hcalls, app_nil_r.
Qed.

Lemma fetcher_without_copy_writes_combined_file_only_witness :
  files (snd (Fetcher_call (fetch_externals true) "/exp/foo" None false true
                (fetch_world (sample_tree "A2"))))
    !! "/exp/foo/runs-00001-00100/00001/properties" = Some "A1" /\
  files (snd (Fetcher_call (fetch_externals true) "/exp/foo" None false false
                (fetch_world (sample_tree "A2")))) = sample_tree "A2" /\
  calls (snd (Fetcher_call (fetch_externals true) "/exp/foo" None false false
                (fetch_world (sample_tree "A2")))) = [Makedirs "/exp/foo-eval"].
Proof.
  split; [|split].
  - rewrite (proj1 (fetcher_without_copy_writes_combined_file_only (fetch_externals true)
                      "/exp/foo" None true (fetch_world (sample_tree "A2")))).
    + reflexivity.
    + discriminate.
  - apply (fetcher_without_copy_writes_combined_file_only (fetch_externals true)
             "/exp/foo" None false (fetch_world (sample_tree "A2"))). reflexivity.
  - rewrite (proj2 (proj2 (fetcher_without_copy_writes_combined_file_only
                             (fetch_externals true) "/exp/foo" None false
                             (fetch_world (sample_tree "A2"))))).
    vm_compute. reflexivity.
Defined.

Lemma fetch_dir_ok X run_dir eval_dir (copy_all : bool) w kv :
  run_entry X (files w) run_dir = Ok kv ->
  exists w',
    fetch_dir X run_dir eval_dir copy_all w =
      (Ok (run_id_of X (files w) run_dir, run_props X (files w) run_dir), w') /\
    files w' = files w /\
    calls w' = calls w ++ (if copy_all then copy_of X (files w) eval_dir run_dir else []).
Proof.
  unfold run_entry, copy_of, fetch_dir, run_id_of, run_props, Properties_load,
    logging_critical, tools_makedirs, tools_fast_updatetree, do_call.
  run_m.
  set (props := match files w !! os_path_join run_dir ["properties"] with
                | Some text => props_loads X text
                | None => []
                end).
  destruct (truthy (props_get "id" props)); cbn.
  - destruct (iter_strings (props_get "id" props)); cbn; [|discriminate]. intros _.
    destruct copy_all; cbn; eexists; (split; [reflexivity|]); cbn;
      rewrite <- ?app_assoc, ?app_nil_r; auto.
  - destruct (critical_exits X); cbn; [discriminate|].
    destruct (iter_strings (props_get "id" props)); cbn; [|discriminate]. intros _.
    destruct copy_all; cbn; eexists; (split; [reflexivity|]); cbn;
      rewrite <- ?app_assoc, ?app_nil_r; auto.
Qed.

Lemma run_entry_segments X fs run_dir kv :
  run_entry X fs run_dir = Ok kv ->
  exists segments, iter_strings (run_id_of X fs run_dir) = Ok segments.
Proof.
  unfold run_entry. destruct (_ && _); [discriminate|].
  destruct (iter_strings _); [eauto | discriminate].
Qed.

Lemma fetch_loop_calls X eval_dir (copy_all : bool) total dirs :
  forall index combined w kvs,
    run_entries X (files w) dirs = Ok kvs ->
    calls (snd (fetch_loop X eval_dir copy_all total index dirs combined w)) =
      calls w ++ (if copy_all then flat_map (copy_of X (files w) eval_dir) dirs else []).
Proof.
  induction dirs as [|d dirs IH]; intros index combined w kvs Hall.
  - cbn. now destruct copy_all; rewrite app_nil_r.
  - cbn [run_entries] in Hall.
    destruct (run_entry X (files w) d) as [kv|] eqn:Hentry; [|discriminate].
    destruct (run_entries X (files w) dirs) as [kvs'|] eqn:Hrest; [|discriminate].
    cbn [fetch_loop]. unfold logging_info.
    rewrite (bind_ok (modify _) _ w _ tt) by reflexivity.
    set (w1 := set_log _ w).
    destruct (fetch_dir_ok X d eval_dir copy_all w1 kv Hentry) as (w2 & Hfd & Hf2 & Hc2).
    change (files w1) with (files w) in *. change (calls w1) with (calls w) in *.
    rewrite (bind_ok _ _ _ _ _ Hfd). cbv beta iota.
    destruct (run_entry_segments _ _ _ _ Hentry) as (segments & Hsegs).
    rewrite <- Hf2 in Hrest.
    destruct combined as [c|].
    + unfold lift, bind at 1 2, ret at 1. rewrite Hsegs. cbv beta iota.
      rewrite (IH _ _ _ _ Hrest), Hc2, Hf2.
      destruct copy_all; cbn [flat_map]; now rewrite <- ?app_assoc, ?app_nil_r.
    + unfold bind at 1, ret at 1. cbv beta iota.
      rewrite (IH _ _ _ _ Hrest), Hc2, Hf2.
      destruct copy_all; cbn [flat_map]; now rewrite <- ?app_assoc, ?app_nil_r.
Qed.

(** X15: an aggregation that succeeds makes the destination directory
    last; with [copy_all] it has before that, for each run directory in
    the sorted order of the listing, made the directory named by the run's
    id under the destination and copied the run directory there; without
    [copy_all] it copies nothing. *)
Theorem copy_all_copies_each_run X exp_dir eval_dir (copy_all write : bool) w kvs :
  endswith_slash exp_dir = false ->
  run_entries X (files w) (run_dirs_of w exp_dir) = Ok kvs ->
  calls (snd (Fetcher_call X exp_dir eval_dir copy_all write w)) =
    calls w ++
    (if copy_all
     then flat_map (copy_of X (files w) (default_eval_dir exp_dir eval_dir))
            (run_dirs_of w exp_dir)
     else []) ++
    [Makedirs (default_eval_dir exp_dir eval_dir)] /\
  Sorted str_le (run_dirs_of w exp_dir) /\
  run_dirs_of w exp_dir ≡ₚ os_glob w (os_path_join exp_dir ["runs-*-*"; "*"]) /\
  Forall (fun d => exists segments,
            iter_strings (run_id_of X (files w) d) = Ok segments /\
            copy_of X (files w) (default_eval_dir exp_dir eval_dir) d =
              [Makedirs (os_path_join (default_eval_dir exp_dir eval_dir) segments);
               FastUpdatetree d (os_path_join (default_eval_dir exp_dir eval_dir) segments)])
    (run_dirs_of w exp_dir).
Proof.
  intros Hslash Hall. split; [|split; [apply sorted_Sorted | split; [apply sorted_Permutation|]]].
  - rewrite (Fetcher_call_unfold X exp_dir eval_dir copy_all write w Hslash). cbv zeta.
    set (w1 := set_log _ w). set (combined := if write then _ else _).
    pose proof (fetch_loop_calls X (default_eval_dir exp_dir eval_dir) copy_all
                  (length (run_dirs_of w exp_dir)) (run_dirs_of w exp_dir) 1 combined w1 kvs Hall)
      as Hcalls.
    destruct (fetch_loop_spec X (default_eval_dir exp_dir eval_dir) copy_all
                (length (run_dirs_of w exp_dir)) 1 (run_dirs_of w exp_dir) combined w1)
      as (w2 & Hloop & _).
    change (files w1) with (files w) in *. change (calls w1) with (calls w) in *.
    rewrite Hloop in *. rewrite Hall in *. cbn [rbind snd] in *.
    destruct (option_map _ combined); cbn; rewrite Hcalls, <- app_assoc; reflexivity.
  - clear Hslash. revert kvs Hall. generalize (run_dirs_of w exp_dir) as dirs.
    induction dirs as [|d dirs IH]; intros kvs Hall; [constructor|].
    cbn [run_entries] in Hall.
    destruct (run_entry X (files w) d) as [kv|] eqn:Hentry; [|discriminate].
    destruct (run_entries X (files w) dirs) as [kvs'|] eqn:Hrest; [|discriminate].
    constructor; [|now apply (IH kvs')].
    destruct (run_entry_segments _ _ _ _ Hentry) as (segments & Hsegs).
    exists segments. split; [exact Hsegs|]. unfold copy_of. now rewrite Hsegs.
Qed.

Lemma copy_all_copies_each_run_witness :
  calls (snd (Fetcher_call (fetch_externals true) "/exp/foo" None true true
                (fetch_world (sample_tree "A2")))) =
    [Makedirs "/exp/foo-eval/a/1";
     FastUpdatetree "/exp/foo/runs-00001-00100/00001" "/exp/foo-eval/a/1";
     Makedirs "/exp/foo-eval/a/2";
     FastUpdatetree "/exp/foo/runs-00001-00100/00002" "/exp/foo-eval/a/2";
     Makedirs "/exp/foo-eval/b/1";
     FastUpdatetree "/exp/foo/runs-00001-00100/00003" "/exp/foo-eval/b/1";
     Makedirs "/exp/foo-eval"].
Proof.
  edestruct (copy_all_copies_each_run (fetch_externals true) "/exp/foo" None true true
               (fetch_world (sample_tree "A2"))) as (Hcalls & _).
  - reflexivity.
  - vm_compute. reflexivity.
  - rewrite Hcalls. vm_compute. reflexivity.
Defined.

(* ===================================================================== *)
(** * Capacity under a handler that only logs *)
(* ===================================================================== *)

(** X16: the number of runs is computed, and checked against the task
    limit, once for the header and once for the body of a run step's job:
    beyond the limit and under a logging handler that does not end the
    process, the capacity error is logged twice, and the job is built all
    the same. *)
Theorem capacity_is_checked_twice X self step is_last w k job_name :
  is_run_step step = true ->
  critical_exits X = false ->
  runs_per_task self <> 0 ->
  is_ceiling (length (exp_runs (exp w))) (runs_per_task self) k ->
  exceeds k (MAX_TASKS self) = true ->
  _get_job_name (exp w) step = Ok job_name ->
  exists job w',
    _get_job X self step is_last w = (Ok job, w') /\
    log w' = log w ++ [(CRITICAL, capacity_message k (MAX_TASKS self));
                       (CRITICAL, capacity_message k (MAX_TASKS self))] /\
    files w' = files w /\ calls w' = calls w.
Proof.
  unfold is_run_step. intros Hrun Hcrit Hd Hk Hex Hjn.
  set (msg := (CRITICAL, capacity_message k (MAX_TASKS self))).
  set (w1 := set_log (log w ++ [msg]) w).
  set (w2 := set_log (log w1 ++ [msg]) w1).
  assert (H1 : _get_num_runs X self w = (Ok k, w1)).
  { rewrite (get_num_runs_beyond X self w k Hd Hk Hex), Hcrit. reflexivity. }
  assert (H2 : _get_num_runs X self w1 = (Ok k, w2)).
  { rewrite (get_num_runs_beyond X self w1 k Hd Hk Hex), Hcrit. reflexivity. }
  assert (Hlog : log w2 = log w ++ [msg; msg]).
  { unfold w2, w1. cbn. now rewrite <- app_assoc. }
  assert (Hheader : exists h, _get_job_header X self step is_last w = (Ok h, w1)).
  { unfold _get_job_header, _get_job_params, _get_num_tasks. rewrite Hrun.
    rewrite (bind_ok _ _ w w1
               {| jp_errfile := "driver.err"; jp_extra_options := extra_options self;
                  jp_host_spec := host_spec self; jp_logfile := "driver.log";
                  jp_name := job_name; jp_notification := "#$ -m n";
                  jp_num_tasks := k; jp_priority := priority self;
                  jp_queue := queue self |}).
    - eexists. reflexivity.
    - rewrite (bind_ok _ _ w w w) by reflexivity.
      rewrite (bind_ok _ _ w w job_name) by (unfold lift; now rewrite Hjn).
      now rewrite (bind_ok _ _ _ _ _ H1). }
  assert (Hbody : exists b w', _get_job_body X self step w1 = (Ok b, w') /\
                    log w' = log w2 /\ files w' = files w /\ calls w' = calls w).
  { unfold _get_job_body, _get_main_job_body, body_params. rewrite Hrun.
    destruct (randomize_task_order self).
    - eexists _, _. split.
      + erewrite bind_ok; [reflexivity|].
        rewrite (bind_ok _ _ _ _ _ H2). unfold random_shuffle. run_m. reflexivity.
      + cbn. repeat split; reflexivity.
    - eexists _, _. split.
      + erewrite bind_ok; [reflexivity|].
        rewrite (bind_ok _ _ _ _ _ H2). reflexivity.
      + cbn. repeat split; reflexivity. }
  destruct Hheader as (h & Hh). destruct Hbody as (b & w' & Hb & Hl & Hf & Hc).
  unfold _get_job. rewrite (bind_ok _ _ _ _ _ Hh), (bind_ok _ _ _ _ _ Hb).
  eexists _, _. split; [reflexivity|]. split; [now rewrite Hl|]. split; assumption.
Qed.

Lemma capacity_is_checked_twice_witness :
  exists job w',
    _get_job (sample_externals false true) (sample_env 1 (Some 2) true)
      (mkStep "run" "run") true fresh_world = (Ok job, w') /\
    log w' = [(CRITICAL, capacity_text); (CRITICAL, capacity_text)].
Proof.
  destruct (capacity_is_checked_twice (sample_externals false true)
              (sample_env 1 (Some 2) true) (mkStep "run" "run") true fresh_world 3 "foo-02-run")
    as (job & w' & Hjob & Hlog & _).
  - reflexivity.
  - reflexivity.
  - discriminate.
  - unfold is_ceiling. cbn. split; [lia | intros j Hj; lia].
  - reflexivity.
  - reflexivity.
  - exists job, w'. split; [exact Hjob|]. rewrite Hlog. vm_compute. reflexivity.
Defined.
